(** * DynamicContract: real-time presence and content synchronisation

    A shallow embedding of the collaboration core of the repository:

    - [MemStorage] (server/storage.ts): the contract map and the presence
      map, with [updateContract], [getPresenceByContract],
      [upsertPresence] and [removePresence];
    - the WebSocket router of [registerRoutes] (server/routes.ts): the
      [clients] registry, the per-connection closure variables [userId]
      and [contractId], the [message] and [close] handlers and
      [broadcastToContract];
    - the client [WebSocketManager] (client/src/lib/websocket.ts):
      [connect], [disconnect], [send], [attemptReconnect].

    Conventions.  JavaScript numbers that the schema declares as integers
    are [Z]; a value that may be [undefined] (or [null]) is an [option];
    [new Date()] and [crypto.randomUUID()] are inputs of the step that
    needs them ([Env]).

    The [message] handler is an [async] function.  A call of it runs up
    to its [await] of the store: by then the closure variables, the
    registry and the store have their new values ([MemStorage] does no
    I/O, its methods do their work when called).  What follows the
    [await], the broadcast, is queued and runs later, after the rests
    queued before it; it reads [userId] and [contractId] again when it
    runs.  The state of the router holds this queue ([pending]), and
    the event [Resume] runs its head, so that a trace says in which
    order handlers start and resume.  The [close] event of a socket
    comes in a turn of its own and after the last [message] event of
    the socket: nothing runs between the [await] of its handler and
    the rest, and the handler is one step. *)

From Stdlib Require Import Ascii.
From stdpp Require Import gmap strings list fin_maps pretty.

Open Scope Z_scope.

(** ** JavaScript truthiness, as used by the guards of the handlers *)

(** [!!x] for [x : number | undefined]: [undefined] and [0] are falsy. *)
Definition truthy (x : option Z) : bool :=
  match x with
  | Some n => negb (Z.eqb n 0)
  | None => false
  end.

(** [!!s] for a string: only the empty string is falsy. *)
Definition truthy_string (s : string) : bool :=
  match s with
  | EmptyString => false
  | _ => true
  end.

(** [x || d] on numbers. *)
Definition or_default (x : option Z) (d : Z) : Z :=
  if truthy x then default d x else d.

(** ** Shared schema (shared/schema.ts) *)

(** [{ line: number, character: number }] *)
Record Position := mkPosition { line : Z; character : Z }.

Global Instance Position_eq_dec : EqDecision Position.
Proof. solve_decision. Defined.

(** A [Date], in milliseconds. *)
Definition Date := Z.

(** [typeof contracts.$inferSelect].  [content] is declared [string], but
    the router stores [message.content] unchecked, so the stored value may
    be [undefined]: the field is an [option]. *)
Record Contract := mkContract {
  k_id : Z;
  k_title : string;
  k_content : option string;
  k_projectId : Z;
  k_createdById : Z;
  k_version : string;
  k_status : string;
  k_riskScore : option string;
  k_completeness : option Z;
  k_wordCount : option Z;
  k_readingLevel : option string;
  k_createdAt : Date;
  k_updatedAt : Date
}.

(** [Partial<Contract>]: for every field, [None] when the key is not in the
    object and [Some v] when it is (with [v] itself possibly absent). *)
Record PartialContract := mkPartialContract {
  u_id : option Z;
  u_title : option string;
  u_content : option (option string);
  u_projectId : option Z;
  u_createdById : option Z;
  u_version : option string;
  u_status : option string;
  u_riskScore : option (option string);
  u_completeness : option (option Z);
  u_wordCount : option (option Z);
  u_readingLevel : option (option string);
  u_createdAt : option Date;
  u_updatedAt : option Date
}.

Definition no_updates : PartialContract :=
  mkPartialContract None None None None None None None None None None None
                    None None.

(** [typeof presenceData.$inferSelect] *)
Record PresenceData := mkPresenceData {
  p_id : string;
  p_userId : Z;
  p_contractId : Z;
  p_position : option Position;
  p_isActive : option bool;
  p_lastSeen : Date
}.

Global Instance PresenceData_eq_dec : EqDecision PresenceData.
Proof. solve_decision. Defined.

(** [InsertPresenceData]: the presence schema without [id] and [lastSeen];
    [isActive] has a column default, so it is optional. *)
Record InsertPresenceData := mkInsertPresenceData {
  i_userId : Z;
  i_contractId : Z;
  i_position : option Position;
  i_isActive : option bool
}.

(** ** MemStorage (server/storage.ts) *)

Module MemStorage.

Record t := mk {
  contracts : gmap Z Contract;
  presenceData : gmap string PresenceData
}.

(** [{ ...contract, ...updates, updatedAt: now }] *)
Definition spread (c : Contract) (u : PartialContract) (now : Date)
  : Contract :=
  {| k_id := default (k_id c) (u_id u);
     k_title := default (k_title c) (u_title u);
     k_content := default (k_content c) (u_content u);
     k_projectId := default (k_projectId c) (u_projectId u);
     k_createdById := default (k_createdById c) (u_createdById u);
     k_version := default (k_version c) (u_version u);
     k_status := default (k_status c) (u_status u);
     k_riskScore := default (k_riskScore c) (u_riskScore u);
     k_completeness := default (k_completeness c) (u_completeness u);
     k_wordCount := default (k_wordCount c) (u_wordCount u);
     k_readingLevel := default (k_readingLevel c) (u_readingLevel u);
     k_createdAt := default (k_createdAt c) (u_createdAt u);
     k_updatedAt := now |}.

Definition getContract (id : Z) (st : t) : option Contract :=
  contracts st !! id.

(** [updateContract(id, updates)]: the new store and the returned
    record ([None] is [undefined]: no such contract, store untouched). *)
Definition updateContract (id : Z) (updates : PartialContract)
    (now : Date) (st : t) : t * option Contract :=
  match contracts st !! id with
  | None => (st, None)
  | Some contract =>
      let updatedContract := spread contract updates now in
      (mk (<[id := updatedContract]> (contracts st)) (presenceData st),
       Some updatedContract)
  end.

(** The map key [`${userId}-${contractId}`]. *)
Definition presence_key (userId contractId : Z) : string :=
  pretty userId +:+ "-" +:+ pretty contractId.

(** [presence.isActive] used as a condition. *)
Definition is_active (p : PresenceData) : bool :=
  match p_isActive p with
  | Some true => true
  | _ => false
  end.

(** [getPresenceByContract(contractId)]: the values of the map filtered
    on the contract and the liveness flag. *)
Definition getPresenceByContract (contractId : Z) (st : t)
  : list PresenceData :=
  filter (λ presence,
            p_contractId presence = contractId ∧ is_active presence = true)
         ((map_to_list (presenceData st)).*2).

(** [upsertPresence(insertPresence)]; [uuid] is what
    [crypto.randomUUID()] would return, [now] is [new Date()]. *)
Definition upsertPresence (insertPresence : InsertPresenceData)
    (uuid : string) (now : Date) (st : t) : t * PresenceData :=
  let key := presence_key (i_userId insertPresence)
                          (i_contractId insertPresence) in
  let existing := presenceData st !! key in
  let presence :=
    {| p_id := match existing with
               | Some e => if truthy_string (p_id e) then p_id e else uuid
               | None => uuid
               end;
       p_userId := i_userId insertPresence;
       p_contractId := i_contractId insertPresence;
       p_position := i_position insertPresence;
       p_isActive := i_isActive insertPresence;
       p_lastSeen := now |} in
  (mk (contracts st) (<[key := presence]> (presenceData st)), presence).

Definition deactivate (p : PresenceData) : PresenceData :=
  {| p_id := p_id p;
     p_userId := p_userId p;
     p_contractId := p_contractId p;
     p_position := p_position p;
     p_isActive := Some false;
     p_lastSeen := p_lastSeen p |}.

(** [removePresence(userId, contractId)] *)
Definition removePresence (userId contractId : Z) (st : t) : t * bool :=
  let key := presence_key userId contractId in
  match presenceData st !! key with
  | Some presence =>
      (mk (contracts st) (<[key := deactivate presence]> (presenceData st)),
       true)
  | None => (st, false)
  end.

Definition empty : t := mk ∅ ∅.

(** Every record sits under the key computed from its own fields: the
    only writer of new records is [upsertPresence]. *)
Definition keyed (st : t) : Prop :=
  map_Forall (λ key p, key = presence_key (p_userId p) (p_contractId p))
             (presenceData st).

End MemStorage.

(** ** Transport message envelope

    One record for both directions: the JSON object that
    [JSON.stringify] puts on the wire and [JSON.parse] reads back.  A key
    that is absent (or [undefined], which [JSON.stringify] drops) is
    [None]. *)
Record Message := mkMessage {
  m_type : string;
  m_userId : option Z;
  m_contractId : option Z;
  m_position : option Position;
  m_content : option string;
  m_wordCount : option Z;
  m_action : option string;
  m_timestamp : option Date;
  m_message : option string
}.

Global Instance Message_eq_dec : EqDecision Message.
Proof. solve_decision. Defined.

(** The object literal [{ type }], every other key absent. *)
Definition msg (type : string) : Message :=
  mkMessage type None None None None None None None None.

(** What the [message] handler gets from the transport: text that
    [JSON.parse] (or the access to [message.type]) rejects, or an
    object. *)
Inductive Inbound :=
| Malformed
| Parsed (message : Message).

(** [WebSocket.readyState] *)
Inductive ReadyState := CONNECTING | OPEN | CLOSING | CLOSED.

Global Instance ReadyState_eq_dec : EqDecision ReadyState.
Proof. solve_decision. Defined.

(** ** The WebSocket router of [registerRoutes] (server/routes.ts) *)

Module Router.

(** A socket accepted by the server, by identity. *)
Abbreviation WebSocket := nat.

(** The state captured by one run of the ['connection'] callback: the
    two [let] variables and the socket's [readyState]. *)
Record Connection := mkConnection {
  userId : option Z;
  contractId : option Z;
  readyState : ReadyState
}.

(** Inputs of a handler that are not part of the message. *)
Record Env := mkEnv {
  now : Date;            (* [new Date()] *)
  randomUUID : string    (* [crypto.randomUUID()] *)
}.

(** What a [message] handler has left to do when it reaches its
    [await]: the [case] it is in, with the socket and the [message] it
    was called with. *)
Inductive Rest :=
| AfterJoin (ws : WebSocket) (message : Message)
| AfterCursorMove (ws : WebSocket) (message : Message)
| AfterContentChange (ws : WebSocket) (message : Message).

(** [clients] is the [Map<number, Set<WebSocket>>] of the module;
    [wire] records every [client.send] in order, with its socket;
    [pending] holds the handlers that wait at their [await], oldest
    first. *)
Record t := mk {
  clients : gmap Z (gset WebSocket);
  connections : gmap WebSocket Connection;
  storage : MemStorage.t;
  wire : list (WebSocket * Message);
  pending : list Rest
}.

Definition init (st : MemStorage.t) : t := mk ∅ ∅ st [] [].

Definition readyState_of (s : t) (ws : WebSocket) : ReadyState :=
  from_option readyState CLOSED (connections s !! ws).

(** The set registered under a document ([∅] when there is no entry). *)
Definition subscribersOf (contractId : Z) (s : t) : gset WebSocket :=
  default ∅ (clients s !! contractId).

(** The messages a socket has been sent, oldest first. *)
Definition received (ws : WebSocket) (s : t) : list Message :=
  (filter (λ p, p.1 = ws) (wire s)).*2.

(** [ws.send(JSON.stringify(message))] *)
Definition send (ws : WebSocket) (message : Message) (s : t) : t :=
  mk (clients s) (connections s) (storage s) (wire s ++ [(ws, message)])
     (pending s).

(** [broadcastToContract(contractId, message, excludeWs)] *)
Definition broadcastToContract (contractId : Z) (message : Message)
    (excludeWs : option WebSocket) (s : t) : t :=
  match clients s !! contractId with
  | Some contractClients =>
      let targets :=
        filter (λ client,
                  Some client ≠ excludeWs ∧ readyState_of s client = OPEN)
               (elements contractClients) in
      mk (clients s) (connections s) (storage s)
         (wire s ++ ((λ client, (client, message)) <$> targets))
         (pending s)
  | None => s
  end.

Definition set_closure (ws : WebSocket) (u c : option Z) (s : t) : t :=
  mk (clients s)
     (alter (λ k, mkConnection u c (readyState k)) ws (connections s))
     (storage s) (wire s) (pending s).

Definition set_readyState (ws : WebSocket) (r : ReadyState) (s : t) : t :=
  mk (clients s)
     (alter (λ k, mkConnection (userId k) (contractId k) r) ws
            (connections s))
     (storage s) (wire s) (pending s).

Definition set_storage (st : MemStorage.t) (s : t) : t :=
  mk (clients s) (connections s) st (wire s) (pending s).

Definition set_clients (cl : gmap Z (gset WebSocket)) (s : t) : t :=
  mk cl (connections s) (storage s) (wire s) (pending s).

Definition set_pending (p : list Rest) (s : t) : t :=
  mk (clients s) (connections s) (storage s) (wire s) p.

(** The handler stops at its [await]; [rest] runs after the rests that
    are queued already. *)
Definition await (rest : Rest) (s : t) : t :=
  set_pending (pending s ++ [rest]) s.

(** [case 'join'], up to the [await] *)
Definition join (env : Env) (ws : WebSocket) (message : Message) (s : t)
  : t :=
  (* userId = message.userId; contractId = message.contractId; *)
  let s := set_closure ws (m_userId message) (m_contractId message) s in
  match m_userId message, m_contractId message with
  | Some userId, Some contractId =>
      (* if (!userId || !contractId) break; *)
      if negb (truthy (Some userId)) || negb (truthy (Some contractId))
      then s
      else
        (* clients.get(contractId)!.add(ws), after creating the set *)
        let s :=
          set_clients
            (<[contractId := {[ws]} ∪ subscribersOf contractId s]>
               (clients s)) s in
        (* await storage.upsertPresence({ ... }) *)
        let s :=
          set_storage
            (MemStorage.upsertPresence
               (mkInsertPresenceData userId contractId
                  (m_position message) (Some true))
               (randomUUID env) (now env) (storage s)).1 s in
        await (AfterJoin ws message) s
  | _, _ => s
  end.

(** [broadcastToContract(contractId, ...)] with the closure variable
    [contractId] as it is when the call is made: [clients.get] of
    [undefined] finds no set. *)
Definition broadcastToClosure (k : Connection) (message : Message)
    (excludeWs : option WebSocket) (s : t) : t :=
  match contractId k with
  | Some contractId => broadcastToContract contractId message excludeWs s
  | None => s
  end.

(** The closure variables of the connection of [ws], as they are now. *)
Definition closure (ws : WebSocket) (s : t) : Connection :=
  default (mkConnection None None CLOSED) (connections s !! ws).

(** [case 'join'], after the [await]: [contractId] and [userId] are
    read again. *)
Definition after_join (ws : WebSocket) (message : Message) (s : t) : t :=
  let k := closure ws s in
  broadcastToClosure k
    {| m_type := "presence_update";
       m_userId := userId k;
       m_contractId := None;
       m_position := m_position message;
       m_content := None;
       m_wordCount := None;
       m_action := Some "joined";
       m_timestamp := None;
       m_message := None |}
    (Some ws) s.

(** [case 'cursor_move'], up to the [await] *)
Definition cursor_move (env : Env) (ws : WebSocket) (k : Connection)
    (message : Message) (s : t) : t :=
  match userId k, contractId k with
  | Some userId, Some contractId =>
      if truthy (Some userId) && truthy (Some contractId) then
        (* await storage.upsertPresence({ ... }) *)
        let s :=
          set_storage
            (MemStorage.upsertPresence
               (mkInsertPresenceData userId contractId
                  (m_position message) (Some true))
               (randomUUID env) (now env) (storage s)).1 s in
        await (AfterCursorMove ws message) s
      else s
  | _, _ => s
  end.

(** [case 'cursor_move'], after the [await] *)
Definition after_cursor_move (ws : WebSocket) (message : Message) (s : t)
  : t :=
  let k := closure ws s in
  broadcastToClosure k
    {| m_type := "cursor_update";
       m_userId := userId k;
       m_contractId := None;
       m_position := m_position message;
       m_content := None;
       m_wordCount := None;
       m_action := None;
       m_timestamp := None;
       m_message := None |}
    (Some ws) s.

(** The object [{ content: message.content,
    wordCount: message.wordCount || 0 }]. *)
Definition content_updates (message : Message) : PartialContract :=
  {| u_id := None; u_title := None;
     u_content := Some (m_content message);
     u_projectId := None; u_createdById := None; u_version := None;
     u_status := None; u_riskScore := None; u_completeness := None;
     u_wordCount := Some (Some (or_default (m_wordCount message) 0));
     u_readingLevel := None; u_createdAt := None; u_updatedAt := None |}.

(** [case 'content_change'], up to the [await] *)
Definition content_change (env : Env) (ws : WebSocket) (k : Connection)
    (message : Message) (s : t) : t :=
  match contractId k with
  | Some contractId =>
      if truthy (Some contractId) then
        (* await storage.updateContract(contractId, { ... }) *)
        let s :=
          set_storage
            (MemStorage.updateContract contractId
               (content_updates message) (now env) (storage s)).1 s in
        await (AfterContentChange ws message) s
      else s
  | None => s
  end.

(** [case 'content_change'], after the [await]; [env] is read when the
    rest runs ([new Date()] of the [timestamp]). *)
Definition after_content_change (env : Env) (ws : WebSocket)
    (message : Message) (s : t) : t :=
  let k := closure ws s in
  broadcastToClosure k
    {| m_type := "content_update";
       m_userId := userId k;
       m_contractId := None;
       m_position := None;
       m_content := m_content message;
       m_wordCount := None;
       m_action := None;
       m_timestamp := Some (now env);
       m_message := None |}
    (Some ws) s.

(** The reply of the [catch] block. *)
Definition error_reply : Message :=
  {| m_type := "error";
     m_userId := None; m_contractId := None; m_position := None;
     m_content := None; m_wordCount := None; m_action := None;
     m_timestamp := None;
     m_message := Some "Invalid message format" |}.

(** [ws.on('message', ...)]: the [switch] on [message.type], up to the
    [await] of the case taken. *)
Definition dispatch (env : Env) (ws : WebSocket) (k : Connection)
    (data : Inbound) (s : t) : t :=
  match data with
  | Malformed => send ws error_reply s
  | Parsed message =>
      if String.eqb (m_type message) "join" then join env ws message s
      else if String.eqb (m_type message) "cursor_move"
           then cursor_move env ws k message s
      else if String.eqb (m_type message) "content_change"
           then content_change env ws k message s
      else s
  end.

(** A message event on socket [ws]: the handler runs up to its
    [await].  The transport emits no message on a socket it has not
    accepted, nor after the ['close'] event. *)
Definition on_message (env : Env) (ws : WebSocket) (data : Inbound)
    (s : t) : t :=
  match connections s !! ws with
  | Some k =>
      match readyState k with
      | CLOSED => s
      | _ => dispatch env ws k data s
      end
  | None => s
  end.

(** The handler that has waited longest goes on after its [await]. *)
Definition resume (env : Env) (s : t) : t :=
  match pending s with
  | [] => s
  | rest :: others =>
      let s := set_pending others s in
      match rest with
      | AfterJoin ws message => after_join ws message s
      | AfterCursorMove ws message => after_cursor_move ws message s
      | AfterContentChange ws message =>
          after_content_change env ws message s
      end
  end.

(** The body of [ws.on('close', ...)]. *)
Definition close_handler (ws : WebSocket) (k : Connection) (s : t) : t :=
  match userId k, contractId k with
  | Some userId, Some contractId =>
      if truthy (Some userId) && truthy (Some contractId) then
        let s :=
          set_storage
            (MemStorage.removePresence userId contractId (storage s)).1 s in
        let s :=
          match clients s !! contractId with
          | Some contractClients =>
              let contractClients := contractClients ∖ {[ws]} in
              if decide (size contractClients = 0%nat)
              then set_clients (delete contractId (clients s)) s
              else set_clients
                     (<[contractId := contractClients]> (clients s)) s
          | None => s
          end in
        broadcastToContract contractId
          {| m_type := "presence_update";
             m_userId := Some userId;
             m_contractId := None;
             m_position := None;
             m_content := None;
             m_wordCount := None;
             m_action := Some "left";
             m_timestamp := None;
             m_message := None |}
          None s
      else s
  | _, _ => s
  end.

(** The ['close'] event of socket [ws]: the socket is [CLOSED] when the
    handler runs, and the event is emitted once.  No [message] event of
    the socket follows it, so the closure variables that the handler
    reads after its [await] are those it read before. *)
Definition on_close (ws : WebSocket) (s : t) : t :=
  match connections s !! ws with
  | Some k =>
      match readyState k with
      | CLOSED => s
      | _ => close_handler ws k (set_readyState ws CLOSED s)
      end
  | None => s
  end.

(** Events of the server's loop. *)
Inductive Event :=
| Connect (ws : WebSocket)                    (* wss.on('connection') *)
| Receive (ws : WebSocket) (data : Inbound)   (* ws.on('message') *)
| Resume                        (* the oldest waiting handler goes on *)
| Closing (ws : WebSocket)    (* the closing handshake has started *)
| Close (ws : WebSocket).                     (* ws.on('close') *)

Definition step (env : Env) (ev : Event) (s : t) : t :=
  match ev with
  | Connect ws =>
      match connections s !! ws with
      | Some _ => s
      | None =>
          mk (clients s)
             (<[ws := mkConnection None None OPEN]> (connections s))
             (storage s) (wire s) (pending s)
      end
  | Receive ws data => on_message env ws data s
  | Resume => resume env s
  | Closing ws =>
      match readyState_of s ws with
      | OPEN => set_readyState ws CLOSING s
      | _ => s
      end
  | Close ws => on_close ws s
  end.

(** The loop: one event at a time. *)
Fixpoint run (evs : list (Env * Event)) (s : t) : t :=
  match evs with
  | [] => s
  | (env, ev) :: evs => run evs (step env ev s)
  end.

End Router.

(** ** The client [WebSocketManager] (client/src/lib/websocket.ts) *)

Module Client.

Local Open Scope nat_scope.

(** A browser socket, by creation order: the index in [sockets]. *)
Abbreviation Socket := nat.

(** A socket made by [connect(userId, contractId)]: its [readyState]
    and the two arguments its handlers close over. *)
Record Sock := mkSock {
  readyState : ReadyState;
  s_userId : Z;
  s_contractId : Z
}.

(** A [setTimeout] made by [attemptReconnect]: its delay in
    milliseconds, the arguments of the [connect] it will call, and
    whether it has fired. *)
Record Timer := mkTimer {
  delay : nat;
  t_userId : Z;
  t_contractId : Z;
  fired : bool
}.

(** The fields of the class.  A callback is known by a number; the
    [Set<Function>] of an event is the list of its callbacks in
    insertion order, without repetition. *)
Record WebSocketManager := mkManager {
  ws : option Socket;
  reconnectAttempts : nat;
  maxReconnectAttempts : nat;
  reconnectDelay : nat;
  listeners : gmap string (list nat)
}.

(** The manager with its browser: the sockets and timers it has
    created, what it has put on the wire, and the callbacks it has
    invoked. *)
Record t := mk {
  manager : WebSocketManager;
  sockets : list Sock;
  timers : list Timer;
  wire : list (Socket * Message);
  delivered : list (nat * Message)
}.

(** [new WebSocketManager()] in a fresh page. *)
Definition init : t :=
  mk (mkManager None 0 5 1000 ∅) [] [] [] [].

Definition set_manager (m : WebSocketManager) (w : t) : t :=
  mk m (sockets w) (timers w) (wire w) (delivered w).

Definition set_ws (s : option Socket) (w : t) : t :=
  let m := manager w in
  set_manager (mkManager s (reconnectAttempts m) (maxReconnectAttempts m)
                         (reconnectDelay m) (listeners m)) w.

Definition set_reconnectAttempts (n : nat) (w : t) : t :=
  let m := manager w in
  set_manager (mkManager (ws m) n (maxReconnectAttempts m)
                         (reconnectDelay m) (listeners m)) w.

Definition set_listeners (l : gmap string (list nat)) (w : t) : t :=
  let m := manager w in
  set_manager (mkManager (ws m) (reconnectAttempts m)
                         (maxReconnectAttempts m) (reconnectDelay m) l) w.

Definition readyState_of (w : t) (s : Socket) : ReadyState :=
  from_option readyState CLOSED (sockets w !! s).

Definition set_readyState (s : Socket) (r : ReadyState) (w : t) : t :=
  mk (manager w)
     (alter (λ k, mkSock r (s_userId k) (s_contractId k)) s (sockets w))
     (timers w) (wire w) (delivered w).

(** [connect(userId, contractId)]: a new socket, [CONNECTING], becomes
    [this.ws]; its four handlers are those of [open], [close],
    [message] and [error] below. *)
Definition connect (userId contractId : Z) (w : t) : t :=
  let s := length (sockets w) in
  set_ws (Some s)
    (mk (manager w) (sockets w ++ [mkSock CONNECTING userId contractId])
        (timers w) (wire w) (delivered w)).

(** [WebSocket.close()]: a socket not yet closing starts to close; the
    [close] event comes later. *)
Definition socket_close (s : Socket) (w : t) : t :=
  match readyState_of w s with
  | CONNECTING | OPEN => set_readyState s CLOSING w
  | CLOSING | CLOSED => w
  end.

(** [disconnect()] *)
Definition disconnect (w : t) : t :=
  match ws (manager w) with
  | Some s => set_ws None (socket_close s w)
  | None => w
  end.

(** [send(message)] *)
Definition send (message : Message) (w : t) : t :=
  match ws (manager w) with
  | Some s =>
      match readyState_of w s with
      | OPEN =>
          mk (manager w) (sockets w) (timers w)
             (wire w ++ [(s, message)]) (delivered w)
      | _ => w
      end
  | None => w
  end.

(** [on(event, callback)] *)
Definition on (event : string) (callback : nat) (w : t) : t :=
  let eventListeners := default [] (listeners (manager w) !! event) in
  set_listeners
    (<[event := if decide (callback ∈ eventListeners) then eventListeners
                else (eventListeners ++ [callback])%list]>
       (listeners (manager w))) w.

(** [off(event, callback)] *)
Definition off (event : string) (callback : nat) (w : t) : t :=
  match listeners (manager w) !! event with
  | Some eventListeners =>
      set_listeners
        (<[event := filter (λ f, f ≠ callback) eventListeners]>
           (listeners (manager w))) w
  | None => w
  end.

(** [emit(event, data)] *)
Definition emit (event : string) (data : Message) (w : t) : t :=
  match listeners (manager w) !! event with
  | Some eventListeners =>
      mk (manager w) (sockets w) (timers w) (wire w)
         (delivered w ++ ((λ callback, (callback, data)) <$> eventListeners))
  | None => w
  end.

(** [attemptReconnect(userId, contractId)] *)
Definition attemptReconnect (userId contractId : Z) (w : t) : t :=
  let m := manager w in
  if reconnectAttempts m <? maxReconnectAttempts m then
    let w := set_reconnectAttempts (S (reconnectAttempts m)) w in
    mk (manager w) (sockets w)
       (timers w ++
          [mkTimer (reconnectDelay m * reconnectAttempts (manager w))
                   userId contractId false])
       (wire w) (delivered w)
  else w.

(** The message sent by [onopen]. *)
Definition join_message (userId contractId : Z) : Message :=
  {| m_type := "join";
     m_userId := Some userId;
     m_contractId := Some contractId;
     m_position := Some (mkPosition 0 0);
     m_content := None;
     m_wordCount := None;
     m_action := None;
     m_timestamp := None;
     m_message := None |}.

(** [this.ws.onopen] of a socket made by [connect(userId, contractId)] *)
Definition onopen (userId contractId : Z) (w : t) : t :=
  send (join_message userId contractId) (set_reconnectAttempts 0 w).

(** [this.ws.onmessage] *)
Definition onmessage (data : Inbound) (w : t) : t :=
  match data with
  | Parsed message => emit (m_type message) message w
  | Malformed => w
  end.

(** [this.ws.onclose] of a socket made by [connect(userId, contractId)] *)
Definition onclose (userId contractId : Z) (w : t) : t :=
  attemptReconnect userId contractId w.

(** What happens to the manager: calls of its public methods, events
    of its sockets, and timers that fire. *)
Inductive Event :=
| CallConnect (userId contractId : Z)
| CallDisconnect
| CallSend (message : Message)
| CallOn (event : string) (callback : nat)
| CallOff (event : string) (callback : nat)
| Opened (s : Socket)
| Closed (s : Socket)
| Received (s : Socket) (data : Inbound)
| Errored (s : Socket)
| Timeout (i : nat).

Definition step (ev : Event) (w : t) : t :=
  match ev with
  | CallConnect userId contractId => connect userId contractId w
  | CallDisconnect => disconnect w
  | CallSend message => send message w
  | CallOn event callback => on event callback w
  | CallOff event callback => off event callback w
  | Opened s =>
      match sockets w !! s with
      | Some k =>
          match readyState k with
          | CONNECTING =>
              onopen (s_userId k) (s_contractId k) (set_readyState s OPEN w)
          | _ => w
          end
      | None => w
      end
  | Closed s =>
      match sockets w !! s with
      | Some k =>
          match readyState k with
          | CLOSED => w
          | _ =>
              onclose (s_userId k) (s_contractId k)
                      (set_readyState s CLOSED w)
          end
      | None => w
      end
  | Received s data =>
      match readyState_of w s with
      | OPEN => onmessage data w
      | _ => w
      end
  | Errored s => w
  | Timeout i =>
      match timers w !! i with
      | Some k =>
          if fired k then w
          else
            connect (t_userId k) (t_contractId k)
              (mk (manager w) (sockets w)
                  (<[i := mkTimer (delay k) (t_userId k) (t_contractId k)
                                  true]> (timers w))
                  (wire w) (delivered w))
      | None => w
      end
  end.

Fixpoint run (evs : list Event) (w : t) : t :=
  match evs with
  | [] => w
  | ev :: evs => run evs (step ev w)
  end.

(** The states of the channel, read off the manager's socket. *)
Inductive Status := Disconnected | Connecting | Open.

Definition status (w : t) : Status :=
  match ws (manager w) with
  | Some s =>
      match readyState_of w s with
      | CONNECTING => Connecting
      | OPEN => Open
      | CLOSING | CLOSED => Disconnected
      end
  | None => Disconnected
  end.

(** Timers waiting to fire. *)
Definition pending (w : t) : list Timer :=
  filter (λ k, fired k = false) (timers w).

(** The delays of the timers made since the state [w0]. *)
Definition delays_since (w0 w : t) : list nat :=
  delay <$> drop (length (timers w0)) (timers w).

End Client.

(** ** Vocabulary of the statements *)

(** The pair a presence record is about. *)
Definition about (userId contractId : Z) (p : PresenceData) : Prop :=
  p_userId p = userId ∧ p_contractId p = contractId.

Global Instance about_dec u c p : Decision (about u c p).
Proof. unfold about. apply _. Defined.

(** The store holds a record about the pair. *)
Definition has_record (userId contractId : Z) (st : MemStorage.t) : Prop :=
  ∃ key p, MemStorage.presenceData st !! key = Some p
           ∧ about userId contractId p.

(** A string without the character [-]. *)
Fixpoint dashfree (s : string) : Prop :=
  match s with
  | EmptyString => True
  | String a r => a ≠ "-"%char ∧ dashfree r
  end.

(** The claim about broadcasts, read literally: every connection
    registered under the document, other than the sender, gets [out]. *)
Definition reaches_every_subscriber (s s' : Router.t)
    (ws : Router.WebSocket) (d : Z) (out : Message) : Prop :=
  ∀ c, c ∈ Router.subscribersOf d s' → c ≠ ws →
       Router.received c s' = (Router.received c s ++ [out])%list.

(** What [broadcastToContract] does: every connection registered under
    the document whose socket is [OPEN], other than the sender, gets
    [out]; every other connection, the sender included, gets nothing. *)
Definition delivered_to_open_others (s s' : Router.t)
    (ws : Router.WebSocket) (d : Z) (out : Message) : Prop :=
  ∀ c, Router.received c s' =
       (Router.received c s ++
        if decide (c ∈ Router.subscribersOf d s' ∧ c ≠ ws
                   ∧ Router.readyState_of s' c = OPEN)
        then [out] else [])%list.

(** The outbound kind and action that answer an inbound kind. *)
Definition answer_of (type : string) : string * option string :=
  if String.eqb type "join" then ("presence_update", Some "joined")
  else if String.eqb type "cursor_move" then ("cursor_update", None)
  else ("content_update", None).

(** No document keeps an empty set of connections. *)
Definition no_empty_set (s : Router.t) : Prop :=
  ∀ d S, Router.clients s !! d = Some S → S ≠ ∅.

(** The document a [join] of socket [ws] asks for, when the event is a
    [join] of [ws] that passes the guard on [userId] and [contractId]. *)
Definition join_target (ws : Router.WebSocket) (ev : Router.Event)
  : option Z :=
  match ev with
  | Router.Receive ws' (Parsed m) =>
      if bool_decide (ws' = ws) && String.eqb (m_type m) "join"
         && truthy (m_userId m) && truthy (m_contractId m)
      then m_contractId m else None
  | _ => None
  end.

(** The documents socket [ws] asks to join along a trace. *)
Definition joins_of (ws : Router.WebSocket)
    (evs : list (Router.Env * Router.Event)) : list Z :=
  omap (λ e, join_target ws e.2) evs.

(** A connection registered under at most one document. *)
Definition in_one_set_at_most (ws : Router.WebSocket) (s : Router.t) : Prop :=
  ∀ d d', ws ∈ Router.subscribersOf d s → ws ∈ Router.subscribersOf d' s →
          d = d'.

(** The three broadcasts of the [message] handler, for a [userId] that
    is there. *)
Definition joined_update (userId : Z) (position : option Position)
  : Message :=
  {| m_type := "presence_update"; m_userId := Some userId;
     m_contractId := None; m_position := position; m_content := None;
     m_wordCount := None; m_action := Some "joined"; m_timestamp := None;
     m_message := None |}.

Definition cursor_update (userId : Z) (position : option Position)
  : Message :=
  {| m_type := "cursor_update"; m_userId := Some userId;
     m_contractId := None; m_position := position; m_content := None;
     m_wordCount := None; m_action := None; m_timestamp := None;
     m_message := None |}.

Definition content_update (userId : option Z) (content : option string)
    (timestamp : Date) : Message :=
  {| m_type := "content_update"; m_userId := userId;
     m_contractId := None; m_position := None; m_content := content;
     m_wordCount := None; m_action := None; m_timestamp := Some timestamp;
     m_message := None |}.

(** The socket whose handler waits. *)
Definition rest_socket (rest : Router.Rest) : Router.WebSocket :=
  match rest with
  | Router.AfterJoin ws _ | Router.AfterCursorMove ws _
  | Router.AfterContentChange ws _ => ws
  end.

(** The message that the rest of a handler broadcasts; [userId] is the
    closure variable when the rest runs, [env] is read then. *)
Definition rest_broadcast (env : Router.Env) (userId : option Z)
    (rest : Router.Rest) : Message :=
  match rest with
  | Router.AfterJoin _ message =>
      {| m_type := "presence_update"; m_userId := userId;
         m_contractId := None; m_position := m_position message;
         m_content := None; m_wordCount := None;
         m_action := Some "joined"; m_timestamp := None;
         m_message := None |}
  | Router.AfterCursorMove _ message =>
      {| m_type := "cursor_update"; m_userId := userId;
         m_contractId := None; m_position := m_position message;
         m_content := None; m_wordCount := None; m_action := None;
         m_timestamp := None; m_message := None |}
  | Router.AfterContentChange _ message =>
      {| m_type := "content_update"; m_userId := userId;
         m_contractId := None; m_position := None;
         m_content := m_content message; m_wordCount := None;
         m_action := None; m_timestamp := Some (Router.now env);
         m_message := None |}
  end.

(** The rest of a handler is the next to run. *)
Definition next_to_resume (rest : Router.Rest) (s : Router.t) : Prop :=
  head (Router.pending s) = Some rest.

(** The closure variables of [ws] are in [s'] what they are in [s]. *)
Definition closure_kept (ws : Router.WebSocket) (s s' : Router.t) : Prop :=
  Router.userId (Router.closure ws s') = Router.userId (Router.closure ws s)
  ∧ Router.contractId (Router.closure ws s')
    = Router.contractId (Router.closure ws s).

(** The closure variables of [ws] hold [u] and [d]. *)
Definition closure_holds (ws : Router.WebSocket) (u d : option Z)
    (s : Router.t) : Prop :=
  Router.userId (Router.closure ws s) = u
  ∧ Router.contractId (Router.closure ws s) = d.

(** The document an inbound event targets and the broadcast it causes,
    when the handler's guard lets it through and the closure of the
    sender is, when the broadcast is made, as the event has left it;
    [k] is the sender's closure when the event arrives, [env] is read
    when the broadcast is made. *)
Definition outcome_of (env : Router.Env) (k : Router.Connection)
    (message : Message) : option (Z * Message) :=
  if String.eqb (m_type message) "join" then
    if truthy (m_userId message) && truthy (m_contractId message) then
      u ← m_userId message; d ← m_contractId message;
      Some (d, joined_update u (m_position message))
    else None
  else if String.eqb (m_type message) "cursor_move" then
    if truthy (Router.userId k) && truthy (Router.contractId k) then
      u ← Router.userId k; d ← Router.contractId k;
      Some (d, cursor_update u (m_position message))
    else None
  else if String.eqb (m_type message) "content_change" then
    if truthy (Router.contractId k) then
      d ← Router.contractId k;
      Some (d, content_update (Router.userId k) (m_content message)
                              (Router.now env))
    else None
  else None.

(** ** Scenarios *)

Module Scenario.
Import Router.

Definition env (t : Date) : Env :=
  mkEnv t "9b2f6c1e-58a4-4d0b-a7c3-0e1f2d3c4b5a".

(** The messages a client sends. *)
Definition join_of (u d : Z) (position : option Position) : Message :=
  mkMessage "join" (Some u) (Some d) position None None None None None.

Definition cursor_to (l c : Z) : Message :=
  mkMessage "cursor_move" None None (Some (mkPosition l c)) None None None
            None None.

Definition content_of (text : string) (words : Z) : Message :=
  mkMessage "content_change" None None None (Some text) (Some words) None
            None None.

(** A store with one contract, number 7. *)
Definition contract7 : Contract :=
  {| k_id := 7; k_title := "Service Agreement";
     k_content := Some "<h2>SERVICE AGREEMENT</h2>";
     k_projectId := 1; k_createdById := 1; k_version := "2.1";
     k_status := "draft"; k_riskScore := Some "medium";
     k_completeness := Some 87; k_wordCount := Some 1247;
     k_readingLevel := Some "Grade 12"; k_createdAt := 0;
     k_updatedAt := 0 |}.

Definition store7 : MemStorage.t := MemStorage.mk {[7 := contract7]} ∅.

(** Three connections, 0, 1 and 2, of users 1, 2 and 3, join
    document 7. *)
Definition three_on_7 : t :=
  run [(env 1, Connect 0%nat); (env 2, Connect 1%nat);
       (env 3, Connect 2%nat);
       (env 4, Receive 0%nat (Parsed (join_of 1 7 (Some (mkPosition 0 0)))));
       (env 4, Resume);
       (env 5, Receive 1%nat (Parsed (join_of 2 7 None)));
       (env 5, Resume);
       (env 6, Receive 2%nat (Parsed (join_of 3 7 None)));
       (env 6, Resume)]
      (init store7).

(** Then the socket of connection 1 starts to close; its [close] event
    has not been emitted yet. *)
Definition one_closing : t := step (env 7) (Closing 1%nat) three_on_7.

(** Besides, connection 4 of user 5 has joined document 8, and
    connection 3 is accepted and has not joined. *)
Definition with_observer_of_8 : t :=
  run [(env 7, Connect 3%nat); (env 7, Connect 4%nat);
       (env 8, Receive 4%nat (Parsed (join_of 5 8 None))); (env 8, Resume)]
      three_on_7.

(** One connection that joins document 1 and then document 2. *)
Definition two_joins : list (Env * Event) :=
  [(env 1, Connect 0%nat);
   (env 2, Receive 0%nat (Parsed (join_of 1 1 None))); (env 2, Resume);
   (env 3, Receive 0%nat (Parsed (join_of 1 2 None))); (env 3, Resume)].

(** Connection 1 joins document 1, joins document 2, and closes. *)
Definition rejoin_then_close : list (Env * Event) :=
  [(env 1, Connect 0%nat); (env 2, Connect 1%nat);
   (env 3, Receive 0%nat (Parsed (join_of 1 1 None))); (env 3, Resume);
   (env 4, Receive 1%nat (Parsed (join_of 2 1 None))); (env 4, Resume);
   (env 5, Receive 1%nat (Parsed (join_of 2 2 None))); (env 5, Resume);
   (env 6, Close 1%nat)].

(** Two connections on document 7; one leaves. *)
Definition join_join_close : list (Env * Event) :=
  [(env 1, Connect 0%nat); (env 2, Connect 1%nat);
   (env 3, Receive 0%nat (Parsed (join_of 1 7 None))); (env 3, Resume);
   (env 4, Receive 1%nat (Parsed (join_of 2 7 None))); (env 4, Resume);
   (env 5, Close 0%nat)].

End Scenario.

(** ** Vocabulary of the statements on the channel manager *)

Module Reconnect.
Import Client.
Local Open Scope nat_scope.

(** One failed attempt: the manager's socket closes, and the timer that
    this close has set, if it has set one, fires. *)
Definition fail (w : t) : t :=
  match ws (manager w) with
  | Some s => step (Timeout (length (timers w))) (step (Closed s) w)
  | None => w
  end.

(** The retry schedule as a function: the delay before attempt [k]. *)
Definition delay_of (base k : nat) : nat := base * k.

(** The manager holds a socket that is not closed, and no timer
    waits. *)
Definition live (w : t) : Prop :=
  ∃ s k, ws (manager w) = Some s ∧ sockets w !! s = Some k
         ∧ readyState k ≠ CLOSED ∧ pending w = [].

(** The manager holds a closed socket, and no timer waits: nothing
    will call [connect] again. *)
Definition stopped (w : t) : Prop :=
  ∃ s k, ws (manager w) = Some s ∧ sockets w !! s = Some k
         ∧ readyState k = CLOSED ∧ pending w = [].




(** A client that has called [disconnect()] on its open channel; then
    the [close] event of the socket arrives and the timer fires. *)
Definition after_disconnect : t :=
  run [CallConnect 1 7; Opened 0; CallDisconnect] init.

Definition disconnect_aftermath : list Event := [Closed 0; Timeout 0].

End Reconnect.

(** ** Vocabulary of the further statements on the router *)

(** The broadcast of the [close] handler. *)
Definition left_update (userId : Z) : Message :=
  {| m_type := "presence_update"; m_userId := Some userId;
     m_contractId := None; m_position := None; m_content := None;
     m_wordCount := None; m_action := Some "left"; m_timestamp := None;
     m_message := None |}.

(** A [cursor_move] message with the given position. *)
Definition is_cursor_move (m : Message) : Prop := m_type m = "cursor_move".

(** The events of one socket sending the given messages, one after the
    other. *)
Definition receives (env : Router.Env) (ws : Router.WebSocket)
    (ms : list Message) : list (Router.Env * Router.Event) :=
  (λ m, (env, Router.Receive ws (Parsed m))) <$> ms.

(** The events of socket [ws] for the frames [ms], in this order, with
    [Resume]s at any place before, between and after them: the handlers
    of the frames start in the order of the frames, and go on after
    their [await] whenever the trace says. *)
Fixpoint schedule_of (ws : Router.WebSocket) (ms : list Message)
    (evs : list (Router.Env * Router.Event)) : Prop :=
  match evs with
  | [] => ms = []
  | (_, Router.Resume) :: evs => schedule_of ws ms evs
  | (_, Router.Receive ws' (Parsed m)) :: evs =>
      match ms with
      | m' :: ms => ws' = ws ∧ m = m' ∧ schedule_of ws ms evs
      | [] => False
      end
  | _ => False
  end.

(** What the others are told of a frame of user [u]: [joined] for a
    [join], a [cursor_update] otherwise. *)
Definition announcement (u : Z) (m : Message) : Message :=
  if String.eqb (m_type m) "join" then joined_update u (m_position m)
  else cursor_update u (m_position m).

(** A [cursor_move], or a [join] of user [u] for document [d]. *)
Definition move_or_join (u d : Z) (m : Message) : Prop :=
  m_type m = "cursor_move"
  ∨ (m_type m = "join" ∧ m_userId m = Some u ∧ m_contractId m = Some d).

(** The rest of a [join] or of a [cursor_move] of socket [ws]. *)
Definition rest_of_move_or_join (ws : Router.WebSocket)
    (rest : Router.Rest) : Prop :=
  ∃ m, rest = Router.AfterJoin ws m ∨ rest = Router.AfterCursorMove ws m.

(** [c] is registered under document [d], is not [ws], and its socket
    is [OPEN]. *)
Definition open_other (ws : Router.WebSocket) (d : Z)
    (c : Router.WebSocket) (s : Router.t) : Prop :=
  c ∈ Router.subscribersOf d s ∧ c ≠ ws ∧ Router.readyState_of s c = OPEN.

Global Instance open_other_dec ws d c s : Decision (open_other ws d c s).
Proof. unfold open_other. apply _. Defined.

(** What the rest of a [join] or of a [cursor_move] announces, for a
    closure that holds user [u]. *)
Definition rest_announcement (u : Z) (rest : Router.Rest) : list Message :=
  match rest with
  | Router.AfterJoin _ m => [joined_update u (m_position m)]
  | Router.AfterCursorMove _ m => [cursor_update u (m_position m)]
  | Router.AfterContentChange _ _ => []
  end.

(** What [c] is still to get from the rests that wait. *)
Definition to_come (ws : Router.WebSocket) (u d : Z)
    (c : Router.WebSocket) (s : Router.t) : list Message :=
  if decide (open_other ws d c s)
  then Router.pending s ≫= rest_announcement u else [].

(** The socket is known to the router and its [close] event has been
    handled. *)
Definition closed_in (s : Router.t) (ws : Router.WebSocket) : Prop :=
  ∃ k, Router.connections s !! ws = Some k
       ∧ Router.readyState k = CLOSED.

(** The closure of a connection holds nothing: no [join] has assigned
    it. *)
Definition unjoined (k : Router.Connection) : Prop :=
  Router.userId k = None ∧ Router.contractId k = None.

(** The socket an event is about. *)
Definition event_socket (ev : Router.Event) : option Router.WebSocket :=
  match ev with
  | Router.Connect ws | Router.Receive ws _ | Router.Closing ws
  | Router.Close ws => Some ws
  | Router.Resume => None
  end.

(** Along the trace, every [join] of socket [ws] has a [userId], and has
    the document [d] as [contractId]. *)
Definition joins_only (ws : Router.WebSocket) (d : Z)
    (evs : list (Router.Env * Router.Event)) : Prop :=
  ∀ env m, (env, Router.Receive ws (Parsed m)) ∈ evs →
           m_type m = "join" →
           truthy (m_userId m) = true ∧ m_contractId m = Some d ∧ d ≠ 0.

(** A socket registered under a document is live and its closure holds
    a user and that document; it is registered nowhere else. *)
Definition registered_with_closure (ws : Router.WebSocket) (d : Z)
    (s : Router.t) : Prop :=
  ∀ d', ws ∈ Router.subscribersOf d' s →
        d' = d
        ∧ ∃ k u, Router.connections s !! ws = Some k
                 ∧ Router.userId k = Some u ∧ u ≠ 0
                 ∧ Router.contractId k = Some d ∧ d ≠ 0
                 ∧ Router.readyState k ≠ CLOSED.


(** ** Vocabulary of the further statements on the channel manager *)

Module Channel.
Import Client.
Local Open Scope nat_scope.

(** The callbacks registered for an event kind. *)
Definition listeners_of (w : t) (event : string) : list nat :=
  default [] (listeners (manager w) !! event).

(** The callback invocations that one inbound frame causes. *)
Definition fan_out (w : t) (data : Inbound) : list (nat * Message) :=
  match data with
  | Parsed message =>
      (λ callback, (callback, message)) <$> listeners_of w (m_type message)
  | Malformed => []
  end.

(** No event kind has a callback twice. *)
Definition listeners_NoDup (w : t) : Prop :=
  ∀ event l, listeners (manager w) !! event = Some l → NoDup l.

(** The event is not a call of [on] or [off]. *)
Definition keeps_listeners (ev : Event) : Prop :=
  match ev with
  | CallOn _ _ | CallOff _ _ => False
  | _ => True
  end.

(** The pairs (userId, contractId) that [connect] has been called with
    along a trace. *)
Definition requested (evs : list Event) : list (Z * Z) :=
  omap (λ ev, match ev with
              | CallConnect u c => Some (u, c)
              | _ => None
              end) evs.

(** The delay is one of the attempts' delays: [base * k] for an attempt
    number [k] between 1 and [max]. *)
Definition scheduled_delay (base max d : nat) : Prop :=
  ∃ k, 1 ≤ k ≤ max ∧ d = base * k.

End Channel.


(** ** The presence view of a page (client/src/hooks/use-presence.ts) *)

Module PresenceView.

(** [PresenceUser] (types/presence.ts).  The [id] is [data.userId] of a
    frame, which may be absent. *)
Record PresenceUser := mkPresenceUser {
  pu_id : option Z;
  pu_fullName : string;
  pu_avatar : option string;
  pu_position : option Position;
  pu_isActive : bool;
  pu_lastSeen : Date
}.

(** [CursorPosition] (types/presence.ts), with the [user] object
    flattened. *)
Record CursorPosition := mkCursorPosition {
  cp_userId : option Z;
  cp_position : option Position;
  cp_fullName : string;
  cp_avatar : option string
}.

(** The two pieces of state of [usePresence]. *)
Record t := mk {
  activeUsers : list PresenceUser;
  cursors : list CursorPosition
}.

Definition init : t := mk [] [].

(** The callback registered for ['presence_update'].  The envelope has
    no [user] object, so [data.user?.fullName || 'Unknown User'] is
    ['Unknown User'] and [data.user?.avatar] is [undefined]; [now] is
    [new Date()]. *)
Definition on_presence_update (now : Date) (data : Message) (st : t) : t :=
  if decide (m_action data = Some "joined") then
    let filtered :=
      filter (λ user, pu_id user ≠ m_userId data) (activeUsers st) in
    mk (filtered ++ [mkPresenceUser (m_userId data) "Unknown User" None
                                    (m_position data) true now])
       (cursors st)
  else if decide (m_action data = Some "left") then
    mk (filter (λ user, pu_id user ≠ m_userId data) (activeUsers st))
       (filter (λ cursor, cp_userId cursor ≠ m_userId data) (cursors st))
  else st.

(** The callback registered for ['cursor_update']. *)
Definition on_cursor_update (data : Message) (st : t) : t :=
  let filtered :=
    filter (λ cursor, cp_userId cursor ≠ m_userId data) (cursors st) in
  mk (activeUsers st)
     (filtered ++ [mkCursorPosition (m_userId data) (m_position data)
                                    "Unknown User" None]).

(** What a frame does to the view: [emit] calls the callback of the
    frame's kind. *)
Definition on_frame (now : Date) (data : Message) (st : t) : t :=
  if String.eqb (m_type data) "presence_update"
  then on_presence_update now data st
  else if String.eqb (m_type data) "cursor_update"
       then on_cursor_update data st
       else st.

(** Frames in the order of arrival, each with the time it arrives
    at. *)
Fixpoint on_frames (frames : list (Date * Message)) (st : t) : t :=
  match frames with
  | [] => st
  | (now, data) :: frames => on_frames frames (on_frame now data st)
  end.

(** No user appears twice among the active users, nor among the
    cursors. *)
Definition distinct (st : t) : Prop :=
  NoDup (pu_id <$> activeUsers st) ∧ NoDup (cp_userId <$> cursors st).

(** The user is in neither list. *)
Definition absent (u : option Z) (st : t) : Prop :=
  (u ∉ pu_id <$> activeUsers st) ∧ (u ∉ cp_userId <$> cursors st).

End PresenceView.


(** ** The other tables of MemStorage (server/storage.ts)

    A [Map<number, V>] of the class, with its iteration order: the list
    of its entries, oldest insertion first.  [Map.set] on a key that is
    there replaces the value in place; on a new key it appends. *)

Abbreviation JsMap V := (list (Z * V)).

Fixpoint jm_get {V} (k : Z) (m : JsMap V) : option V :=
  match m with
  | [] => None
  | (k', v) :: m => if decide (k' = k) then Some v else jm_get k m
  end.

Fixpoint jm_set {V} (k : Z) (v : V) (m : JsMap V) : JsMap V :=
  match m with
  | [] => [(k, v)]
  | (k', v') :: m =>
      if decide (k' = k) then (k, v) :: m else (k', v') :: jm_set k v m
  end.

(** [Map.delete(k)]: the map without the key, and whether it was
    there. *)
Definition jm_delete {V} (k : Z) (m : JsMap V) : JsMap V * bool :=
  (filter (λ p, p.1 ≠ k) m, bool_decide (is_Some (jm_get k m))).

(** [Array.from(map.values())] *)
Definition jm_values {V} (m : JsMap V) : list V := m.*2.

(** A [jsonb] value; the store never looks inside. *)
Definition Json := string.

(** [typeof users.$inferSelect]; [role] has a column default and
    [avatar] is nullable, so an object made from an insert may lack
    them. *)
Record User := mkUser {
  us_id : Z;
  us_username : string;
  us_email : string;
  us_password : string;
  us_fullName : string;
  us_role : option string;
  us_avatar : option string;
  us_createdAt : Date
}.

(** [InsertUser] *)
Record InsertUser := mkInsertUser {
  nu_username : string;
  nu_email : string;
  nu_password : string;
  nu_fullName : string;
  nu_role : option string;
  nu_avatar : option string
}.

(** [Partial<User>]: [None] when the key is not in the object. *)
Record PartialUser := mkPartialUser {
  uu_id : option Z;
  uu_username : option string;
  uu_email : option string;
  uu_password : option string;
  uu_fullName : option string;
  uu_role : option (option string);
  uu_avatar : option (option string);
  uu_createdAt : option Date
}.

(** [typeof projects.$inferSelect] *)
Record Project := mkProject {
  pj_id : Z;
  pj_name : string;
  pj_description : option string;
  pj_ownerId : Z;
  pj_createdAt : Date;
  pj_updatedAt : Date
}.

(** [InsertProject] *)
Record InsertProject := mkInsertProject {
  np_name : string;
  np_description : option string;
  np_ownerId : Z
}.

(** [Partial<Project>] *)
Record PartialProject := mkPartialProject {
  up_id : option Z;
  up_name : option string;
  up_description : option (option string);
  up_ownerId : option Z;
  up_createdAt : option Date;
  up_updatedAt : option Date
}.

(** [typeof contractVersions.$inferSelect] *)
Record ContractVersion := mkContractVersion {
  cv_id : Z;
  cv_contractId : Z;
  cv_version : string;
  cv_content : string;
  cv_changes : option Json;
  cv_createdById : Z;
  cv_createdAt : Date
}.

(** [InsertContractVersion] *)
Record InsertContractVersion := mkInsertContractVersion {
  nv_contractId : Z;
  nv_version : string;
  nv_content : string;
  nv_changes : option Json;
  nv_createdById : Z
}.

From Stdlib Require Import Sorted.

Module Tables.

(** The fields of the class for users, projects and contract versions.
    (The contracts and the presence records are in [MemStorage.t].) *)
Record t := mk {
  users : JsMap User;
  projects : JsMap Project;
  contractVersions : JsMap ContractVersion;
  userIdCounter : Z;
  projectIdCounter : Z;
  versionIdCounter : Z
}.

(** *** Users *)

Definition getUser (id : Z) (st : t) : option User := jm_get id (users st).

(** [Array.prototype.find]: the first element that passes. *)
Definition find {A} (P : A → bool) (l : list A) : option A :=
  head (filter (λ x, P x = true) l).

Definition getUserByUsername (username : string) (st : t) : option User :=
  find (λ user, bool_decide (us_username user = username))
       (jm_values (users st)).

Definition getUserByEmail (email : string) (st : t) : option User :=
  find (λ user, bool_decide (us_email user = email))
       (jm_values (users st)).

(** [createUser(insertUser)] *)
Definition createUser (insertUser : InsertUser) (now : Date) (st : t)
  : t * User :=
  let user :=
    {| us_id := userIdCounter st;
       us_username := nu_username insertUser;
       us_email := nu_email insertUser;
       us_password := nu_password insertUser;
       us_fullName := nu_fullName insertUser;
       us_role := nu_role insertUser;
       us_avatar := nu_avatar insertUser;
       us_createdAt := now |} in
  (mk (jm_set (us_id user) user (users st)) (projects st)
      (contractVersions st) (userIdCounter st + 1) (projectIdCounter st)
      (versionIdCounter st),
   user).

(** [{ ...user, ...updates }] *)
Definition spread_user (user : User) (updates : PartialUser) : User :=
  {| us_id := default (us_id user) (uu_id updates);
     us_username := default (us_username user) (uu_username updates);
     us_email := default (us_email user) (uu_email updates);
     us_password := default (us_password user) (uu_password updates);
     us_fullName := default (us_fullName user) (uu_fullName updates);
     us_role := default (us_role user) (uu_role updates);
     us_avatar := default (us_avatar user) (uu_avatar updates);
     us_createdAt := default (us_createdAt user) (uu_createdAt updates) |}.

(** [updateUser(id, updates)] *)
Definition updateUser (id : Z) (updates : PartialUser) (st : t)
  : t * option User :=
  match jm_get id (users st) with
  | None => (st, None)
  | Some user =>
      let updatedUser := spread_user user updates in
      (mk (jm_set id updatedUser (users st)) (projects st)
          (contractVersions st) (userIdCounter st) (projectIdCounter st)
          (versionIdCounter st),
       Some updatedUser)
  end.

(** *** Projects *)

Definition getProject (id : Z) (st : t) : option Project :=
  jm_get id (projects st).

Definition getProjectsByUser (userId : Z) (st : t) : list Project :=
  filter (λ project, pj_ownerId project = userId) (jm_values (projects st)).

(** [createProject(insertProject)]; [now] and [now'] are its two
    [new Date()]. *)
Definition createProject (insertProject : InsertProject)
    (now now' : Date) (st : t) : t * Project :=
  let project :=
    {| pj_id := projectIdCounter st;
       pj_name := np_name insertProject;
       pj_description := np_description insertProject;
       pj_ownerId := np_ownerId insertProject;
       pj_createdAt := now;
       pj_updatedAt := now' |} in
  (mk (users st) (jm_set (pj_id project) project (projects st))
      (contractVersions st) (userIdCounter st) (projectIdCounter st + 1)
      (versionIdCounter st),
   project).

(** [{ ...project, ...updates, updatedAt: new Date() }] *)
Definition spread_project (project : Project) (updates : PartialProject)
    (now : Date) : Project :=
  {| pj_id := default (pj_id project) (up_id updates);
     pj_name := default (pj_name project) (up_name updates);
     pj_description :=
       default (pj_description project) (up_description updates);
     pj_ownerId := default (pj_ownerId project) (up_ownerId updates);
     pj_createdAt := default (pj_createdAt project) (up_createdAt updates);
     pj_updatedAt := now |}.

(** [updateProject(id, updates)] *)
Definition updateProject (id : Z) (updates : PartialProject) (now : Date)
    (st : t) : t * option Project :=
  match jm_get id (projects st) with
  | None => (st, None)
  | Some project =>
      let updatedProject := spread_project project updates now in
      (mk (users st) (jm_set id updatedProject (projects st))
          (contractVersions st) (userIdCounter st) (projectIdCounter st)
          (versionIdCounter st),
       Some updatedProject)
  end.

(** [deleteProject(id)] *)
Definition deleteProject (id : Z) (st : t) : t * bool :=
  let r := jm_delete id (projects st) in
  (mk (users st) r.1 (contractVersions st) (userIdCounter st)
      (projectIdCounter st) (versionIdCounter st),
   r.2).

(** *** Contract versions *)

Definition getContractVersion (id : Z) (st : t) : option ContractVersion :=
  jm_get id (contractVersions st).

(** One step of a stable sort with the comparator
    [(a, b) => b.createdAt.getTime() - a.createdAt.getTime()]: [x] goes
    behind the versions that are strictly newer, and before the
    others. *)
Fixpoint insert_newest_first (x : ContractVersion)
    (l : list ContractVersion) : list ContractVersion :=
  match l with
  | [] => [x]
  | y :: l' =>
      if decide (cv_createdAt x < cv_createdAt y)
      then y :: insert_newest_first x l'
      else x :: y :: l'
  end.

(** [Array.prototype.sort] with that comparator: the sort is stable. *)
Definition sort_newest_first (l : list ContractVersion)
  : list ContractVersion :=
  foldr insert_newest_first [] l.

Definition getContractVersionsByContract (contractId : Z) (st : t)
  : list ContractVersion :=
  sort_newest_first
    (filter (λ version, cv_contractId version = contractId)
            (jm_values (contractVersions st))).

(** [createContractVersion(insertVersion)] *)
Definition createContractVersion (insertVersion : InsertContractVersion)
    (now : Date) (st : t) : t * ContractVersion :=
  let version :=
    {| cv_id := versionIdCounter st;
       cv_contractId := nv_contractId insertVersion;
       cv_version := nv_version insertVersion;
       cv_content := nv_content insertVersion;
       cv_changes := nv_changes insertVersion;
       cv_createdById := nv_createdById insertVersion;
       cv_createdAt := now |} in
  (mk (users st) (projects st)
      (jm_set (cv_id version) version (contractVersions st))
      (userIdCounter st) (projectIdCounter st) (versionIdCounter st + 1),
   version).

(** [initializeSampleData()], as far as these tables go: one user and
    one project of that user.  The three dates are its [new Date()]
    for them. *)
Definition sampleUser (now : Date) : User :=
  {| us_id := 1;
     us_username := "john.smith";
     us_email := "john.smith@example.com";
     us_password := "hashed_password";
     us_fullName := "John Smith";
     us_role := Some "legal_counsel";
     us_avatar := Some "https://images.unsplash.com/photo-1507003211169-0a1dd7228f2d?ixlib=rb-4.0.3&ixid=MnwxMjA3fDB8MHxwaG90by1wYWdlfHx8fGVufDB8fHx8&auto=format&fit=crop&w=150&h=150";
     us_createdAt := now |}.

Definition sampleProject (now now' : Date) : Project :=
  {| pj_id := 1;
     pj_name := "TechCorp Service Agreement";
     pj_description := Some "Service agreement contract for TechCorp Inc.";
     pj_ownerId := 1;
     pj_createdAt := now;
     pj_updatedAt := now' |}.

Definition initializeSampleData (t0 t1 t2 : Date) : t :=
  mk [(1, sampleUser t0)] [(1, sampleProject t1 t2)] [] 2 2 1.

(** Every key of a table is below the table's counter. *)
Definition below {V} (counter : Z) (m : JsMap V) : Prop :=
  Forall (λ p, p.1 < counter) m.

Definition ids_below_counters (st : t) : Prop :=
  below (userIdCounter st) (users st)
  ∧ below (projectIdCounter st) (projects st)
  ∧ below (versionIdCounter st) (contractVersions st).

(** The calls on the store that write, each with the dates it reads off
    the clock. *)
Inductive Call :=
| CreateUser (insertUser : InsertUser) (now : Date)
| UpdateUser (id : Z) (updates : PartialUser)
| CreateProject (insertProject : InsertProject) (now now' : Date)
| UpdateProject (id : Z) (updates : PartialProject) (now : Date)
| DeleteProject (id : Z)
| CreateContractVersion (insertVersion : InsertContractVersion) (now : Date).

Definition call (c : Call) (st : t) : t :=
  match c with
  | CreateUser insertUser now => (createUser insertUser now st).1
  | UpdateUser id updates => (updateUser id updates st).1
  | CreateProject insertProject now now' =>
      (createProject insertProject now now' st).1
  | UpdateProject id updates now => (updateProject id updates now st).1
  | DeleteProject id => (deleteProject id st).1
  | CreateContractVersion insertVersion now =>
      (createContractVersion insertVersion now st).1
  end.

Fixpoint calls (cs : list Call) (st : t) : t :=
  match cs with
  | [] => st
  | c :: cs => calls cs (call c st)
  end.

(** [a] was not made before [b]. *)
Definition not_older (a b : ContractVersion) : Prop :=
  cv_createdAt b ≤ cv_createdAt a.

(** The versions of a document are all strictly older than [now]. *)
Definition older_than (now : Date) (contractId : Z) (st : t) : Prop :=
  Forall (λ version, cv_contractId version = contractId →
                     cv_createdAt version < now)
         (jm_values (contractVersions st)).

End Tables.


(** * Properties *)

(** ** Truthiness *)

Lemma truthy_Some n : n ≠ 0 → truthy (Some n) = true.
Proof. intros Hn. simpl. apply negb_true_iff, Z.eqb_neq, Hn. Qed.

Lemma truthy_inv x : truthy x = true → ∃ n, x = Some n ∧ n ≠ 0.
Proof.
  destruct x as [n|]; simpl; [|discriminate].
  intros H%negb_true_iff%Z.eqb_neq. eauto.
Qed.

Lemma or_default_Some n : or_default (Some n) 0 = n.
Proof.
  unfold or_default. simpl. destruct (Z.eqb_spec n 0) as [->|]; reflexivity.
Qed.

(** ** Decimal rendering and the presence key *)

Lemma append_cons a (s t : string) : String a s +:+ t = String a (s +:+ t).
Proof. reflexivity. Qed.

Lemma append_nil_l (t : string) : "" +:+ t = t.
Proof. reflexivity. Qed.

Lemma append_nil_r (s : string) : s +:+ "" = s.
Proof. induction s as [|x s IH]; [done|]. by rewrite append_cons, IH. Qed.

Lemma append_assoc (a b c : string) : (a +:+ b) +:+ c = a +:+ (b +:+ c).
Proof.
  induction a as [|x a IH]; [done|]. by rewrite !append_cons, IH.
Qed.

Lemma dashfree_app s1 s2 : dashfree s1 → dashfree s2 → dashfree (s1 +:+ s2).
Proof.
  induction s1 as [|a s1 IH]; [done|].
  rewrite append_cons. simpl. intros [??] ?. auto.
Qed.

Lemma pretty_N_char_no_dash x : pretty_N_char x ≠ "-"%char.
Proof. unfold pretty_N_char. by repeat case_match. Qed.

Lemma pretty_N_go_shape x s :
  ∃ ds, pretty_N_go x s = ds +:+ s ∧ dashfree ds ∧ ((0 < x)%N → ds ≠ "").
Proof.
  revert s. induction (N.lt_wf_0 x) as [x _ IH]; intros s.
  assert (x = 0 ∨ 0 < x)%N as [->|Hx] by lia.
  - exists "". rewrite pretty_N_go_0. split_and!; [done|done|lia].
  - rewrite pretty_N_go_step by done.
    destruct (IH (x `div` 10)%N (N.div_lt x 10 Hx eq_refl)
                 (String (pretty_N_char (x `mod` 10)) s)) as (ds & -> & Hds & _).
    exists (ds +:+ String (pretty_N_char (x `mod` 10)) "").
    rewrite append_assoc, append_cons, append_nil_l. split_and!; [done|..].
    + apply dashfree_app; [done|]. simpl. split; [apply pretty_N_char_no_dash|done].
    + intros _. destruct ds; discriminate.
Qed.

Lemma pretty_N_shape (x : N) : dashfree (pretty x) ∧ pretty x ≠ "".
Proof.
  unfold pretty, pretty_N. case_decide as Hx.
  - split; [|discriminate]. simpl. split; [discriminate|done].
  - destruct (pretty_N_go_shape x "") as (ds & -> & Hds & Hne).
    rewrite append_nil_r.
    split; [done|]. apply Hne. lia.
Qed.

Lemma pretty_Z_shape (z : Z) :
  ∃ ds, dashfree ds ∧ ds ≠ "" ∧ (pretty z = ds ∨ pretty z = "-" +:+ ds).
Proof.
  destruct z as [|p|p]; unfold pretty, pretty_Z.
  - exists "0". simpl. split_and!; [discriminate|done|discriminate|by left].
  - exists (pretty p). destruct (pretty_N_shape (N.pos p)). eauto.
  - exists (pretty p). destruct (pretty_N_shape (N.pos p)). eauto.
Qed.

Lemma dashfree_split ds ds' X X' :
  dashfree ds → dashfree ds' →
  ds +:+ "-" +:+ X = ds' +:+ "-" +:+ X' → ds = ds' ∧ X = X'.
Proof.
  revert ds'. induction ds as [|a ds IH]; intros [|a' ds'];
    rewrite ?append_cons, ?append_nil_l; simpl.
  - intros _ _ [= ->]. done.
  - intros _ [Ha' _] [= <- _]. done.
  - intros [Ha _] _ [= -> _]. done.
  - intros [_ Hds] [_ Hds'] [= -> Heq].
    destruct (IH _ Hds Hds' Heq) as [-> ->]. done.
Qed.

(** ** The presence map of [MemStorage] *)

Module MemStorageFacts.
Import MemStorage.

(** Two pairs of integers never share a key. *)
Lemma presence_key_inj u c u' c' :
  presence_key u c = presence_key u' c' → u = u' ∧ c = c'.
Proof.
  unfold presence_key. intros Heq.
  destruct (pretty_Z_shape u) as (ds & Hds & Hne & Hu).
  destruct (pretty_Z_shape u') as (ds' & Hds' & Hne' & Hu').
  assert (pretty u = pretty u' ∧ pretty c = pretty c') as [Hp Hq].
  { destruct Hu as [Hu|Hu], Hu' as [Hu'|Hu']; rewrite Hu, Hu' in Heq |- *.
    - destruct (dashfree_split _ _ _ _ Hds Hds' Heq) as [-> ?]. done.
    - destruct ds as [|a ds]; [done|]. rewrite !append_cons in Heq. simpl in Hds.
      destruct Hds as [Ha _]. injection Heq as -> _. done.
    - destruct ds' as [|a ds']; [done|]. rewrite !append_cons in Heq. simpl in Hds'.
      destruct Hds' as [Ha _]. injection Heq as <- _. done.
    - rewrite !append_cons, !append_nil_l in Heq. injection Heq as Heq.
      destruct (dashfree_split _ _ _ _ Hds Hds' Heq) as [-> ?]. done. }
  split; by apply (inj pretty).
Qed.

Lemma keyed_empty : keyed empty.
Proof. apply map_Forall_empty. Qed.

Lemma keyed_upsertPresence ip uuid now st :
  keyed st → keyed (upsertPresence ip uuid now st).1.
Proof.
  intros Hk. unfold keyed, upsertPresence; simpl.
  apply map_Forall_insert_2; [reflexivity | exact Hk].
Qed.

Lemma keyed_removePresence u c st :
  keyed st → keyed (removePresence u c st).1.
Proof.
  intros Hk. unfold removePresence.
  destruct (presenceData st !! presence_key u c) as [p|] eqn:Hp;
    simpl; [|exact Hk].
  apply map_Forall_insert_2; [|exact Hk].
  simpl. exact (Hk _ _ Hp).
Qed.

Lemma keyed_updateContract id u now st :
  keyed st → keyed (updateContract id u now st).1.
Proof.
  intros Hk. unfold updateContract.
  destruct (contracts st !! id); exact Hk.
Qed.

(** What [getPresenceByContract] lists. *)
Lemma elem_of_getPresenceByContract c st p :
  p ∈ getPresenceByContract c st ↔
  (∃ key, presenceData st !! key = Some p)
  ∧ p_contractId p = c ∧ is_active p = true.
Proof.
  unfold getPresenceByContract.
  rewrite list_elem_of_filter, list_elem_of_fmap. split.
  - intros [[Hc Ha] [[key q] [-> Hin]]].
    apply elem_of_map_to_list in Hin. eauto.
  - intros [[key Hkey] [Hc Ha]]. split; [done|].
    exists (key, p). split; [done|]. by apply elem_of_map_to_list.
Qed.

(** In a keyed store a record about [(u, c)] can only sit under
    [presence_key u c]. *)
Lemma keyed_lookup_about st key p u c :
  keyed st → presenceData st !! key = Some p → about u c p →
  key = presence_key u c.
Proof. intros Hk Hp [<- <-]. exact (Hk _ _ Hp). Qed.

Lemma filter_none {A} (P : A → Prop) `{∀ x, Decision (P x)} (l : list A) :
  (∀ x, x ∈ l → ¬ P x) → filter P l = [].
Proof.
  induction l as [|x l IH]; intros Hl; [done|].
  rewrite filter_cons_False by (apply Hl; left).
  apply IH. intros y Hy. apply Hl. by right.
Qed.

(** The values of a map after a write, up to order. *)
Lemma values_insert (m : gmap string PresenceData) key p :
  (map_to_list (<[key := p]> m)).*2 ≡ₚ p :: (map_to_list (delete key m)).*2.
Proof.
  rewrite <- insert_delete_eq.
  rewrite map_to_list_insert by apply lookup_delete_eq. done.
Qed.

(** After a write of [p] under the key of [(u, c)], the records about
    [(u, c)] that [getPresenceByContract c] lists are [p] alone if [p]
    is active and about [(u, c)], and none if [p] is inactive. *)
Lemma listed_after_write st u c p :
  keyed st → about u c p →
  filter (about u c)
    (getPresenceByContract c
       (mk (contracts st) (<[presence_key u c := p]> (presenceData st))))
  = if is_active p then [p] else [].
Proof.
  intros Hk Hp. unfold getPresenceByContract; simpl.
  assert (filter (about u c)
            (filter (λ q, p_contractId q = c ∧ is_active q = true)
               ((map_to_list (delete (presence_key u c)
                                     (presenceData st))).*2)) = [])
    as Hrest.
  { apply filter_none. intros q Hq Hab.
    apply list_elem_of_filter in Hq as [_ Hq].
    apply list_elem_of_fmap in Hq as [[key q'] [-> Hq]].
    apply elem_of_map_to_list in Hq. simpl in *.
    destruct (decide (key = presence_key u c)) as [->|Hne].
    - rewrite lookup_delete_eq in Hq. discriminate.
    - rewrite lookup_delete_ne in Hq by done.
      apply Hne. eapply keyed_lookup_about; eauto. }
  destruct (is_active p) eqn:Ha.
  - apply Permutation_singleton_r.
    rewrite values_insert.
    rewrite filter_cons_True by (split; [apply Hp | done]).
    rewrite filter_cons_True by done.
    by rewrite Hrest.
  - apply Permutation_nil_r.
    rewrite values_insert.
    rewrite filter_cons_False by (intros [_ ?]; congruence).
    by rewrite Hrest.
Qed.

(** An active upsert leaves exactly its own record listed for the pair. *)
Lemma upsertPresence_listed st u c pos uuid now :
  keyed st →
  let r := upsertPresence (mkInsertPresenceData u c pos (Some true))
                          uuid now st in
  filter (about u c) (getPresenceByContract c r.1) = [r.2].
Proof.
  intros Hk. simpl.
  rewrite listed_after_write by done. reflexivity.
Qed.

(** C8: two upserts with the same (userId, documentId, position), made
    active as the router makes them, leave [getPresenceByContract]
    (listActive) with exactly one record for the pair; after each upsert
    the listed record carries the time of that upsert as [lastSeen], and
    the second keeps the position and the identifier of the first. *)
Theorem upsert_twice_one_record st u c pos uuid1 now1 uuid2 now2 :
  keyed st →
  let ip := mkInsertPresenceData u c pos (Some true) in
  let r1 := upsertPresence ip uuid1 now1 st in
  let r2 := upsertPresence ip uuid2 now2 r1.1 in
  filter (about u c) (getPresenceByContract c r1.1) = [r1.2]
  ∧ p_lastSeen r1.2 = now1
  ∧ filter (about u c) (getPresenceByContract c r2.1) = [r2.2]
  ∧ length (filter (about u c) (getPresenceByContract c r2.1)) = 1%nat
  ∧ p_lastSeen r2.2 = now2
  ∧ p_position r2.2 = pos
  ∧ p_isActive r2.2 = Some true
  ∧ (truthy_string (p_id r1.2) = true → p_id r2.2 = p_id r1.2).
Proof.
  intros Hk ip r1 r2.
  assert (keyed r1.1) as Hk1 by by apply keyed_upsertPresence.
  pose proof (upsertPresence_listed st u c pos uuid1 now1 Hk) as H1.
  pose proof (upsertPresence_listed r1.1 u c pos uuid2 now2 Hk1) as H2.
  split_and!; try done.
  - change (length (filter (about u c) (getPresenceByContract c r2.1))
            = 1%nat).
    change (filter (about u c) (getPresenceByContract c r2.1) = [r2.2])
      in H2.
    by rewrite H2.
  - intros Hid. subst r2 r1 ip. unfold upsertPresence at 1. simpl.
    rewrite lookup_insert_eq. simpl in *. by rewrite Hid.
Qed.

Lemma upsert_twice_one_record_witness :
  let ip := mkInsertPresenceData 1 7 (Some (mkPosition 2 5)) (Some true) in
  let r2 := upsertPresence ip "b" 20 (upsertPresence ip "a" 10 empty).1 in
  filter (about 1 7) (getPresenceByContract 7 r2.1) = [r2.2]
  ∧ p_lastSeen r2.2 = 20.
Proof.
  pose proof (upsert_twice_one_record empty 1 7 (Some (mkPosition 2 5))
                "a" 10 "b" 20 keyed_empty) as H.
  simpl in H. destruct H as (_ & _ & H3 & _ & H5 & _).
  split; [exact H3 | exact H5].
Defined.

(** C9: [removePresence] (markInactive).  In a keyed store: without a
    record for the pair it returns [false] and the store is the same;
    with a record it returns [true], the record stays under its key with
    every field but the liveness flag as before, the flag is [false],
    nothing else in the store changes, and no list of active records
    shows a record of the pair. *)
Theorem removePresence_soft_delete st u c :
  keyed st →
  (¬ has_record u c st → removePresence u c st = (st, false))
  ∧ (∀ key p,
       presenceData st !! key = Some p → about u c p →
       let st' := (removePresence u c st).1 in
       (removePresence u c st).2 = true
       ∧ (∃ q, presenceData st' !! key = Some q
               ∧ p_id q = p_id p
               ∧ p_userId q = p_userId p
               ∧ p_contractId q = p_contractId p
               ∧ p_position q = p_position p
               ∧ p_lastSeen q = p_lastSeen p
               ∧ p_isActive q = Some false)
       ∧ (∀ key', key' ≠ key →
                  presenceData st' !! key' = presenceData st !! key')
       ∧ contracts st' = contracts st
       ∧ (∀ c' q, q ∈ getPresenceByContract c' st' → ¬ about u c q)).
Proof.
  intros Hk. split.
  - intros Hno. unfold removePresence.
    destruct (presenceData st !! presence_key u c) as [p|] eqn:Hp; [|done].
    exfalso. apply Hno. exists (presence_key u c), p. split; [done|].
    pose proof (Hk _ _ Hp) as Hkey. simpl in Hkey.
    apply presence_key_inj in Hkey as [-> ->]. done.
  - intros key p Hp Hab.
    pose proof (keyed_lookup_about _ _ _ _ _ Hk Hp Hab) as ->.
    pose proof (keyed_removePresence u c st Hk) as Hk'.
    unfold removePresence in *. rewrite Hp in *. simpl in *.
    split_and!; [done| |by intros; rewrite lookup_insert_ne|done|].
    + exists (deactivate p). rewrite lookup_insert_eq. done.
    + intros c' q Hq Habq.
      apply elem_of_getPresenceByContract in Hq as [[key' Hq] [_ Hact]].
      pose proof (keyed_lookup_about _ _ _ _ _ Hk' Hq Habq) as ->.
      simpl in Hq. rewrite lookup_insert_eq in Hq.
      injection Hq as <-. discriminate.
Qed.

Lemma removePresence_soft_delete_witness :
  let st := (upsertPresence
               (mkInsertPresenceData 1 7 (Some (mkPosition 2 5)) (Some true))
               "a" 10 empty).1 in
  (removePresence 1 7 st).2 = true
  ∧ ∀ c' q, q ∈ getPresenceByContract c' (removePresence 1 7 st).1 →
            ¬ about 1 7 q.
Proof.
  intros st.
  assert (keyed st) as Hk by exact (keyed_upsertPresence _ _ _ _ keyed_empty).
  destruct (removePresence_soft_delete st 1 7 Hk) as [_ H].
  destruct (H (presence_key 1 7)
              (upsertPresence
                 (mkInsertPresenceData 1 7 (Some (mkPosition 2 5))
                    (Some true)) "a" 10 empty).2)
    as (H1 & _ & _ & _ & H5).
  - subst st. simpl. apply lookup_insert_eq.
  - split; reflexivity.
  - split; [exact H1 | exact H5].
Defined.

End MemStorageFacts.

(** ** The router *)

Module RouterFacts.
Import Router.

(** *** State projections through the setters *)

Lemma clients_broadcastToContract d out ex s :
  clients (broadcastToContract d out ex s) = clients s.
Proof. unfold broadcastToContract. by destruct (clients s !! d). Qed.

Lemma connections_broadcastToContract d out ex s :
  connections (broadcastToContract d out ex s) = connections s.
Proof. unfold broadcastToContract. by destruct (clients s !! d). Qed.

Lemma storage_broadcastToContract d out ex s :
  storage (broadcastToContract d out ex s) = storage s.
Proof. unfold broadcastToContract. by destruct (clients s !! d). Qed.

Lemma pending_broadcastToContract d out ex s :
  pending (broadcastToContract d out ex s) = pending s.
Proof. unfold broadcastToContract. by destruct (clients s !! d). Qed.

Lemma subscribersOf_broadcastToContract d' d out ex s :
  subscribersOf d' (broadcastToContract d out ex s) = subscribersOf d' s.
Proof. unfold subscribersOf. by rewrite clients_broadcastToContract. Qed.

Lemma readyState_of_broadcastToContract d out ex s c :
  readyState_of (broadcastToContract d out ex s) c = readyState_of s c.
Proof. unfold readyState_of. by rewrite connections_broadcastToContract. Qed.

Lemma clients_broadcastToClosure k out ex s :
  clients (broadcastToClosure k out ex s) = clients s.
Proof.
  unfold broadcastToClosure. destruct (contractId k); [|done].
  apply clients_broadcastToContract.
Qed.

Lemma connections_broadcastToClosure k out ex s :
  connections (broadcastToClosure k out ex s) = connections s.
Proof.
  unfold broadcastToClosure. destruct (contractId k); [|done].
  apply connections_broadcastToContract.
Qed.

Lemma storage_broadcastToClosure k out ex s :
  storage (broadcastToClosure k out ex s) = storage s.
Proof.
  unfold broadcastToClosure. destruct (contractId k); [|done].
  apply storage_broadcastToContract.
Qed.

Lemma pending_broadcastToClosure k out ex s :
  pending (broadcastToClosure k out ex s) = pending s.
Proof.
  unfold broadcastToClosure. destruct (contractId k); [|done].
  apply pending_broadcastToContract.
Qed.

Lemma readyState_of_set_closure ws u c s c' :
  readyState_of (set_closure ws u c s) c' = readyState_of s c'.
Proof.
  unfold readyState_of, set_closure; simpl.
  rewrite lookup_alter. case_decide as Hc; [subst|done].
  by destruct (connections s !! c').
Qed.

Lemma readyState_of_set_readyState ws r s c :
  readyState_of (set_readyState ws r s) c =
  if decide (ws = c) then
    match connections s !! c with Some _ => r | None => CLOSED end
  else readyState_of s c.
Proof.
  unfold readyState_of, set_readyState; simpl.
  rewrite lookup_alter. case_decide as Hc; [subst|done].
  by destruct (connections s !! c).
Qed.

(** *** Who receives a broadcast *)

Lemma received_app_wire c s l :
  received c (mk (clients s) (connections s) (storage s) (wire s ++ l)
                 (pending s))
  = received c s ++ (filter (λ p, p.1 = c) l).*2.
Proof. unfold received; simpl. by rewrite filter_app, fmap_app. Qed.

Lemma tagged_for (c : WebSocket) (out : Message) (l : list WebSocket) :
  NoDup l →
  (filter (λ p : WebSocket * Message, p.1 = c)
          ((λ client, (client, out)) <$> l)).*2
  = if decide (c ∈ l) then [out] else [].
Proof.
  induction 1 as [|x l Hx Hl IH]; [done|].
  rewrite fmap_cons. destruct (decide (x = c)) as [->|Hne].
  - rewrite filter_cons_True by done. rewrite fmap_cons; simpl.
    rewrite IH. rewrite (decide_False (P := c ∈ l)) by done.
    rewrite decide_True by left. done.
  - rewrite filter_cons_False by done. rewrite IH.
    destruct (decide (c ∈ l)) as [Hin|Hnin].
    + rewrite decide_True by by right. done.
    + rewrite decide_False; [done|].
      intros [?|?]%elem_of_cons; congruence.
Qed.

Lemma received_broadcastToContract d out ex s c :
  received c (broadcastToContract d out ex s)
  = received c s ++
    if decide (c ∈ subscribersOf d s ∧ Some c ≠ ex
               ∧ readyState_of s c = OPEN)
    then [out] else [].
Proof.
  unfold broadcastToContract, subscribersOf.
  destruct (clients s !! d) as [S|] eqn:HS; simpl.
  - rewrite received_app_wire. f_equal.
    rewrite tagged_for by apply NoDup_filter, NoDup_elements.
    apply decide_ext.
    rewrite list_elem_of_filter, elem_of_elements. tauto.
  - rewrite decide_False; [by rewrite app_nil_r|].
    intros [Hin _]. by apply not_elem_of_empty in Hin.
Qed.

(** A broadcast that excludes its sender is delivered to the open
    subscribers other than the sender, and to nobody else. *)
Lemma broadcast_delivery d out ws s0 s :
  wire s = wire s0 →
  delivered_to_open_others s0 (broadcastToContract d out (Some ws) s)
                           ws d out.
Proof.
  intros Hw c.
  rewrite received_broadcastToContract.
  rewrite subscribersOf_broadcastToContract,
          readyState_of_broadcastToContract.
  replace (received c s) with (received c s0)
    by (unfold received; by rewrite Hw).
  f_equal.
  apply decide_ext. split.
  - intros (? & Hne & ?). split_and!; [done| |done]. congruence.
  - intros (? & Hne & ?). split_and!; [done| |done]. congruence.
Qed.

(** *** The handlers, case by case *)

Lemma join_rejected env ws message s :
  truthy (m_userId message) && truthy (m_contractId message) = false →
  join env ws message s
  = set_closure ws (m_userId message) (m_contractId message) s.
Proof.
  unfold join. intros Hg.
  destruct (m_userId message) as [u|], (m_contractId message) as [d|];
    try done.
  rewrite <- negb_andb, Hg. done.
Qed.

Lemma join_accepted env ws message s u d :
  m_userId message = Some u → m_contractId message = Some d →
  u ≠ 0 → d ≠ 0 →
  join env ws message s
  = let s1 := set_closure ws (Some u) (Some d) s in
    let s2 := set_clients
                (<[d := {[ws]} ∪ subscribersOf d s1]> (clients s1)) s1 in
    let s3 := set_storage
                (MemStorage.upsertPresence
                   (mkInsertPresenceData u d (m_position message)
                                         (Some true))
                   (randomUUID env) (now env) (storage s2)).1 s2 in
    await (AfterJoin ws message) s3.
Proof.
  intros Hmu Hmd Hu Hd. unfold join. rewrite Hmu, Hmd.
  rewrite (truthy_Some u Hu), (truthy_Some d Hd). done.
Qed.

Lemma cursor_move_accepted env ws k message s u d :
  userId k = Some u → contractId k = Some d → u ≠ 0 → d ≠ 0 →
  cursor_move env ws k message s
  = await (AfterCursorMove ws message)
      (set_storage
         (MemStorage.upsertPresence
            (mkInsertPresenceData u d (m_position message) (Some true))
            (randomUUID env) (now env) (storage s)).1 s).
Proof.
  intros Hu Hd Hu0 Hd0. unfold cursor_move. rewrite Hu, Hd.
  rewrite (truthy_Some u Hu0), (truthy_Some d Hd0). done.
Qed.

Lemma cursor_move_rejected env ws k message s :
  truthy (userId k) && truthy (contractId k) = false →
  cursor_move env ws k message s = s.
Proof.
  unfold cursor_move. intros Hg.
  destruct (userId k) as [u|], (contractId k) as [d|]; try done.
  by rewrite Hg.
Qed.

Lemma content_change_accepted env ws k message s d :
  contractId k = Some d → d ≠ 0 →
  content_change env ws k message s
  = await (AfterContentChange ws message)
      (set_storage
         (MemStorage.updateContract d (content_updates message) (now env)
                                    (storage s)).1 s).
Proof.
  intros Hd Hd0. unfold content_change. rewrite Hd.
  rewrite (truthy_Some d Hd0). done.
Qed.

Lemma content_change_rejected env ws k message s :
  truthy (contractId k) = false →
  content_change env ws k message s = s.
Proof.
  unfold content_change. intros Hg.
  destruct (contractId k) as [d|]; [|done]. by rewrite Hg.
Qed.

Lemma on_message_live env ws k data s :
  connections s !! ws = Some k → readyState k ≠ CLOSED →
  on_message env ws data s = dispatch env ws k data s.
Proof.
  intros Hk Hr. unfold on_message. rewrite Hk.
  by destruct (readyState k).
Qed.

(** *** A handler up to its [await] *)

(** A message that parses puts nothing on the wire before the [await];
    at most one rest is queued, behind those that wait. *)
Lemma dispatch_parsed env ws k message s :
  wire (dispatch env ws k (Parsed message) s) = wire s
  ∧ (pending (dispatch env ws k (Parsed message) s) = pending s
     ∨ ∃ rest, rest_socket rest = ws
         ∧ pending (dispatch env ws k (Parsed message) s)
           = pending s ++ [rest]).
Proof.
  unfold dispatch.
  destruct (String.eqb (m_type message) "join").
  { destruct (truthy (m_userId message) && truthy (m_contractId message))
      eqn:Hg.
    - apply andb_true_iff in Hg as [Hu Hd].
      apply truthy_inv in Hu as (u & Hu & Hu0).
      apply truthy_inv in Hd as (d & Hd & Hd0).
      rewrite (join_accepted _ _ _ _ u d) by done. cbv zeta.
      split; [done|]. right. by exists (AfterJoin ws message).
    - rewrite join_rejected by done. auto. }
  destruct (String.eqb (m_type message) "cursor_move").
  { destruct (truthy (userId k) && truthy (contractId k)) eqn:Hg.
    - apply andb_true_iff in Hg as [Hu Hd].
      apply truthy_inv in Hu as (u & Hu & Hu0).
      apply truthy_inv in Hd as (d & Hd & Hd0).
      rewrite (cursor_move_accepted _ _ _ _ _ u d) by done.
      split; [done|]. right. by exists (AfterCursorMove ws message).
    - rewrite cursor_move_rejected by done. auto. }
  destruct (String.eqb (m_type message) "content_change"); [|auto].
  destruct (truthy (contractId k)) eqn:Hg.
  - apply truthy_inv in Hg as (d & Hd & Hd0).
    rewrite (content_change_accepted _ _ _ _ _ d) by done.
    split; [done|]. right. by exists (AfterContentChange ws message).
  - rewrite content_change_rejected by done. auto.
Qed.

(** *** A handler after its [await] *)

Lemma closure_lookup ws s k :
  connections s !! ws = Some k → closure ws s = k.
Proof. unfold closure. by intros ->. Qed.

Lemma closure_connections ws s s' :
  connections s' = connections s → closure ws s' = closure ws s.
Proof. unfold closure. by intros ->. Qed.

Lemma clients_resume env s : clients (resume env s) = clients s.
Proof.
  unfold resume. destruct (pending s) as [|[ws m|ws m|ws m] p]; [done|..];
    unfold after_join, after_cursor_move, after_content_change;
    by rewrite clients_broadcastToClosure.
Qed.

Lemma connections_resume env s : connections (resume env s) = connections s.
Proof.
  unfold resume. destruct (pending s) as [|[ws m|ws m|ws m] p]; [done|..];
    unfold after_join, after_cursor_move, after_content_change;
    by rewrite connections_broadcastToClosure.
Qed.

Lemma storage_resume env s : storage (resume env s) = storage s.
Proof.
  unfold resume. destruct (pending s) as [|[ws m|ws m|ws m] p]; [done|..];
    unfold after_join, after_cursor_move, after_content_change;
    by rewrite storage_broadcastToClosure.
Qed.

Lemma pending_resume env s : pending (resume env s) = tail (pending s).
Proof.
  unfold resume.
  destruct (pending s) as [|[ws m|ws m|ws m] p] eqn:Hp; [done|..];
    unfold after_join, after_cursor_move, after_content_change;
    by rewrite pending_broadcastToClosure.
Qed.

Lemma subscribersOf_resume env s d :
  subscribersOf d (resume env s) = subscribersOf d s.
Proof. unfold subscribersOf. by rewrite clients_resume. Qed.

Lemma readyState_of_resume env s c :
  readyState_of (resume env s) c = readyState_of s c.
Proof. unfold readyState_of. by rewrite connections_resume. Qed.

(** The rest that runs broadcasts to the document that the closure of
    its socket names when it runs, the socket excepted, with the
    [userId] that the closure holds then. *)
Lemma resume_next env rest s :
  next_to_resume rest s →
  resume env s
  = broadcastToClosure (closure (rest_socket rest) s)
      (rest_broadcast env (userId (closure (rest_socket rest) s)) rest)
      (Some (rest_socket rest)) (set_pending (tail (pending s)) s).
Proof.
  unfold next_to_resume, resume.
  destruct (pending s) as [|r p]; [done|]. intros [= ->].
  by destruct rest.
Qed.

(** The socket of the rest that runs gets nothing. *)
Lemma resume_no_echo env rest s :
  next_to_resume rest s →
  received (rest_socket rest) (resume env s) = received (rest_socket rest) s.
Proof.
  intros Hn. rewrite (resume_next env rest s Hn).
  unfold broadcastToClosure.
  destruct (contractId (closure (rest_socket rest) s)) as [d|]; [|done].
  rewrite received_broadcastToContract.
  rewrite decide_False by (intros (_ & ? & _); done).
  by rewrite app_nil_r.
Qed.

Lemma resume_delivery env rest s u d :
  next_to_resume rest s →
  closure_holds (rest_socket rest) u (Some d) s →
  delivered_to_open_others s (resume env s) (rest_socket rest) d
                           (rest_broadcast env u rest).
Proof.
  intros Hn [Hu Hd]. rewrite (resume_next env rest s Hn).
  unfold broadcastToClosure. rewrite Hd, Hu.
  by apply broadcast_delivery.
Qed.

(** C1, as the code has it.  An inbound [join], [cursor_move] or
    [content_change] puts nothing on the wire before the [await] of its
    handler.  When it passes its guard the rest of the handler is queued
    behind those that wait.  When that rest runs, the sender gets
    nothing; and if the closure variables of the sender are then what
    the event has left them, the broadcast goes to every connection
    registered under the target document at that moment whose socket is
    [OPEN], the sender excepted, and to nobody else.  An event that does
    not pass its guard queues nothing. *)
Theorem broadcast_reaches_open_subscribers env env' ws k message s :
  connections s !! ws = Some k → readyState k ≠ CLOSED →
  let s1 := on_message env ws (Parsed message) s in
  wire s1 = wire s
  ∧ match outcome_of env' k message with
    | Some (d, out) =>
        ∃ rest, pending s1 = pending s ++ [rest]
          ∧ (∀ s2, next_to_resume rest s2 →
                   received ws (resume env' s2) = received ws s2)
          ∧ (∀ s2, next_to_resume rest s2 → closure_kept ws s1 s2 →
                   delivered_to_open_others s2 (resume env' s2) ws d out)
          ∧ (m_type out, m_action out) = answer_of (m_type message)
    | None => pending s1 = pending s
    end.
Proof.
  intros Hk Hr s1. subst s1. rewrite (on_message_live _ _ k) by done.
  split; [apply dispatch_parsed|].
  assert (∀ rest s1 u d,
            rest_socket rest = ws →
            closure_holds ws u (Some d) s1 →
            (∀ s2, next_to_resume rest s2 →
                   received ws (resume env' s2) = received ws s2)
            ∧ (∀ s2, next_to_resume rest s2 → closure_kept ws s1 s2 →
                     delivered_to_open_others s2 (resume env' s2) ws d
                       (rest_broadcast env' u rest))) as Hrest.
  { intros rest s1 u d <- [Hu Hd]. split.
    - intros s2 Hn. by apply resume_no_echo.
    - intros s2 Hn [Hu2 Hd2]. apply resume_delivery; [done|].
      split; congruence. }
  assert (∀ u c s0, closure_holds ws u c (set_closure ws u c s0)
                    ∨ connections s0 !! ws = None) as Hset.
  { intros u c s0. destruct (connections s0 !! ws) as [k0|] eqn:Hk0; [|auto].
    left. unfold closure_holds, closure, set_closure; simpl.
    by rewrite lookup_alter_eq, Hk0. }
  unfold dispatch, outcome_of, answer_of.
  destruct (String.eqb (m_type message) "join") eqn:Hj.
  { destruct (truthy (m_userId message) && truthy (m_contractId message))
      eqn:Hg.
    - apply andb_true_iff in Hg as [Hu Hd].
      apply truthy_inv in Hu as (u & Hu & Hu0).
      apply truthy_inv in Hd as (d & Hd & Hd0).
      rewrite Hu, Hd. simpl.
      rewrite (join_accepted _ _ _ _ u d) by done. cbv zeta.
      exists (AfterJoin ws message). split; [done|].
      destruct (Hrest (AfterJoin ws message)
                  (await (AfterJoin ws message)
                     (set_storage
                        (MemStorage.upsertPresence
                           (mkInsertPresenceData u d (m_position message)
                                                 (Some true))
                           (randomUUID env) (now env) (storage s)).1
                        (set_clients
                           (<[d := {[ws]} ∪ subscribersOf d
                                     (set_closure ws (Some u) (Some d) s)]>
                              (clients s))
                           (set_closure ws (Some u) (Some d) s))))
                  (Some u) d eq_refl) as [H1 H2].
      { destruct (Hset (Some u) (Some d) s) as [H|H]; [exact H|congruence]. }
      split_and!; [exact H1 | exact H2 | done].
    - by rewrite join_rejected. }
  destruct (String.eqb (m_type message) "cursor_move") eqn:Hc.
  { destruct (truthy (userId k) && truthy (contractId k)) eqn:Hg.
    - apply andb_true_iff in Hg as [Hu Hd].
      apply truthy_inv in Hu as (u & Hu & Hu0).
      apply truthy_inv in Hd as (d & Hd & Hd0).
      rewrite Hu, Hd. simpl.
      rewrite (cursor_move_accepted _ _ _ _ _ u d) by done.
      exists (AfterCursorMove ws message). split; [done|].
      destruct (Hrest (AfterCursorMove ws message)
                  (await (AfterCursorMove ws message)
                     (set_storage
                        (MemStorage.upsertPresence
                           (mkInsertPresenceData u d (m_position message)
                                                 (Some true))
                           (randomUUID env) (now env) (storage s)).1 s))
                  (Some u) d eq_refl) as [H1 H2].
      { unfold closure_holds, closure; simpl. by rewrite Hk. }
      split_and!; [exact H1 | exact H2 | done].
    - by rewrite cursor_move_rejected. }
  destruct (String.eqb (m_type message) "content_change") eqn:Hcc; [|done].
  destruct (truthy (contractId k)) eqn:Hg.
  - apply truthy_inv in Hg as (d & Hd & Hd0).
    rewrite Hd. simpl.
    rewrite (content_change_accepted _ _ _ _ _ d) by done.
    exists (AfterContentChange ws message). split; [done|].
    destruct (Hrest (AfterContentChange ws message)
                (await (AfterContentChange ws message)
                   (set_storage
                      (MemStorage.updateContract d (content_updates message)
                         (now env) (storage s)).1 s))
                (userId k) d eq_refl) as [H1 H2].
    { unfold closure_holds, closure; simpl. by rewrite Hk. }
    split_and!; [exact H1 | exact H2 | done].
  - by rewrite content_change_rejected.
Qed.

(** *** What a handler leaves alone *)

Lemma wire_set_closure ws u c s : wire (set_closure ws u c s) = wire s.
Proof. done. Qed.

Lemma connections_set_closure_eq ws u c s k :
  connections s !! ws = Some k →
  connections (set_closure ws u c s) !! ws
  = Some (mkConnection u c (readyState k)).
Proof.
  intros Hk. unfold set_closure; simpl.
  by rewrite lookup_alter_eq, Hk.
Qed.



(** *** Content changes *)

Lemma spread_content_updates doc m1 t1 m2 t2 :
  MemStorage.spread (MemStorage.spread doc (content_updates m1) t1)
                    (content_updates m2) t2
  = MemStorage.spread doc (content_updates m2) t2.
Proof. reflexivity. Qed.

Lemma updateContract_found d u t st doc :
  MemStorage.contracts st !! d = Some doc →
  MemStorage.updateContract d u t st
  = (MemStorage.mk (<[d := MemStorage.spread doc u t]>
                      (MemStorage.contracts st))
                   (MemStorage.presenceData st),
     Some (MemStorage.spread doc u t)).
Proof. intros Hd. unfold MemStorage.updateContract. by rewrite Hd. Qed.

Lemma updateContract_missing d u t st :
  MemStorage.contracts st !! d = None →
  MemStorage.updateContract d u t st = (st, None).
Proof. intros Hd. unfold MemStorage.updateContract. by rewrite Hd. Qed.

Lemma updateContract_twice d m1 t1 m2 t2 st doc :
  MemStorage.contracts st !! d = Some doc →
  (MemStorage.updateContract d (content_updates m2) t2
     (MemStorage.updateContract d (content_updates m1) t1 st).1).1
  = (MemStorage.updateContract d (content_updates m2) t2 st).1.
Proof.
  intros Hd.
  rewrite (updateContract_found d _ t1 st doc) by done. simpl.
  rewrite (updateContract_found d _ t2 st doc) by done. simpl.
  erewrite updateContract_found by (simpl; apply lookup_insert_eq).
  simpl. by rewrite insert_insert_eq, spread_content_updates.
Qed.

(** A [content_change] on a live connection whose closure holds the
    document [d]: the registry and the connections stay, the store is
    updated through [updateContract], and the rest is queued. *)
Lemma on_message_content_change env ws k message d s :
  connections s !! ws = Some k → readyState k ≠ CLOSED →
  contractId k = Some d → d ≠ 0 →
  m_type message = "content_change" →
  let s' := on_message env ws (Parsed message) s in
  s' = await (AfterContentChange ws message)
         (set_storage
            (MemStorage.updateContract d (content_updates message)
                                       (now env) (storage s)).1 s).
Proof.
  intros Hk Hr Hd Hd0 Ht. simpl.
  rewrite (on_message_live _ _ k) by done.
  unfold dispatch. rewrite Ht. simpl.
  by apply content_change_accepted.
Qed.

(** C3: last write wins.  Two [content_change] events for a stored
    document [d], [E1] then [E2], from connections whose closure holds
    [d]: the stored document then has the content of [E2] and the word
    count of [E2] (0 when [E2] has none), its other fields are those
    of the document before, and the store is the one [E2] alone would
    have left: nothing of [E1] remains. *)
Theorem last_write_wins env1 env2 ws1 ws2 k1 k2 E1 E2 d doc s :
  connections s !! ws1 = Some k1 → readyState k1 ≠ CLOSED →
  contractId k1 = Some d →
  connections s !! ws2 = Some k2 → readyState k2 ≠ CLOSED →
  contractId k2 = Some d →
  d ≠ 0 →
  m_type E1 = "content_change" → m_type E2 = "content_change" →
  MemStorage.contracts (storage s) !! d = Some doc →
  let s2 := on_message env2 ws2 (Parsed E2)
              (on_message env1 ws1 (Parsed E1) s) in
  (∃ doc', MemStorage.contracts (storage s2) !! d = Some doc'
           ∧ k_content doc' = m_content E2
           ∧ k_wordCount doc' = Some (or_default (m_wordCount E2) 0)
           ∧ (∀ w, m_wordCount E2 = Some w → k_wordCount doc' = Some w)
           ∧ k_title doc' = k_title doc
           ∧ k_updatedAt doc' = now env2)
  ∧ storage s2 = storage (on_message env2 ws2 (Parsed E2) s).
Proof.
  intros Hk1 Hr1 Hd1 Hk2 Hr2 Hd2 Hd0 Ht1 Ht2 Hdoc s2. subst s2.
  pose proof (on_message_content_change env1 ws1 k1 E1 d s
                Hk1 Hr1 Hd1 Hd0 Ht1) as H1. simpl in H1.
  set (s1 := on_message env1 ws1 (Parsed E1) s) in *.
  assert (connections s1 !! ws2 = Some k2) as Hk2'.
  { rewrite H1. done. }
  rewrite (on_message_content_change env2 ws2 k2 E2 d s1)
    by done.
  rewrite (on_message_content_change env2 ws2 k2 E2 d s) by done.
  simpl. rewrite H1. simpl.
  rewrite (updateContract_twice d E1 _ E2 _ (storage s) doc) by done.
  split; [|done].
  rewrite (updateContract_found d _ _ (storage s) doc) by done. simpl.
  eexists. split; [apply lookup_insert_eq|]. simpl.
  split_and!; try done.
  intros w Hw. by rewrite Hw, or_default_Some.
Qed.

(** *** The registry along a trace *)

Lemma clients_set_storage st s : clients (set_storage st s) = clients s.
Proof. done. Qed.

(** A message changes the registry only by the insertion of an accepted
    [join]. *)
Lemma clients_on_message env ws data s :
  clients (on_message env ws data s) = clients s
  ∨ ∃ d, join_target ws (Receive ws data) = Some d
         ∧ clients (on_message env ws data s)
           = <[d := {[ws]} ∪ subscribersOf d s]> (clients s).
Proof.
  unfold on_message.
  destruct (connections s !! ws) as [k|]; [|by left].
  assert (clients (dispatch env ws k data s) = clients s
          ∨ ∃ d, join_target ws (Receive ws data) = Some d
                 ∧ clients (dispatch env ws k data s)
                   = <[d := {[ws]} ∪ subscribersOf d s]> (clients s))
    as Hd; [|by destruct (readyState k); auto].
  destruct data as [|message]; [by left|]. unfold dispatch.
  destruct (String.eqb (m_type message) "join") eqn:Hj.
  { destruct (truthy (m_userId message) && truthy (m_contractId message))
      eqn:Hg.
    - right. pose proof Hg as Hg'.
      apply andb_true_iff in Hg as [Hu Hd].
      apply truthy_inv in Hu as (u & Hu & Hu0).
      apply truthy_inv in Hd as (d & Hd & Hd0).
      exists d. split.
      + unfold join_target. rewrite bool_decide_eq_true_2 by done.
        rewrite Hj. simpl. by rewrite Hg'.
      + by rewrite (join_accepted _ _ _ _ u d) by done.
    - left. by rewrite join_rejected. }
  left.
  destruct (String.eqb (m_type message) "cursor_move").
  { unfold cursor_move.
    destruct (userId k), (contractId k); try done.
    by case_match. }
  destruct (String.eqb (m_type message) "content_change"); [|done].
  unfold content_change. destruct (contractId k); [|done].
  by case_match.
Qed.

(** A close changes the registry only by taking the socket out of one
    set, and the entry with it when the set becomes empty. *)
Lemma clients_on_close ws s :
  clients (on_close ws s) = clients s
  ∨ ∃ d S, clients s !! d = Some S
           ∧ ((S ∖ {[ws]} = ∅
               ∧ clients (on_close ws s) = delete d (clients s))
              ∨ (S ∖ {[ws]} ≠ ∅
                 ∧ clients (on_close ws s)
                   = <[d := S ∖ {[ws]}]> (clients s))).
Proof.
  unfold on_close.
  destruct (connections s !! ws) as [k|]; [|by left].
  assert (∀ s0, clients s0 = clients s →
            clients (close_handler ws k s0) = clients s
            ∨ ∃ d S, clients s !! d = Some S
              ∧ ((S ∖ {[ws]} = ∅
                  ∧ clients (close_handler ws k s0) = delete d (clients s))
                 ∨ (S ∖ {[ws]} ≠ ∅
                    ∧ clients (close_handler ws k s0)
                      = <[d := S ∖ {[ws]}]> (clients s)))) as Hh.
  { intros s0 Hs0. unfold close_handler.
    destruct (userId k) as [u|], (contractId k) as [d|]; auto.
    case_match; auto.
    rewrite clients_broadcastToContract. simpl. rewrite Hs0.
    destruct (clients s !! d) as [S|] eqn:HS; [|by left].
    right. exists d, S. split; [done|].
    case_decide as Hsz; simpl.
    - left. split; [|done]. by apply leibniz_equiv, size_empty_iff.
    - right. split; [|done].
      intros He. apply Hsz. rewrite He. apply size_empty. }
  destruct (readyState k); auto.
Qed.

(** A connection is registered under a document after a step only if
    it was before, or the step is its accepted [join] for it. *)
Lemma subscribersOf_step env ev s ws d :
  ws ∈ subscribersOf d (step env ev s) →
  ws ∈ subscribersOf d s ∨ join_target ws ev = Some d.
Proof.
  destruct ev as [c|c data| |c|c]; simpl.
  - destruct (connections s !! c); auto.
  - destruct (clients_on_message env c data s) as [He|(d0 & Ht & He)].
    + unfold subscribersOf. rewrite He. auto.
    + unfold subscribersOf at 1. rewrite He, lookup_insert.
      case_decide as Hd; simpl; [subst d0|by auto].
      intros Hin. apply elem_of_union in Hin as [Hin|Hin]; [|by auto].
      apply elem_of_singleton in Hin as ->. by right.
  - rewrite subscribersOf_resume. auto.
  - unfold subscribersOf. destruct (readyState_of s c); auto.
  - intros Hin. left.
    destruct (clients_on_close c s) as [He|(d0 & S & HS & [[_ He]|[_ He]])];
      unfold subscribersOf in *; rewrite He in Hin.
    + done.
    + rewrite lookup_delete in Hin. case_decide; [|done].
      by apply not_elem_of_empty in Hin.
    + rewrite lookup_insert in Hin. case_decide; [subst d0|done].
      rewrite HS. simpl in *. by apply elem_of_difference in Hin as [? _].
Qed.

Lemma no_empty_set_step env ev s :
  no_empty_set s → no_empty_set (step env ev s).
Proof.
  intros Hs d S. destruct ev as [c|c data| |c|c]; simpl.
  - destruct (connections s !! c); apply Hs.
  - destruct (clients_on_message env c data s) as [->|(d0 & _ & ->)];
      [apply Hs|].
    rewrite lookup_insert. case_decide; [|apply Hs].
    intros [= <-]. set_solver.
  - rewrite clients_resume. apply Hs.
  - destruct (readyState_of s c); apply Hs.
  - destruct (clients_on_close c s)
      as [->|(d0 & S0 & HS & [[_ ->]|[Hne ->]])]; [apply Hs| |].
    + rewrite lookup_delete. case_decide; [done|apply Hs].
    + rewrite lookup_insert. case_decide; [|apply Hs].
      by intros [= <-].
Qed.

Lemma no_empty_set_run evs s :
  no_empty_set s → no_empty_set (run evs s).
Proof.
  revert s. induction evs as [|[env ev] evs IH]; intros s Hs; [done|].
  simpl. by apply IH, no_empty_set_step.
Qed.

Lemma subscribersOf_run evs s ws d :
  ws ∈ subscribersOf d (run evs s) →
  ws ∈ subscribersOf d s ∨ d ∈ joins_of ws evs.
Proof.
  revert s. induction evs as [|[env ev] evs IH]; intros s; [by left|].
  simpl. intros Hin. unfold joins_of. simpl.
  destruct (IH _ Hin) as [Hs|Hj].
  - destruct (subscribersOf_step _ _ _ _ _ Hs) as [?|Ht]; [by left|].
    right. rewrite Ht. left.
  - right. destruct (join_target ws ev); [right|]; exact Hj.
Qed.

(** C4, as the code has it: after any trace from the empty registry no
    document keeps an empty set, and a connection all of whose accepted
    [join]s name one document is registered under at most one
    document. *)
Theorem registry_after_trace evs st :
  let s := run evs (init st) in
  no_empty_set s
  ∧ ∀ ws, (∀ d d', d ∈ joins_of ws evs → d' ∈ joins_of ws evs → d = d') →
          in_one_set_at_most ws s.
Proof.
  intros s. split.
  - apply no_empty_set_run. intros d S. simpl.
    by rewrite lookup_empty.
  - intros ws Hone d d' Hd Hd'.
    destruct (subscribersOf_run _ _ _ _ Hd) as [Hin|Hj];
      [unfold subscribersOf in Hin; simpl in Hin;
       rewrite lookup_empty in Hin; set_solver|].
    destruct (subscribersOf_run _ _ _ _ Hd') as [Hin|Hj'];
      [unfold subscribersOf in Hin; simpl in Hin;
       rewrite lookup_empty in Hin; set_solver|].
    by apply Hone.
Qed.

(** *** A connection that never joined *)

(** C10, as the code has it: a [join] with a [contractId] [d] and no
    [userId] is dropped, yet the closure keeps [d] (and an absent
    [userId]); a [content_change] that follows on the same connection
    rewrites the stored document [d] before its [await] and sends
    nothing then; when its rest runs with the closure as the event has
    left it, the [content_update], without [userId], goes to the
    subscribers of [d] whose socket is [OPEN], the sender excepted, and
    to nobody else. *)
Theorem content_change_after_rejected_join
    env1 env2 env3 ws k mj mc d s :
  connections s !! ws = Some k → readyState k ≠ CLOSED →
  m_type mj = "join" → m_userId mj = None → m_contractId mj = Some d →
  d ≠ 0 →
  m_type mc = "content_change" →
  let s1 := on_message env1 ws (Parsed mj) s in
  let s2 := on_message env2 ws (Parsed mc) s1 in
  let out := content_update None (m_content mc) (now env3) in
  connections s1 !! ws = Some (mkConnection None (Some d) (readyState k))
  ∧ clients s1 = clients s ∧ storage s1 = storage s ∧ wire s1 = wire s
  ∧ pending s1 = pending s
  ∧ (∀ doc, MemStorage.contracts (storage s) !! d = Some doc →
       ∃ doc', MemStorage.contracts (storage s2) !! d = Some doc'
               ∧ k_content doc' = m_content mc
               ∧ k_wordCount doc' = Some (or_default (m_wordCount mc) 0))
  ∧ wire s2 = wire s
  ∧ pending s2 = pending s ++ [AfterContentChange ws mc]
  ∧ (∀ s3, next_to_resume (AfterContentChange ws mc) s3 →
           closure_kept ws s2 s3 →
           delivered_to_open_others s3 (resume env3 s3) ws d out)
  ∧ m_userId out = None.
Proof.
  intros Hk Hr Htj Hu Hd Hd0 Htc s1 s2 out.
  assert (s1 = set_closure ws None (Some d) s) as Hs1.
  { subst s1. rewrite (on_message_live _ _ k) by done.
    unfold dispatch. rewrite Htj. simpl.
    rewrite join_rejected by (by rewrite Hu). by rewrite Hu, Hd. }
  assert (connections s1 !! ws
          = Some (mkConnection None (Some d) (readyState k))) as Hk1.
  { rewrite Hs1. by apply connections_set_closure_eq. }
  assert (s2 = await (AfterContentChange ws mc)
                 (set_storage
                    (MemStorage.updateContract d (content_updates mc)
                       (now env2) (storage s1)).1 s1)) as Hs2.
  { subst s2. by rewrite (on_message_content_change env2 ws _ mc d s1 Hk1). }
  split_and!; [done|by rewrite Hs1..| | | | |done].
  - intros doc Hdoc. rewrite Hs2. simpl.
    rewrite (updateContract_found d _ _ (storage s1) doc)
      by (by rewrite Hs1).
    simpl. eexists. split; [apply lookup_insert_eq|]. done.
  - rewrite Hs2, Hs1. done.
  - rewrite Hs2, Hs1. done.
  - intros s3 Hn [Hu3 Hd3].
    apply (resume_delivery env3 (AfterContentChange ws mc) s3 None d Hn).
    assert (closure ws s2 = mkConnection None (Some d) (readyState k)) as Hc.
    { rewrite Hs2. unfold closure. simpl. by rewrite Hk1. }
    rewrite Hc in Hu3, Hd3. by split.
Qed.

(** *** Presence after a [join] *)


(** *** The statements on the scenarios *)

Lemma broadcast_reaches_open_subscribers_witness :
  let s := Scenario.three_on_7 in
  let s1 := on_message (Scenario.env 9) 0%nat
                       (Parsed (Scenario.cursor_to 2 5)) s in
  let s2 := resume (Scenario.env 10) s1 in
  delivered_to_open_others s1 s2 0%nat 7
    (cursor_update 1 (Some (mkPosition 2 5)))
  ∧ received 0%nat s2 = received 0%nat s1.
Proof.
  intros s s1 s2.
  destruct (broadcast_reaches_open_subscribers
              (Scenario.env 9) (Scenario.env 10) 0%nat
              (mkConnection (Some 1) (Some 7) OPEN)
              (Scenario.cursor_to 2 5) s)
    as (_ & rest & Hp & Hecho & Hdel & _).
  - vm_compute. reflexivity.
  - discriminate.
  - assert (next_to_resume rest s1) as Hn.
    { unfold next_to_resume. fold s1 in Hp. rewrite Hp.
      replace (pending s) with (@nil Rest) by (vm_compute; reflexivity).
      reflexivity. }
    split; [apply Hdel; [exact Hn | split; reflexivity] | apply Hecho, Hn].
Defined.

(** C1, read literally, fails: connection 1 is registered under
    document 7 and is not the sender, its socket is closing, and the
    [cursor_update] that connection 2 gets is not sent to it. *)
Lemma broadcast_skips_closing_subscriber :
  let s := Scenario.one_closing in
  let s' := resume (Scenario.env 10)
              (on_message (Scenario.env 9) 0%nat
                          (Parsed (Scenario.cursor_to 2 5)) s) in
  let out := cursor_update 1 (Some (mkPosition 2 5)) in
  received 2%nat s' = received 2%nat s ++ [out]
  ∧ 1%nat ∈ subscribersOf 7 s'
  ∧ received 1%nat s' = received 1%nat s
  ∧ ¬ reaches_every_subscriber s s' 0%nat 7 out.
Proof.
  intros s s' out.
  assert (1%nat ∈ subscribersOf 7 s') as Hin.
  { refine (bool_decide_unpack _ _). vm_compute. exact I. }
  assert (received 1%nat s' = received 1%nat s) as Hsame
    by (vm_compute; reflexivity).
  split_and!; [vm_compute; reflexivity | exact Hin | exact Hsame |].
  intros Hall. specialize (Hall 1%nat Hin).
  rewrite Hsame in Hall.
  assert (length (received 1%nat s)
          = length (received 1%nat s ++ [out])) as Hlen
    by (rewrite <- Hall by discriminate; reflexivity).
  rewrite length_app in Hlen.
  change (length [out]) with 1%nat in Hlen.
  generalize dependent (length (received 1%nat s)). intros; lia.
Qed.

(** C10, read literally, fails: connection 3 has sent a [join] for
    document 7 without [userId], then a [content_change]; connection 1
    is registered under document 7, its socket is closing, and the
    [content_update] that connections 0 and 2 get is not sent to it. *)
Lemma content_update_skips_closing_subscriber :
  let s := step (Scenario.env 7) (Connect 3%nat) Scenario.one_closing in
  let mj := mkMessage "join" None (Some 7) None None None None None None in
  let mc := Scenario.content_of "<p>rewritten</p>" 1 in
  let s' := run [(Scenario.env 8, Receive 3%nat (Parsed mj));
                 (Scenario.env 9, Receive 3%nat (Parsed mc));
                 (Scenario.env 10, Resume)] s in
  let out := content_update None (Some "<p>rewritten</p>") 10 in
  received 0%nat s' = received 0%nat s ++ [out]
  ∧ received 2%nat s' = received 2%nat s ++ [out]
  ∧ 1%nat ∈ subscribersOf 7 s'
  ∧ received 1%nat s' = received 1%nat s
  ∧ ¬ reaches_every_subscriber s s' 3%nat 7 out.
Proof.
  intros s mj mc s' out.
  assert (1%nat ∈ subscribersOf 7 s') as Hin.
  { refine (bool_decide_unpack _ _). vm_compute. exact I. }
  assert (received 1%nat s' = received 1%nat s) as Hsame
    by (vm_compute; reflexivity).
  split_and!; [vm_compute; reflexivity | vm_compute; reflexivity
               | exact Hin | exact Hsame |].
  intros Hall. specialize (Hall 1%nat Hin).
  rewrite Hsame in Hall.
  assert (length (received 1%nat s)
          = length (received 1%nat s ++ [out])) as Hlen
    by (rewrite <- Hall by discriminate; reflexivity).
  rewrite length_app in Hlen.
  change (length [out]) with 1%nat in Hlen.
  generalize dependent (length (received 1%nat s)). intros; lia.
Qed.

(** The broadcast follows the closure, not the event.  Connection 3
    sends a [join] for document 7 and a [join] for document 8, and both
    are handled before the first handler goes on after its [await]:
    the connection is registered under both documents, connection 4 on
    document 8 is told twice that the user has joined, and the
    connections on document 7 are told nothing. *)
Example both_joins_announced_to_last_document :
  let s := Scenario.with_observer_of_8 in
  let s' := run [(Scenario.env 9,
                  Receive 3%nat (Parsed (Scenario.join_of 4 7 None)));
                 (Scenario.env 9,
                  Receive 3%nat (Parsed (Scenario.join_of 4 8 None)));
                 (Scenario.env 9, Resume); (Scenario.env 9, Resume)] s in
  3%nat ∈ subscribersOf 7 s' ∧ 3%nat ∈ subscribersOf 8 s'
  ∧ received 4%nat s'
    = received 4%nat s ++ [joined_update 4 None; joined_update 4 None]
  ∧ received 0%nat s' = received 0%nat s
  ∧ received 1%nat s' = received 1%nat s
  ∧ received 2%nat s' = received 2%nat s.
Proof.
  intros s s'. split_and!; try (vm_compute; reflexivity);
    refine (bool_decide_unpack _ _); vm_compute; exact I.
Qed.

(** Connection 0, of user 1 on document 7, sends a [content_change]
    and then a [join] for document 8, and both are handled before the
    first handler goes on: the content is stored in document 7, and the
    [content_update] goes to connection 4 on document 8, not to the
    connections on document 7. *)
Example content_update_sent_to_last_document :
  let s := Scenario.with_observer_of_8 in
  let s' := run [(Scenario.env 9,
                  Receive 0%nat (Parsed (Scenario.content_of "<p>new</p>" 2)));
                 (Scenario.env 9,
                  Receive 0%nat (Parsed (Scenario.join_of 1 8 None)));
                 (Scenario.env 10, Resume); (Scenario.env 10, Resume)] s in
  k_content <$> MemStorage.contracts (storage s') !! 7
  = Some (Some "<p>new</p>")
  ∧ received 4%nat s'
    = received 4%nat s
      ++ [content_update (Some 1) (Some "<p>new</p>") 10;
          joined_update 1 None]
  ∧ received 1%nat s' = received 1%nat s
  ∧ received 2%nat s' = received 2%nat s.
Proof. intros s s'. split_and!; vm_compute; reflexivity. Qed.

(** C4, read literally, fails: a connection that joins document 1 and
    then document 2 is registered under both. *)
Lemma two_joins_two_sets :
  let s := run Scenario.two_joins (init MemStorage.empty) in
  0%nat ∈ subscribersOf 1 s ∧ 0%nat ∈ subscribersOf 2 s
  ∧ ¬ in_one_set_at_most 0%nat s.
Proof.
  intros s.
  assert (0%nat ∈ subscribersOf 1 s) as H1
    by (refine (bool_decide_unpack _ _); vm_compute; exact I).
  assert (0%nat ∈ subscribersOf 2 s) as H2
    by (refine (bool_decide_unpack _ _); vm_compute; exact I).
  split_and!; [exact H1 | exact H2 |].
  intros Hone. specialize (Hone 1 2 H1 H2). discriminate.
Qed.

(** The [close] handler cleans the set of the last document joined
    only: the closed socket stays registered under document 1, and its
    presence record there stays active. *)
Example closed_socket_left_behind :
  let s := run Scenario.rejoin_then_close (init MemStorage.empty) in
  1%nat ∈ subscribersOf 1 s
  ∧ readyState_of s 1%nat = CLOSED
  ∧ clients s !! 2 = None
  ∧ 2 ∈ p_userId <$> MemStorage.getPresenceByContract 1 (storage s).
Proof.
  intros s. split_and!.
  - refine (bool_decide_unpack _ _). vm_compute. exact I.
  - vm_compute. reflexivity.
  - vm_compute. reflexivity.
  - refine (bool_decide_unpack _ _). vm_compute. exact I.
Qed.

Lemma registry_after_trace_witness :
  let s := run Scenario.join_join_close (init Scenario.store7) in
  no_empty_set s ∧ in_one_set_at_most 1%nat s.
Proof.
  intros s.
  destruct (registry_after_trace Scenario.join_join_close Scenario.store7)
    as [Hne Hone].
  split; [exact Hne|]. apply Hone.
  intros d d' Hd Hd'. vm_compute in Hd, Hd'.
  apply list_elem_of_singleton in Hd, Hd'. congruence.
Defined.

Lemma content_change_after_rejected_join_witness :
  let s := Scenario.three_on_7 in
  let s3 := step (Scenario.env 7) (Connect 3%nat) s in
  let mj := mkMessage "join" None (Some 7) None None None None None None in
  let mc := Scenario.content_of "<p>rewritten</p>" 1 in
  let s1 := on_message (Scenario.env 8) 3%nat (Parsed mj) s3 in
  let s2 := on_message (Scenario.env 9) 3%nat (Parsed mc) s1 in
  clients s1 = clients s3
  ∧ wire s2 = wire s3
  ∧ delivered_to_open_others s2 (resume (Scenario.env 10) s2) 3%nat 7
      (content_update None (Some "<p>rewritten</p>") 10).
Proof.
  intros s s3 mj mc s1 s2.
  destruct (content_change_after_rejected_join
              (Scenario.env 8) (Scenario.env 9) (Scenario.env 10) 3%nat
              (mkConnection None None OPEN) mj mc 7 s3)
    as (_ & H2 & _ & _ & _ & _ & H7 & _ & H9 & _).
  - vm_compute. reflexivity.
  - discriminate.
  - reflexivity.
  - reflexivity.
  - reflexivity.
  - lia.
  - reflexivity.
  - split_and!; [exact H2 | exact H7 |].
    apply H9; [vm_compute; reflexivity | split; reflexivity].
Defined.

Lemma last_write_wins_witness :
  let s := Scenario.three_on_7 in
  let E1 := Scenario.content_of "<p>first</p>" 1 in
  let E2 := Scenario.content_of "<p>second draft</p>" 2 in
  let s2 := on_message (Scenario.env 9) 1%nat (Parsed E2)
              (on_message (Scenario.env 8) 0%nat (Parsed E1) s) in
  (∃ doc', MemStorage.contracts (storage s2) !! 7 = Some doc'
           ∧ k_content doc' = Some "<p>second draft</p>"
           ∧ k_wordCount doc' = Some 2)
  ∧ storage s2 = storage (on_message (Scenario.env 9) 1%nat (Parsed E2) s).
Proof.
  intros s E1 E2 s2.
  destruct (last_write_wins (Scenario.env 8) (Scenario.env 9) 0%nat 1%nat
              (mkConnection (Some 1) (Some 7) OPEN)
              (mkConnection (Some 2) (Some 7) OPEN)
              E1 E2 7 Scenario.contract7 s)
    as [(doc' & Hl & Hc & Hw & _) Hst].
  - vm_compute. reflexivity.
  - discriminate.
  - reflexivity.
  - vm_compute. reflexivity.
  - discriminate.
  - reflexivity.
  - lia.
  - reflexivity.
  - reflexivity.
  - vm_compute. reflexivity.
  - split; [|exact Hst]. exists doc'. split_and!; [exact Hl|exact Hc|exact Hw].
Defined.

End RouterFacts.

(** ** The channel manager *)

Module ClientFacts.
Import Client Reconnect.
Local Open Scope nat_scope.

(** *** The handlers as state equations *)

Lemma attemptReconnect_below u c w :
  reconnectAttempts (manager w) < maxReconnectAttempts (manager w) →
  attemptReconnect u c w
  = let m := manager w in
    mk (mkManager (ws m) (S (reconnectAttempts m))
                  (maxReconnectAttempts m) (reconnectDelay m)
                  (listeners m))
       (sockets w)
       (timers w ++ [mkTimer (reconnectDelay m * S (reconnectAttempts m))
                             u c false])
       (wire w) (delivered w).
Proof.
  intros Hlt. unfold attemptReconnect.
  apply Nat.ltb_lt in Hlt. rewrite Hlt. done.
Qed.

Lemma attemptReconnect_exhausted u c w :
  maxReconnectAttempts (manager w) ≤ reconnectAttempts (manager w) →
  attemptReconnect u c w = w.
Proof.
  intros Hge. unfold attemptReconnect.
  apply Nat.ltb_ge in Hge. rewrite Hge. done.
Qed.

Lemma readyState_of_set_readyState_eq w s r k :
  sockets w !! s = Some k → readyState_of (set_readyState s r w) s = r.
Proof.
  intros Hk. unfold readyState_of, set_readyState. cbn [sockets].
  by rewrite list_lookup_alter_eq, Hk.
Qed.

Lemma step_Closed w s k :
  sockets w !! s = Some k → readyState k ≠ CLOSED →
  step (Closed s) w
  = attemptReconnect (s_userId k) (s_contractId k)
                     (set_readyState s CLOSED w).
Proof. intros Hk Hr. simpl. rewrite Hk. by destruct (readyState k). Qed.

Lemma step_Closed_again w s k :
  sockets w !! s = Some k → readyState k = CLOSED →
  step (Closed s) w = w.
Proof. intros Hk Hr. simpl. by rewrite Hk, Hr. Qed.

Lemma step_Timeout w i k :
  timers w !! i = Some k → fired k = false →
  step (Timeout i) w
  = connect (t_userId k) (t_contractId k)
      (mk (manager w) (sockets w)
          (<[i := mkTimer (delay k) (t_userId k) (t_contractId k) true]>
             (timers w))
          (wire w) (delivered w)).
Proof. intros Hk Hf. simpl. by rewrite Hk, Hf. Qed.

Lemma step_Timeout_none w i :
  timers w !! i = None → step (Timeout i) w = w.
Proof. intros Hk. simpl. by rewrite Hk. Qed.

Lemma step_Opened w s k :
  sockets w !! s = Some k → readyState k = CONNECTING →
  step (Opened s) w
  = onopen (s_userId k) (s_contractId k) (set_readyState s OPEN w).
Proof. intros Hk Hr. simpl. by rewrite Hk, Hr. Qed.

(** One drop within the budget: the close counts an attempt and sets a
    timer of [reconnectDelay * attempt]; the timer makes a new socket,
    which becomes the manager's. *)
Lemma reconnect_cycle w s k :
  sockets w !! s = Some k → readyState k ≠ CLOSED →
  reconnectAttempts (manager w) < maxReconnectAttempts (manager w) →
  run [Closed s; Timeout (length (timers w))] w
  = let m := manager w in
    mk (mkManager (Some (length (sockets w))) (S (reconnectAttempts m))
                  (maxReconnectAttempts m) (reconnectDelay m)
                  (listeners m))
       (sockets (set_readyState s CLOSED w)
          ++ [mkSock CONNECTING (s_userId k) (s_contractId k)])
       (timers w
          ++ [mkTimer (reconnectDelay m * S (reconnectAttempts m))
                      (s_userId k) (s_contractId k) true])
       (wire w) (delivered w).
Proof.
  intros Hk Hr Hlt.
  change (run [Closed s; Timeout (length (timers w))] w)
    with (step (Timeout (length (timers w))) (step (Closed s) w)).
  rewrite (step_Closed w s k) by done.
  rewrite attemptReconnect_below by done. cbv zeta.
  erewrite step_Timeout;
    [|simpl; by rewrite list_lookup_middle|done].
  unfold connect, set_ws. simpl. rewrite length_alter.
  f_equal.
  replace (length (timers w)) with (length (timers w) + 0) at 1 by lia.
  by rewrite insert_app_r.
Qed.

(** The manager's socket opens: the counter is reset and the [join]
    goes out on that socket. *)
Lemma open_current w s k :
  ws (manager w) = Some s →
  sockets w !! s = Some k → readyState k = CONNECTING →
  step (Opened s) w
  = let m := manager w in
    mk (mkManager (Some s) 0 (maxReconnectAttempts m) (reconnectDelay m)
                  (listeners m))
       (sockets (set_readyState s OPEN w))
       (timers w)
       (wire w ++ [(s, join_message (s_userId k) (s_contractId k))])
       (delivered w).
Proof.
  intros Hws Hk Hr. rewrite (step_Opened w s k) by done.
  unfold onopen, send. simpl. rewrite Hws.
  assert (readyState_of (set_reconnectAttempts 0 (set_readyState s OPEN w))
                        s = OPEN) as ->; [|done].
  change (readyState_of (set_readyState s OPEN w) s = OPEN).
  by apply (readyState_of_set_readyState_eq w s OPEN k).
Qed.

(** *** Rejoin on reopen *)




(** *** Explicit disconnect *)

(** The [close] event of a socket starts a retry whether or not the
    manager still holds the socket: [disconnect()] only forgets it. *)
Lemma disconnect_then_close_reconnects w s k :
  ws (manager w) = Some s → sockets w !! s = Some k →
  readyState k = OPEN →
  reconnectAttempts (manager w) < maxReconnectAttempts (manager w) →
  let w1 := disconnect w in
  let w2 := run [Closed s; Timeout (length (timers w1))] w1 in
  ws (manager w1) = None
  ∧ status w2 = Connecting
  ∧ ws (manager w2) = Some (length (sockets w))
  ∧ timers w2
    = timers w ++ [mkTimer (reconnectDelay (manager w)
                            * S (reconnectAttempts (manager w)))
                           (s_userId k) (s_contractId k) true].
Proof.
  intros Hws Hk Hr Hlt w1 w2.
  assert (w1 = set_ws None (set_readyState s CLOSING w)) as Hw1.
  { subst w1. unfold disconnect, socket_close, readyState_of.
    rewrite Hws, Hk. simpl. by rewrite Hr. }
  assert (sockets w1 !! s
          = Some (mkSock CLOSING (s_userId k) (s_contractId k))) as Hk1.
  { rewrite Hw1. unfold set_ws, set_manager, set_readyState.
    cbn [sockets]. by rewrite list_lookup_alter_eq, Hk. }
  assert (length (sockets w1) = length (sockets w)) as Hlen.
  { rewrite Hw1. unfold set_ws, set_manager, set_readyState.
    cbn [sockets]. apply length_alter. }
  subst w2. rewrite (reconnect_cycle w1 s _ Hk1) by (by rewrite ?Hw1).
  cbv zeta. split_and!.
  - by rewrite Hw1.
  - unfold status. cbn [manager ws]. unfold readyState_of. cbn [sockets].
    rewrite list_lookup_middle; [done|].
    unfold set_readyState. cbn [sockets]. by rewrite length_alter.
  - cbn [manager ws]. by rewrite Hlen.
  - cbn [timers]. by rewrite Hw1.
Qed.

(** C7 fails on the code: user 1 is connected on document 7 and calls
    [disconnect()]; the manager forgets its socket, and when the socket's
    [close] event arrives a timer of 1000 ms is set, which calls
    [connect] again: the channel is connecting on a new socket. *)
Theorem disconnect_does_not_stop_reconnect :
  let w := after_disconnect in
  let w' := run disconnect_aftermath w in
  ws (manager w) = None ∧ status w = Disconnected
  ∧ timers w' = [mkTimer 1000 1 7 true]
  ∧ status w' = Connecting
  ∧ ws (manager w') = Some 1
  ∧ sockets w' !! 1 = Some (mkSock CONNECTING 1 7).
Proof. vm_compute. split_and!; reflexivity. Qed.

(** *** The retry schedule *)

Lemma pending_app_fired w t0 :
  fired t0 = true →
  filter (λ k, fired k = false) (timers w ++ [t0]) = pending w.
Proof.
  intros Hf. rewrite filter_app.
  rewrite filter_cons_False by (by rewrite Hf). simpl.
  by rewrite app_nil_r.
Qed.

(** A failure with attempts left: one more attempt is counted, one timer
    of [reconnectDelay * attempt] has been set and has fired, and the
    manager holds a new socket. *)
Lemma fail_live_below w :
  live w →
  reconnectAttempts (manager w) < maxReconnectAttempts (manager w) →
  live (fail w)
  ∧ reconnectAttempts (manager (fail w)) = S (reconnectAttempts (manager w))
  ∧ maxReconnectAttempts (manager (fail w))
    = maxReconnectAttempts (manager w)
  ∧ reconnectDelay (manager (fail w)) = reconnectDelay (manager w)
  ∧ ∃ t0, timers (fail w) = timers w ++ [t0]
          ∧ delay t0 = delay_of (reconnectDelay (manager w))
                                (S (reconnectAttempts (manager w))).
Proof.
  intros (s & k & Hws & Hk & Hr & Hp) Hlt.
  assert (fail w = run [Closed s; Timeout (length (timers w))] w) as ->.
  { unfold fail. by rewrite Hws. }
  rewrite (reconnect_cycle w s k Hk Hr Hlt). cbv zeta.
  split_and!; try done.
  - exists (length (sockets w)),
           (mkSock CONNECTING (s_userId k) (s_contractId k)).
    cbn [manager ws sockets]. split_and!; [done| |done|].
    + apply list_lookup_middle. unfold set_readyState. cbn [sockets].
      by rewrite length_alter.
    + unfold pending. cbn [timers].
      by rewrite pending_app_fired.
  - eexists. cbn [timers]. split; [done|]. done.
Qed.

(** A failure with no attempt left: nothing is scheduled and the
    manager is left with its closed socket. *)
Lemma fail_live_exhausted w :
  live w →
  maxReconnectAttempts (manager w) ≤ reconnectAttempts (manager w) →
  stopped (fail w) ∧ timers (fail w) = timers w
  ∧ manager (fail w) = manager w.
Proof.
  intros (s & k & Hws & Hk & Hr & Hp) Hge.
  assert (fail w = set_readyState s CLOSED w) as ->.
  { unfold fail. rewrite Hws. rewrite (step_Closed w s k) by done.
    rewrite attemptReconnect_exhausted by done.
    apply step_Timeout_none. cbn [set_readyState timers].
    by apply lookup_ge_None. }
  split_and!; [|done..].
  exists s, (mkSock CLOSED (s_userId k) (s_contractId k)).
  split_and!; [done| |done|done].
  unfold set_readyState. cbn [sockets].
  by rewrite list_lookup_alter_eq, Hk.
Qed.

Lemma fail_stopped w : stopped w → fail w = w.
Proof.
  intros (s & k & Hws & Hk & Hr & Hp). unfold fail. rewrite Hws.
  rewrite (step_Closed_again w s k) by done.
  apply step_Timeout_none. by apply lookup_ge_None.
Qed.

Lemma stopped_status w : stopped w → status w = Disconnected.
Proof.
  intros (s & k & Hws & Hk & Hr & _). unfold status, readyState_of.
  rewrite Hws, Hk. simpl. by rewrite Hr.
Qed.

(** The state after [n] failures in a row. *)
Lemma failures_in_a_row w n :
  live w →
  reconnectAttempts (manager w) ≤ maxReconnectAttempts (manager w) →
  let a := reconnectAttempts (manager w) in
  let M := maxReconnectAttempts (manager w) in
  let w' := Nat.iter n fail w in
  maxReconnectAttempts (manager w') = M
  ∧ reconnectDelay (manager w') = reconnectDelay (manager w)
  ∧ reconnectAttempts (manager w') = (a + n) `min` M
  ∧ (∃ ts, timers w' = timers w ++ ts
           ∧ delay <$> ts
             = delay_of (reconnectDelay (manager w))
               <$> seq (S a) (n `min` (M - a)))
  ∧ (n ≤ M - a → live w')
  ∧ (M - a < n → stopped w').
Proof.
  intros Hlive Hle a M. induction n as [|n IH]; cbv zeta in *;
    [|change (Nat.iter (S n) fail w) with (fail (Nat.iter n fail w))].
  - simpl. split_and!; [done|done|lia| |done|lia].
    exists []. by rewrite app_nil_r.
  - destruct IH as (HM & Hb & Ha & (ts & Hts & Hds) & Hl & Hs).
    set (wn := Nat.iter n fail w) in *.
    destruct (decide (n < M - a)) as [Hlt|Hge].
    + destruct (fail_live_below wn) as (Hl' & Ha' & HM' & Hb' & t0 & Ht0 & Hd0).
      { apply Hl. lia. }
      { rewrite Ha, HM. lia. }
      split_and!.
      * by rewrite HM'.
      * by rewrite Hb'.
      * rewrite Ha', Ha. lia.
      * exists (ts ++ [t0]). split; [by rewrite Ht0, Hts, app_assoc|].
        rewrite fmap_app, Hds.
        replace (n `min` (M - a)) with n by lia.
        replace (S n `min` (M - a)) with (S n) by lia.
        rewrite seq_S, fmap_app. f_equal.
        change (delay <$> [t0]) with [delay t0]. rewrite Hd0, Hb, Ha.
        change (delay_of (reconnectDelay (manager w)) <$> [S a + n])
          with [delay_of (reconnectDelay (manager w)) (S a + n)].
        do 2 f_equal. lia.
      * done.
      * lia.
    + destruct (decide (n = M - a)) as [Heq|Hne].
      * destruct (fail_live_exhausted wn) as (Hs' & Ht' & Hm').
        { apply Hl. lia. }
        { rewrite Ha, HM. lia. }
        rewrite Hm', Ht'. split_and!; [done|done|lia| |lia|done].
        exists ts. split; [done|]. rewrite Hds. f_equal. f_equal. lia.
      * assert (stopped wn) as Hst by (apply Hs; lia).
        rewrite (fail_stopped wn Hst).
        split_and!; [done|done|lia| |lia|done].
        exists ts. split; [done|]. rewrite Hds. f_equal. f_equal. lia.
Qed.

(** C6: the retry schedule.  From a state in which the manager holds a
    socket and no timer waits, with [a] attempts counted out of a maximum
    [M], [n] failures in a row set the timers of attempts [a+1], [a+2],
    ... and no more than [M - a] of them; the timer of attempt [k] waits
    [k * reconnectDelay]; the counter never passes [M]; once the budget
    is used up the manager stays disconnected with no timer waiting, and
    further failures change nothing.  An [attemptReconnect] with the
    budget used up leaves the whole state as it is, and the opening of a
    connecting socket sets the counter to 0.  The maximum is 5 and the
    base delay 1000 ms in a new manager. *)
Theorem reconnect_schedule w n :
  live w →
  reconnectAttempts (manager w) ≤ maxReconnectAttempts (manager w) →
  let a := reconnectAttempts (manager w) in
  let M := maxReconnectAttempts (manager w) in
  let w' := Nat.iter n fail w in
  delays_since w w'
  = delay_of (reconnectDelay (manager w)) <$> seq (S a) (n `min` (M - a))
  ∧ length (delays_since w w') ≤ M
  ∧ reconnectAttempts (manager w') = (a + n) `min` M
  ∧ (M - a < n →
     status w' = Disconnected ∧ pending w' = [] ∧ fail w' = w')
  ∧ (∀ u c w0,
       maxReconnectAttempts (manager w0) ≤ reconnectAttempts (manager w0) →
       attemptReconnect u c w0 = w0)
  ∧ (∀ s k w0,
       sockets w0 !! s = Some k → readyState k = CONNECTING →
       reconnectAttempts (manager (step (Opened s) w0)) = 0)
  ∧ maxReconnectAttempts (manager init) = 5
  ∧ reconnectDelay (manager init) = 1000.
Proof.
  intros Hlive Hle a M w'.
  destruct (failures_in_a_row w n Hlive Hle)
    as (HM & Hb & Ha & (ts & Hts & Hds) & Hl & Hs).
  fold w' in HM, Hb, Ha, Hts, Hl, Hs. fold a M in Ha, Hds, Hl, Hs.
  assert (delays_since w w'
          = delay_of (reconnectDelay (manager w))
            <$> seq (S a) (n `min` (M - a))) as Hdel.
  { unfold delays_since. by rewrite Hts, drop_app_length. }
  split_and!.
  - exact Hdel.
  - rewrite Hdel, length_fmap, length_seq. lia.
  - exact Ha.
  - intros Hn. specialize (Hs Hn). split_and!.
    + by apply stopped_status.
    + by destruct Hs as (? & ? & _ & _ & _ & ?).
    + by apply fail_stopped.
  - intros u c w0. apply attemptReconnect_exhausted.
  - intros s k w0 Hk Hr. rewrite (step_Opened w0 s k) by done.
    unfold onopen, send. cbn [set_reconnectAttempts set_manager manager].
    destruct (ws _); [|done]. by destruct (readyState_of _ _).
  - reflexivity.
  - reflexivity.
Qed.

Lemma reconnect_schedule_witness :
  let w := connect 1 7 init in
  let w' := Nat.iter 8 fail w in
  delays_since w w' = [1000; 2000; 3000; 4000; 5000]
  ∧ status w' = Disconnected ∧ pending w' = [].
Proof.
  intros w w'.
  assert (live w) as Hlive.
  { exists 0, (mkSock CONNECTING 1 7). split_and!; try reflexivity.
    discriminate. }
  assert (reconnectAttempts (manager w) ≤ maxReconnectAttempts (manager w))
    as Hle by (simpl; lia).
  destruct (reconnect_schedule w 8 Hlive Hle) as (H1 & _ & _ & H4 & _).
  destruct H4 as (H5 & H6 & _); [simpl; lia|].
  split_and!; [|exact H5|exact H6].
  etrans; [exact H1|]. vm_compute. reflexivity.
Defined.

End ClientFacts.

(** ** More on the router *)

Module RouterMore.
Import Router RouterFacts.

(** *** The shape of one step *)

(** A step leaves the store alone or applies one of the three store
    operations the handlers call. *)
Lemma storage_step env ev s :
  storage (step env ev s) = storage s
  ∨ (∃ ip, storage (step env ev s)
           = (MemStorage.upsertPresence ip (randomUUID env) (now env)
                                        (storage s)).1)
  ∨ (∃ d u, storage (step env ev s)
            = (MemStorage.updateContract d u (now env) (storage s)).1)
  ∨ (∃ u d, storage (step env ev s)
            = (MemStorage.removePresence u d (storage s)).1).
Proof.
  destruct ev as [c|c data| |c|c]; simpl.
  - destruct (connections s !! c); auto.
  - unfold on_message. destruct (connections s !! c) as [k|]; [|auto].
    assert (storage (dispatch env c k data s) = storage s
      ∨ (∃ ip, storage (dispatch env c k data s)
               = (MemStorage.upsertPresence ip (randomUUID env) (now env)
                                            (storage s)).1)
      ∨ (∃ d u, storage (dispatch env c k data s)
                = (MemStorage.updateContract d u (now env) (storage s)).1)
      ∨ (∃ u d, storage (dispatch env c k data s)
                = (MemStorage.removePresence u d (storage s)).1)) as Hd;
      [|by destruct (readyState k); auto].
    destruct data as [|message]; [by left|]. unfold dispatch.
    destruct (String.eqb (m_type message) "join").
    { destruct (truthy (m_userId message) && truthy (m_contractId message))
        eqn:Hg.
      - apply andb_true_iff in Hg as [Hu Hd].
        apply truthy_inv in Hu as (u & Hu & Hu0).
        apply truthy_inv in Hd as (d & Hd & Hd0).
        rewrite (join_accepted _ _ _ _ u d) by done. cbv zeta.
        right; left. by eexists.
      - left. by rewrite join_rejected. }
    destruct (String.eqb (m_type message) "cursor_move").
    { destruct (truthy (userId k) && truthy (contractId k)) eqn:Hg.
      - apply andb_true_iff in Hg as [Hu Hd].
        apply truthy_inv in Hu as (u & Hu & Hu0).
        apply truthy_inv in Hd as (d & Hd & Hd0).
        rewrite (cursor_move_accepted _ _ _ _ _ u d) by done.
        right; left. by eexists.
      - left. by rewrite cursor_move_rejected. }
    destruct (String.eqb (m_type message) "content_change"); [|by left].
    destruct (truthy (contractId k)) eqn:Hg.
    + apply truthy_inv in Hg as (d & Hd & Hd0).
      rewrite (content_change_accepted _ _ _ _ _ d) by done.
      right; right; left. by eexists _, _.
    + left. by rewrite content_change_rejected.
  - left. apply storage_resume.
  - destruct (readyState_of s c); auto.
  - unfold on_close. destruct (connections s !! c) as [k|]; [|auto].
    assert (∀ s0, storage s0 = storage s →
              storage (close_handler c k s0) = storage s
              ∨ ∃ u d, storage (close_handler c k s0)
                       = (MemStorage.removePresence u d (storage s)).1)
      as Hh.
    { intros s0 Hs0. unfold close_handler.
      destruct (userId k) as [u|], (contractId k) as [d|]; auto.
      case_match; auto. right. exists u, d.
      rewrite storage_broadcastToContract, <- Hs0.
      by destruct (clients _ !! d); [case_decide|]. }
    destruct (readyState k);
      try (destruct (Hh (set_readyState c CLOSED s) eq_refl) as [?|?]; auto);
      auto.
Qed.

Lemma keyed_step env ev s :
  MemStorage.keyed (storage s) → MemStorage.keyed (storage (step env ev s)).
Proof.
  intros Hk.
  destruct (storage_step env ev s)
    as [->|[(ip & ->)|[(d & u & ->)|(u & d & ->)]]];
    auto using MemStorageFacts.keyed_upsertPresence,
               MemStorageFacts.keyed_updateContract,
               MemStorageFacts.keyed_removePresence.
Qed.

Lemma keyed_run evs s :
  MemStorage.keyed (storage s) → MemStorage.keyed (storage (run evs s)).
Proof.
  revert s. induction evs as [|[env ev] evs IH]; intros s Hk; [done|].
  simpl. by apply IH, keyed_step.
Qed.

(** *** The store along a trace *)

(** In a keyed store [getPresenceByContract] never lists a user twice. *)
Lemma listed_users_NoDup d st :
  MemStorage.keyed st →
  NoDup (p_userId <$> MemStorage.getPresenceByContract d st).
Proof.
  intros Hk. unfold MemStorage.getPresenceByContract.
  assert (∀ x y : string * PresenceData,
            x ∈ map_to_list (MemStorage.presenceData st) →
            y ∈ map_to_list (MemStorage.presenceData st) →
            x.2 = y.2 → x = y) as Hinj.
  { intros [k1 p1] [k2 p2] H1%elem_of_map_to_list H2%elem_of_map_to_list.
    simpl. intros <-. f_equal.
    rewrite (Hk _ _ H1), (Hk _ _ H2). done. }
  apply NoDup_fmap_2_strong.
  - intros p q [[Hpc _] Hp]%list_elem_of_filter
           [[Hqc _] Hq]%list_elem_of_filter Hu.
    apply list_elem_of_fmap in Hp as [[k1 p1] [-> H1]].
    apply list_elem_of_fmap in Hq as [[k2 p2] [-> H2]].
    apply elem_of_map_to_list in H1, H2. simpl in *.
    pose proof (Hk _ _ H1) as E1. pose proof (Hk _ _ H2) as E2.
    simpl in E1, E2. rewrite Hu, Hpc, <- Hqc, <- E2 in E1. subst k2.
    congruence.
  - apply NoDup_filter, NoDup_fmap_2_strong; [|apply NoDup_map_to_list].
    intros x y Hx Hy. by apply Hinj.
Qed.

Lemma doms_step env ev s :
  dom (MemStorage.contracts (storage (step env ev s)))
  = dom (MemStorage.contracts (storage s))
  ∧ dom (MemStorage.presenceData (storage s))
    ⊆ dom (MemStorage.presenceData (storage (step env ev s))).
Proof.
  destruct (storage_step env ev s)
    as [->|[(ip & ->)|[(d & u & ->)|(u & d & ->)]]].
  - done.
  - unfold MemStorage.upsertPresence; simpl. split; [done|].
    rewrite dom_insert_L. apply union_subseteq_r.
  - unfold MemStorage.updateContract.
    destruct (MemStorage.contracts (storage s) !! d) as [doc|] eqn:Hd;
      simpl; [|done].
    split; [|done]. by apply dom_insert_lookup_L.
  - unfold MemStorage.removePresence.
    destruct (MemStorage.presenceData (storage s) !! _) as [p|] eqn:Hp;
      simpl; [|done].
    split; [done|]. rewrite dom_insert_L. apply union_subseteq_r.
Qed.

(** X1: The router creates no contract and deletes none, and it never takes
    a presence record out of the map: whatever the events, the stored
    contracts keep their ids and every presence key stays. *)
Theorem router_keeps_contracts_and_presence_keys evs s :
  dom (MemStorage.contracts (storage (run evs s)))
  = dom (MemStorage.contracts (storage s))
  ∧ dom (MemStorage.presenceData (storage s))
    ⊆ dom (MemStorage.presenceData (storage (run evs s))).
Proof.
  revert s. induction evs as [|[env ev] evs IH]; intros s; [done|].
  simpl. destruct (IH (step env ev s)) as [Hc Hp].
  destruct (doms_step env ev s) as [Hc' Hp'].
  split; [by rewrite Hc | by etrans].
Qed.

(** X2: Along any trace from a keyed store, the list of active presences of
    a document never shows a user twice. *)
Theorem active_users_listed_once evs st d :
  MemStorage.keyed st →
  NoDup (p_userId <$>
         MemStorage.getPresenceByContract d (storage (run evs (init st)))).
Proof. intros Hk. apply listed_users_NoDup, keyed_run, Hk. Qed.

Lemma active_users_listed_once_witness :
  NoDup (p_userId <$>
         MemStorage.getPresenceByContract 7
           (storage (run Scenario.join_join_close
                         (init MemStorage.empty)))).
Proof.
  apply (active_users_listed_once Scenario.join_join_close MemStorage.empty 7).
  apply MemStorageFacts.keyed_empty.
Defined.

(** *** The connections along a trace *)

Lemma connections_close_handler ws k s :
  connections (close_handler ws k s) = connections s.
Proof.
  unfold close_handler.
  destruct (userId k), (contractId k); try done.
  case_match; [|done]. rewrite connections_broadcastToContract. simpl.
  by destruct (clients _ !! _); [case_decide|].
Qed.

(** What a message does to the connections: nothing, or, for a [join] on
    a live socket, the assignment of the two closure variables. *)
Lemma connections_on_message env ws data s :
  connections (on_message env ws data s) = connections s
  ∨ ∃ m k, data = Parsed m ∧ m_type m = "join"
           ∧ connections s !! ws = Some k ∧ readyState k ≠ CLOSED
           ∧ connections (on_message env ws data s)
             = connections (set_closure ws (m_userId m) (m_contractId m) s).
Proof.
  unfold on_message. destruct (connections s !! ws) as [k|] eqn:Hk; [|auto].
  destruct (decide (readyState k = CLOSED)) as [Hr|Hr];
    [rewrite Hr; auto|].
  replace (match readyState k with
           | CLOSED => s
           | _ => dispatch env ws k data s
           end) with (dispatch env ws k data s)
    by by destruct (readyState k).
  destruct data as [|message]; [by left|]. unfold dispatch.
  destruct (String.eqb (m_type message) "join") eqn:Hj.
  { right. exists message, k. apply String.eqb_eq in Hj.
    split_and!; try done.
    destruct (truthy (m_userId message) && truthy (m_contractId message))
      eqn:Hg.
    - apply andb_true_iff in Hg as [Hu Hd].
      apply truthy_inv in Hu as (u & Hu & Hu0).
      apply truthy_inv in Hd as (d & Hd & Hd0).
      rewrite (join_accepted _ _ _ _ u d) by done. cbv zeta.
      simpl. by rewrite Hu, Hd.
    - by rewrite join_rejected. }
  left.
  destruct (String.eqb (m_type message) "cursor_move").
  { destruct (truthy (userId k) && truthy (contractId k)) eqn:Hg.
    - apply andb_true_iff in Hg as [Hu Hd].
      apply truthy_inv in Hu as (u & Hu & Hu0).
      apply truthy_inv in Hd as (d & Hd & Hd0).
      by rewrite (cursor_move_accepted _ _ _ _ _ u d) by done.
    - by rewrite cursor_move_rejected. }
  destruct (String.eqb (m_type message) "content_change"); [|done].
  destruct (truthy (contractId k)) eqn:Hg.
  - apply truthy_inv in Hg as (d & Hd & Hd0).
    by rewrite (content_change_accepted _ _ _ _ _ d) by done.
  - by rewrite content_change_rejected.
Qed.

Lemma connections_on_close ws s :
  connections (on_close ws s) = connections s
  ∨ ∃ k, connections s !! ws = Some k ∧ readyState k ≠ CLOSED
         ∧ connections (on_close ws s)
           = connections (set_readyState ws CLOSED s).
Proof.
  unfold on_close. destruct (connections s !! ws) as [k|] eqn:Hk; [|auto].
  destruct (decide (readyState k = CLOSED)) as [Hr|Hr];
    [rewrite Hr; auto|].
  right. exists k. split_and!; try done.
  destruct (readyState k); try done; apply connections_close_handler.
Qed.

(** A step touches the connection of the socket of its event only. *)
Lemma connections_step_other env ev s c :
  event_socket ev ≠ Some c →
  connections (step env ev s) !! c = connections s !! c.
Proof.
  destruct ev as [ws|ws data| |ws|ws]; simpl; intros Hne.
  - destruct (connections s !! ws); [done|]. simpl.
    rewrite lookup_insert_ne; [done|congruence].
  - destruct (connections_on_message env ws data s)
      as [->|(m & k & _ & _ & _ & _ & ->)]; [done|].
    simpl. rewrite lookup_alter_ne; [done|congruence].
  - by rewrite connections_resume.
  - destruct (readyState_of s ws); try done.
    simpl. rewrite lookup_alter_ne; [done|congruence].
  - destruct (connections_on_close ws s) as [->|(k & _ & _ & ->)]; [done|].
    simpl. rewrite lookup_alter_ne; [done|congruence].
Qed.

(** A closed socket stays closed. *)
Lemma closed_in_step env ev s ws :
  closed_in s ws → closed_in (step env ev s) ws.
Proof.
  intros (k & Hk & Hr).
  destruct (decide (event_socket ev = Some ws)) as [Hws|Hne];
    [|exists k; by rewrite connections_step_other].
  exists k. split; [|done].
  destruct ev as [c|c data| |c|c]; simpl in *; try done;
    injection Hws as ->.
  - by rewrite Hk.
  - unfold on_message. by rewrite Hk, Hr.
  - unfold readyState_of. by rewrite Hk; simpl; rewrite Hr.
  - unfold on_close. by rewrite Hk, Hr.
Qed.

(** *** What is sent, and to whom *)

Lemma readyState_of_OPEN s c :
  readyState_of s c = OPEN →
  ∃ k, connections s !! c = Some k ∧ readyState k ≠ CLOSED.
Proof.
  unfold readyState_of. destruct (connections s !! c) as [k|]; [|done].
  simpl. intros Hr. exists k. split; [done|]. by rewrite Hr.
Qed.

Lemma wire_broadcastToContract d out ex s :
  ∃ l, wire (broadcastToContract d out ex s) = wire s ++ l
       ∧ ∀ p, p ∈ l → readyState_of s p.1 = OPEN ∧ p.2 = out.
Proof.
  unfold broadcastToContract. destruct (clients s !! d) as [S|].
  - eexists. split; [done|]. intros p Hp.
    apply list_elem_of_fmap in Hp as (c & -> & Hc).
    apply list_elem_of_filter in Hc as [[_ Hr] _]. done.
  - exists []. split; [by rewrite app_nil_r|]. by intros p Hp%elem_of_nil.
Qed.

(** Every message a step puts on the wire goes to a socket that is known
    and not closed when the step starts. *)
Lemma wire_step env ev s :
  ∃ l, wire (step env ev s) = wire s ++ l
       ∧ ∀ p, p ∈ l →
              ∃ k, connections s !! p.1 = Some k ∧ readyState k ≠ CLOSED.
Proof.
  assert (∀ d out ex s1,
            wire s1 = wire s →
            (∀ c, readyState_of s1 c = OPEN → readyState_of s c = OPEN) →
            ∃ l, wire (broadcastToContract d out ex s1) = wire s ++ l
                 ∧ ∀ p, p ∈ l →
                     ∃ k, connections s !! p.1 = Some k
                          ∧ readyState k ≠ CLOSED) as Hb.
  { intros d out ex s1 Hw Hr.
    destruct (wire_broadcastToContract d out ex s1) as (l & Hl & Hp).
    exists l. rewrite Hl, Hw. split; [done|].
    intros p Hin. apply readyState_of_OPEN, Hr. by apply Hp. }
  assert (∃ l, wire s = wire s ++ l
               ∧ ∀ p, p ∈ l →
                   ∃ k, connections s !! p.1 = Some k
                        ∧ readyState k ≠ CLOSED) as Hnil.
  { exists []. split; [by rewrite app_nil_r|]. by intros p Hp%elem_of_nil. }
  destruct ev as [ws|ws data| |ws|ws]; simpl.
  - by destruct (connections s !! ws).
  - unfold on_message. destruct (connections s !! ws) as [k|] eqn:Hk; [|done].
    destruct (decide (readyState k = CLOSED)) as [Hr|Hr]; [by rewrite Hr|].
    replace (match readyState k with
             | CLOSED => s
             | _ => dispatch env ws k data s
             end) with (dispatch env ws k data s)
      by by destruct (readyState k).
    destruct data as [|message].
    { exists [(ws, error_reply)]. split; [done|].
      intros p ->%list_elem_of_singleton. simpl. eauto. }
    destruct (dispatch_parsed env ws k message s) as [-> _]. exact Hnil.
  - unfold resume.
    destruct (pending s) as [|[ws m|ws m|ws m] p]; [exact Hnil|..];
      unfold after_join, after_cursor_move, after_content_change,
             broadcastToClosure;
      (destruct (contractId _); [|exact Hnil]); by apply Hb.
  - by destruct (readyState_of s ws).
  - unfold on_close. destruct (connections s !! ws) as [k|] eqn:Hk; [|done].
    destruct (decide (readyState k = CLOSED)) as [Hr|Hr]; [by rewrite Hr|].
    replace (match readyState k with
             | CLOSED => s
             | _ => close_handler ws k (set_readyState ws CLOSED s)
             end) with (close_handler ws k (set_readyState ws CLOSED s))
      by by destruct (readyState k).
    unfold close_handler.
    destruct (userId k) as [u|], (contractId k) as [d|]; try done.
    case_match; [|done].
    apply Hb.
    + by destruct (clients _ !! d); [case_decide|].
    + intros c.
      assert (∀ s2, connections s2 = connections (set_readyState ws CLOSED s)
                → readyState_of s2 c = OPEN → readyState_of s c = OPEN)
        as Hs2.
      { intros s2 Hc. unfold readyState_of at 1. rewrite Hc.
        change (readyState_of (set_readyState ws CLOSED s) c = OPEN
                → readyState_of s c = OPEN).
        rewrite readyState_of_set_readyState. case_decide; [|done].
        subst c. by rewrite Hk. }
      apply Hs2. by destruct (clients _ !! d); [case_decide|].
Qed.

(** X3: A socket whose [close] event has been handled is sent nothing
    afterwards, whatever the events that follow. *)
Theorem closed_socket_receives_nothing evs s ws :
  closed_in s ws → received ws (run evs s) = received ws s.
Proof.
  revert s. induction evs as [|[env ev] evs IH]; intros s Hc; [done|].
  simpl. rewrite IH by by apply closed_in_step.
  destruct (wire_step env ev s) as (l & Hl & Hp).
  unfold received. rewrite Hl, filter_app, fmap_app.
  rewrite (MemStorageFacts.filter_none _ l); [by rewrite app_nil_r|].
  intros p Hin Heq. destruct (Hp p Hin) as (k & Hk & Hr).
  destruct Hc as (k' & Hk' & Hr'). rewrite Heq in Hk. congruence.
Qed.

Lemma closed_socket_receives_nothing_witness :
  let s := run Scenario.join_join_close (init Scenario.store7) in
  received 0%nat
    (run [(Scenario.env 6,
           Receive 1%nat (Parsed (Scenario.cursor_to 3 1)));
          (Scenario.env 7, Close 1%nat)] s)
  = received 0%nat s.
Proof.
  intros s. apply closed_socket_receives_nothing.
  exists (mkConnection (Some 1) (Some 7) CLOSED).
  split; [vm_compute; reflexivity | reflexivity].
Defined.

(** *** One event, in full *)

(** X4: A connection that has not joined can send what it wants, short of a
    [join]: nothing is stored, registered or sent. *)
Theorem unjoined_connection_is_inert env ws k ms s :
  connections s !! ws = Some k → unjoined k →
  Forall (λ m, m_type m ≠ "join") ms →
  run (receives env ws ms) s = s.
Proof.
  intros Hk [Hu Hd] Hms. induction Hms as [|m ms Hm _ IH]; [done|].
  simpl. replace (on_message env ws (Parsed m) s) with s; [exact IH|].
  unfold on_message. rewrite Hk.
  assert (dispatch env ws k (Parsed m) s = s) as ->;
    [|by destruct (readyState k)].
  unfold dispatch.
  destruct (String.eqb (m_type m) "join") eqn:Hj;
    [by apply String.eqb_eq in Hj|].
  rewrite cursor_move_rejected by by rewrite Hu.
  rewrite content_change_rejected by by rewrite Hd.
  by repeat case_match.
Qed.

Lemma unjoined_connection_is_inert_witness :
  let s := step (Scenario.env 7) (Connect 3%nat) Scenario.three_on_7 in
  run (receives (Scenario.env 8) 3%nat
         [Scenario.cursor_to 1 1; Scenario.content_of "x" 1]) s = s.
Proof.
  intros s.
  apply (unjoined_connection_is_inert _ _ (mkConnection None None OPEN)).
  - vm_compute. reflexivity.
  - split; reflexivity.
  - repeat constructor; discriminate.
Defined.

(** X5: A [content_change] for a document the store does not hold: up to
    the [await] the store stays as it is and nothing is sent, neither a
    reply nor an error; the rest of the handler is queued all the same,
    and when it runs with the closure as the event has left it, the
    [content_update] goes to the open subscribers of that document, the
    sender excepted. *)
Theorem content_change_unknown_document env env' ws k message d s :
  connections s !! ws = Some k → readyState k ≠ CLOSED →
  contractId k = Some d → d ≠ 0 →
  m_type message = "content_change" →
  MemStorage.contracts (storage s) !! d = None →
  let s1 := on_message env ws (Parsed message) s in
  storage s1 = storage s
  ∧ wire s1 = wire s
  ∧ pending s1 = pending s ++ [AfterContentChange ws message]
  ∧ ∀ s2, next_to_resume (AfterContentChange ws message) s2 →
          closure_kept ws s1 s2 →
          let s3 := resume env' s2 in
          storage s3 = storage s2
          ∧ received ws s3 = received ws s2
          ∧ delivered_to_open_others s2 s3 ws d
              (content_update (userId k) (m_content message) (now env')).
Proof.
  intros Hk Hr Hd Hd0 Ht Hdoc s1. subst s1.
  rewrite (on_message_content_change env ws k message d s) by done.
  rewrite (updateContract_missing d _ _ (storage s)) by done. simpl.
  split_and!; [done..|].
  intros s2 Hn [Hu2 Hd2]. split_and!.
  - apply storage_resume.
  - apply (resume_no_echo env' _ s2 Hn).
  - apply (resume_delivery env' (AfterContentChange ws message) s2
             (userId k) d Hn).
    rewrite (closure_lookup ws
               (await (AfterContentChange ws message)
                      (set_storage (storage s) s)) k Hk) in Hu2, Hd2.
    unfold closure_holds. simpl. split; congruence.
Qed.

Lemma content_change_unknown_document_witness :
  let s := run Scenario.join_join_close (init MemStorage.empty) in
  let s1 := on_message (Scenario.env 6) 1%nat
              (Parsed (Scenario.content_of "x" 1)) s in
  let s2 := resume (Scenario.env 7) s1 in
  storage s2 = storage s ∧ received 1%nat s2 = received 1%nat s.
Proof.
  intros s s1 s2.
  destruct (content_change_unknown_document (Scenario.env 6) (Scenario.env 7)
              1%nat (mkConnection (Some 2) (Some 7) OPEN)
              (Scenario.content_of "x" 1) 7 s) as (H1 & H2 & _ & H4).
  - vm_compute. reflexivity.
  - discriminate.
  - reflexivity.
  - lia.
  - reflexivity.
  - vm_compute. reflexivity.
  - destruct (H4 s1) as (H5 & H6 & _).
    + vm_compute. reflexivity.
    + split; reflexivity.
    + split.
      * etrans; [exact H5 | exact H1].
      * etrans; [exact H6|]. unfold received. fold s1 in H2. by rewrite H2.
Defined.

(** X6: An accepted [cursor_move] rewrites the presence of its user on its
    document: the list of active presences then holds one record for the
    pair, active, with the position of the message (none when the
    message has none) and the time of the move. *)
Theorem cursor_move_updates_presence env ws k message u d s :
  connections s !! ws = Some k → readyState k ≠ CLOSED →
  userId k = Some u → contractId k = Some d → u ≠ 0 → d ≠ 0 →
  m_type message = "cursor_move" →
  MemStorage.keyed (storage s) →
  let s' := on_message env ws (Parsed message) s in
  ∃ r, filter (about u d)
         (MemStorage.getPresenceByContract d (storage s')) = [r]
       ∧ p_position r = m_position message
       ∧ p_isActive r = Some true
       ∧ p_lastSeen r = now env
       ∧ clients s' = clients s.
Proof.
  intros Hk Hr Hu Hd Hu0 Hd0 Ht Hkeyed s'. subst s'.
  rewrite (on_message_live _ _ k) by done.
  unfold dispatch. rewrite Ht. simpl.
  rewrite (cursor_move_accepted _ _ _ _ _ u d) by done.
  eexists. split.
  - apply (MemStorageFacts.upsertPresence_listed (storage s) u d
             (m_position message) (randomUUID env) (now env) Hkeyed).
  - done.
Qed.

Lemma cursor_move_updates_presence_witness :
  let s := Scenario.three_on_7 in
  let s' := on_message (Scenario.env 9) 1%nat
              (Parsed (Scenario.cursor_to 4 2)) s in
  ∃ r, filter (about 2 7)
         (MemStorage.getPresenceByContract 7 (storage s')) = [r]
       ∧ p_position r = Some (mkPosition 4 2).
Proof.
  intros s s'.
  destruct (cursor_move_updates_presence (Scenario.env 9) 1%nat
              (mkConnection (Some 2) (Some 7) OPEN)
              (Scenario.cursor_to 4 2) 2 7 s) as (r & H1 & H2 & _).
  - vm_compute. reflexivity.
  - discriminate.
  - reflexivity.
  - reflexivity.
  - lia.
  - lia.
  - reflexivity.
  - apply keyed_run. intros key p. simpl. by rewrite lookup_empty.
  - exists r. split; [exact H1 | exact H2].
Defined.

(** *** One connection, in whatever turns its frames are handled *)

Lemma run_app evs1 evs2 s : run (evs1 ++ evs2) s = run evs2 (run evs1 s).
Proof.
  revert s. induction evs1 as [|[env ev] evs1 IH]; intros s; [done|].
  simpl. apply IH.
Qed.

Lemma open_other_ext ws d c s s' :
  clients s' = clients s → connections s' = connections s →
  open_other ws d c s' ↔ open_other ws d c s.
Proof.
  intros Hcl Hc. unfold open_other, subscribersOf, readyState_of.
  by rewrite Hcl, Hc.
Qed.

Lemma to_come_ext ws u d c s s' :
  clients s' = clients s → connections s' = connections s →
  to_come ws u d c s'
  = if decide (open_other ws d c s)
    then pending s' ≫= rest_announcement u else [].
Proof.
  intros Hcl Hc. unfold to_come.
  apply decide_ext, open_other_ext; done.
Qed.

(** An accepted [join] on a connection with nothing pending, up to its
    [await]. *)
Lemma first_join env ws k mj u d s :
  connections s !! ws = Some k → readyState k ≠ CLOSED →
  m_type mj = "join" → m_userId mj = Some u → m_contractId mj = Some d →
  u ≠ 0 → d ≠ 0 →
  let s1 := on_message env ws (Parsed mj) s in
  connections s1 !! ws = Some (mkConnection (Some u) (Some d) (readyState k))
  ∧ ws ∈ subscribersOf d s1
  ∧ clients s1 = <[d := {[ws]} ∪ subscribersOf d s]> (clients s)
  ∧ pending s1 = pending s ++ [AfterJoin ws mj]
  ∧ wire s1 = wire s
  ∧ ∀ c, open_other ws d c s1 ↔ open_other ws d c s.
Proof.
  intros Hk Hr Ht Hu Hd Hu0 Hd0 s1. subst s1.
  rewrite (on_message_live _ _ k) by done.
  unfold dispatch. rewrite Ht. simpl.
  rewrite (join_accepted _ _ _ _ u d) by done. cbv zeta.
  split_and!; try done.
  - simpl. by rewrite lookup_alter_eq, Hk.
  - unfold subscribersOf at 1. simpl. rewrite lookup_insert_eq. simpl.
    apply elem_of_union_l, elem_of_singleton. done.
  - intros c. unfold open_other.
    change (readyState_of
              (await (AfterJoin ws mj)
                 (set_storage _
                    (set_clients _ (set_closure ws (Some u) (Some d) s)))) c)
      with (readyState_of (set_closure ws (Some u) (Some d) s) c).
    rewrite readyState_of_set_closure.
    unfold subscribersOf at 1. simpl. rewrite lookup_insert_eq. simpl.
    rewrite elem_of_union, elem_of_singleton.
    change (default ∅ (clients s !! d)) with (subscribersOf d s).
    intuition congruence.
Qed.

(** The first frame of a schedule, on a connection with nothing
    pending: the [Resume]s before it do nothing. *)
Lemma schedule_first ws m ms evs s :
  pending s = [] → schedule_of ws (m :: ms) evs →
  ∃ env evs', schedule_of ws ms evs'
    ∧ ∀ tl, run (evs ++ tl) s
            = run (evs' ++ tl) (on_message env ws (Parsed m) s).
Proof.
  intros Hp. induction evs as [|[env ev] evs IH]; [done|].
  destruct ev as [c|c [|m']| |c|c]; simpl; try done.
  - intros (-> & -> & Hs). by exists env, evs.
  - intros Hs. destruct (IH Hs) as (env' & evs' & Hs' & Hrun).
    exists env', evs'. split; [done|]. intros tl.
    unfold resume. rewrite Hp. apply Hrun.
Qed.

(** A connection whose closure holds user [u] and document [d], and
    which is registered under [d], handles [cursor_move]s and [join]s of
    [u] for [d]: the registry and the connections do not change, and
    what another socket has got and is still to get grows by the
    announcement of each frame, in the order of the frames. *)
Lemma watched_schedule ws u d c evs :
  u ≠ 0 → d ≠ 0 →
  ∀ ms s k,
    connections s !! ws = Some k → readyState k ≠ CLOSED →
    userId k = Some u → contractId k = Some d →
    ws ∈ subscribersOf d s →
    Forall (rest_of_move_or_join ws) (pending s) →
    Forall (move_or_join u d) ms →
    schedule_of ws ms evs →
    connections (run evs s) = connections s
    ∧ clients (run evs s) = clients s
    ∧ received c (run evs s) ++ to_come ws u d c (run evs s)
      = received c s ++ to_come ws u d c s
        ++ if decide (open_other ws d c s)
           then announcement u <$> ms else [].
Proof.
  intros Hu0 Hd0.
  induction evs as [|[env ev] evs IH]; intros ms s k Hk Hr Hu Hd Hin Hp Hms.
  { simpl. intros ->. split_and!; [done..|].
    rewrite fmap_nil. by destruct (decide _); rewrite !app_nil_r. }
  destruct ev as [ws'|ws' [|m]| |ws'|ws']; simpl; try done.
  - (* a frame *)
    destruct ms as [|m' ms]; [done|]. intros (-> & -> & Hs).
    apply Forall_cons in Hms as [Hm Hms].
    set (s1 := on_message env ws (Parsed m') s).
    assert (connections s1 = connections s ∧ clients s1 = clients s
            ∧ wire s1 = wire s
            ∧ pending s1 ≫= rest_announcement u
              = (pending s ≫= rest_announcement u) ++ [announcement u m']
            ∧ Forall (rest_of_move_or_join ws) (pending s1))
      as (Hc1 & Hcl1 & Hw1 & Hp1 & Hf1).
    { subst s1. rewrite (on_message_live _ _ k) by done. unfold dispatch.
      destruct Hm as [Ht|(Ht & Hmu & Hmd)]; rewrite Ht; simpl.
      - rewrite (cursor_move_accepted _ _ _ _ _ u d) by done. simpl.
        split_and!; [done..| |].
        + rewrite bind_app. unfold announcement. by rewrite Ht.
        + apply Forall_app. split; [done|]. constructor; [|done].
          exists m'. by right.
      - rewrite (join_accepted _ _ _ _ u d) by done. cbv zeta. simpl.
        split_and!; [| |done| |].
        + apply alter_id. intros x Hx. rewrite Hk in Hx.
          injection Hx as <-. destruct k; simpl in *. congruence.
        + apply map_eq. intros d'. rewrite lookup_insert.
          case_decide; [|done]. subst d'.
          change (subscribersOf d (set_closure ws (Some u) (Some d) s))
            with (subscribersOf d s).
          unfold subscribersOf in Hin |- *. simpl.
          destruct (clients s !! d) as [S|] eqn:HS; simpl in Hin |- *.
          * f_equal. apply leibniz_equiv. intros x. rewrite elem_of_union,
              elem_of_singleton. split; [intros [->|?]; done | auto].
          * by apply not_elem_of_empty in Hin.
        + rewrite bind_app. unfold announcement. by rewrite Ht.
        + apply Forall_app. split; [done|]. constructor; [|done].
          exists m'. by left. }
    destruct (IH ms s1 k) as (Hc2 & Hcl2 & Hrc2); try done.
    { by rewrite Hc1. }
    { unfold subscribersOf. by rewrite Hcl1. }
    split_and!; [congruence|congruence|].
    rewrite Hrc2. rewrite (to_come_ext ws u d c s s1) by done.
    rewrite (decide_ext _ _ _ _ (open_other_ext ws d c s s1 Hcl1 Hc1)).
    unfold to_come, received. rewrite Hw1, Hp1, fmap_cons.
    destruct (decide (open_other ws d c s)); [|done].
    by rewrite <- !app_assoc.
  - (* a handler goes on *)
    intros Hs.
    assert (connections (resume env s) = connections s
            ∧ clients (resume env s) = clients s
            ∧ Forall (rest_of_move_or_join ws) (pending (resume env s))
            ∧ received c (resume env s) ++ to_come ws u d c (resume env s)
              = received c s ++ to_come ws u d c s)
      as (Hc1 & Hcl1 & Hf1 & Hrc1).
    { split_and!; [apply connections_resume | apply clients_resume | |].
      - rewrite pending_resume. destruct (pending s); [done|].
        by apply Forall_cons in Hp as [_ ?].
      - rewrite (to_come_ext ws u d c s (resume env s))
          by (apply clients_resume || apply connections_resume).
        rewrite pending_resume. unfold to_come.
        destruct (pending s) as [|rest p] eqn:Hps.
        { unfold resume. rewrite Hps. done. }
        apply Forall_cons in Hp as [(m & Hrest) _].
        assert (rest_socket rest = ws) as Hws by (by destruct Hrest as [->| ->]).
        assert (rest_announcement u rest = [rest_broadcast env (Some u) rest])
          as Ha by (by destruct Hrest as [->| ->]).
        assert (next_to_resume rest s) as Hn
          by (unfold next_to_resume; by rewrite Hps).
        pose proof (resume_delivery env rest s (Some u) d Hn) as Hdel.
        rewrite Hws in Hdel.
        assert (closure_holds ws (Some u) (Some d) s) as Hch.
        { unfold closure_holds. by rewrite (closure_lookup ws s k Hk). }
        rewrite (Hdel Hch c).
        rewrite (decide_ext _ (open_other ws d c s)).
        2:{ apply (open_other_ext ws d c s (resume env s));
              [apply clients_resume | apply connections_resume]. }
        simpl. rewrite Ha.
        destruct (decide (open_other ws d c s));
          [by rewrite <- app_assoc | by rewrite !app_nil_r]. }
    destruct (IH ms (resume env s) k) as (Hc2 & Hcl2 & Hrc2); try done.
    { by rewrite Hc1. }
    { unfold subscribersOf. by rewrite Hcl1. }
    split_and!; [congruence|congruence|].
    rewrite Hrc2, app_assoc, Hrc1, <- app_assoc.
    by rewrite (decide_ext _ _ _ _
                  (open_other_ext ws d c s (resume env s) Hcl1 Hc1)).
Qed.

(** X7: A second accepted [join] of the same socket for the same document,
    in whatever turns the two frames are handled: once both handlers
    have gone on after their [await], the registry is what one [join]
    leaves, and the user has been announced twice to the open
    subscribers of the document, the sender excepted, and to nobody
    else. *)
Theorem join_again_reannounces ws k message u d s evs :
  connections s !! ws = Some k → readyState k ≠ CLOSED →
  pending s = [] →
  m_type message = "join" →
  m_userId message = Some u → m_contractId message = Some d →
  u ≠ 0 → d ≠ 0 →
  schedule_of ws [message; message] evs →
  pending (run evs s) = [] →
  let s' := run evs s in
  clients s' = <[d := {[ws]} ∪ subscribersOf d s]> (clients s)
  ∧ ∀ c, received c s'
         = received c s ++
           if decide (c ∈ subscribersOf d s ∧ c ≠ ws
                      ∧ readyState_of s c = OPEN)
           then [joined_update u (m_position message);
                 joined_update u (m_position message)]
           else [].
Proof.
  intros Hk Hr Hp Ht Hu Hd Hu0 Hd0 Hs Hend s'. subst s'.
  destruct (schedule_first ws message [message] evs s Hp Hs)
    as (env & evs' & Hs' & Hrun).
  specialize (Hrun []). rewrite !app_nil_r in Hrun. rewrite Hrun in *.
  destruct (first_join env ws k message u d s Hk Hr Ht Hu Hd Hu0 Hd0)
    as (Hk1 & Hin1 & Hcl1 & Hp1 & Hw1 & Hopen). cbv zeta in *.
  set (s1 := on_message env ws (Parsed message) s) in *.
  assert (Forall (move_or_join u d) [message]) as Hms.
  { constructor; [|done]. by right. }
  assert (Forall (rest_of_move_or_join ws) (pending s1)) as Hf1.
  { rewrite Hp1, Hp. constructor; [|done]. exists message. by left. }
  split.
  - destruct (watched_schedule ws u d ws evs' Hu0 Hd0 [message] s1 _
                Hk1 Hr eq_refl eq_refl Hin1 Hf1 Hms Hs') as (_ & -> & _).
    done.
  - intros c.
    destruct (watched_schedule ws u d c evs' Hu0 Hd0 [message] s1 _
                Hk1 Hr eq_refl eq_refl Hin1 Hf1 Hms Hs') as (_ & _ & Hrc).
    unfold to_come in Hrc at 1. rewrite Hend in Hrc.
    assert ((if decide (open_other ws d c (run evs' s1))
             then [] ≫= rest_announcement u else []) = []) as Hnil
      by by destruct (decide _).
    rewrite Hnil, app_nil_r in Hrc. rewrite Hrc.
    unfold to_come. rewrite Hp1, Hp.
    assert (received c s1 = received c s) as ->
      by (unfold received; by rewrite Hw1).
    f_equal.
    destruct (decide (open_other ws d c s1)) as [Ho|Ho].
    + rewrite decide_True by (by apply Hopen).
      simpl. unfold announcement. by rewrite Ht.
    + rewrite decide_False by (intros ?; apply Ho; by apply Hopen). done.
Qed.

Lemma join_again_reannounces_witness :
  let s := Scenario.three_on_7 in
  let m := Scenario.join_of 1 7 (Some (mkPosition 0 0)) in
  let s' := run [(Scenario.env 8, Receive 0%nat (Parsed m));
                 (Scenario.env 8, Receive 0%nat (Parsed m));
                 (Scenario.env 8, Resume); (Scenario.env 8, Resume)] s in
  clients s' = clients s
  ∧ received 1%nat s'
    = received 1%nat s ++ [joined_update 1 (Some (mkPosition 0 0));
                           joined_update 1 (Some (mkPosition 0 0))].
Proof.
  intros s m s'.
  destruct (join_again_reannounces 0%nat
              (mkConnection (Some 1) (Some 7) OPEN) m 1 7 s
              [(Scenario.env 8, Receive 0%nat (Parsed m));
               (Scenario.env 8, Receive 0%nat (Parsed m));
               (Scenario.env 8, Resume); (Scenario.env 8, Resume)])
    as [H1 H2].
  - vm_compute. reflexivity.
  - discriminate.
  - vm_compute. reflexivity.
  - reflexivity.
  - reflexivity.
  - reflexivity.
  - lia.
  - lia.
  - simpl. auto.
  - vm_compute. reflexivity.
  - split.
    + etrans; [exact H1|]. vm_compute. reflexivity.
    + etrans; [exact (H2 1%nat)|]. vm_compute. reflexivity.
Defined.

(** *** Leaving *)

(** The [close] of a live connection whose closure holds a user and a
    document, as a broadcast from an intermediate state. *)
Lemma on_close_joined ws k u d s :
  connections s !! ws = Some k → readyState k ≠ CLOSED →
  userId k = Some u → contractId k = Some d → u ≠ 0 → d ≠ 0 →
  ∃ s1, on_close ws s = broadcastToContract d (left_update u) None s1
        ∧ wire s1 = wire s
        ∧ connections s1 = connections (set_readyState ws CLOSED s)
        ∧ storage s1 = (MemStorage.removePresence u d (storage s)).1
        ∧ ∀ d', subscribersOf d' s1
                = if decide (d' = d) then subscribersOf d s ∖ {[ws]}
                  else subscribersOf d' s.
Proof.
  intros Hk Hr Hu Hd Hu0 Hd0. unfold on_close. rewrite Hk.
  replace (match readyState k with
           | CLOSED => s
           | _ => close_handler ws k (set_readyState ws CLOSED s)
           end) with (close_handler ws k (set_readyState ws CLOSED s))
    by by destruct (readyState k).
  unfold close_handler. rewrite Hu, Hd.
  rewrite (truthy_Some u Hu0), (truthy_Some d Hd0). simpl.
  eexists. split; [reflexivity|].
  destruct (clients s !! d) as [S|] eqn:HS; simpl.
  - case_decide as Hsz; simpl; split_and!; try done.
    + intros d'. unfold subscribersOf. simpl. rewrite lookup_delete.
      case_decide as Hd'; [subst d'|].
      * rewrite decide_True by done. rewrite HS. simpl.
        symmetry. by apply leibniz_equiv, size_empty_iff.
      * by rewrite decide_False by done.
    + intros d'. unfold subscribersOf. simpl. rewrite lookup_insert.
      case_decide as Hd'; [subst d'|].
      * rewrite decide_True by done. by rewrite HS.
      * by rewrite decide_False by done.
  - split_and!; try done.
    intros d'. unfold subscribersOf. simpl.
    case_decide as Hd'; [subst d'|done].
    rewrite HS. simpl. apply leibniz_equiv. intros c.
    rewrite elem_of_difference. split; [by intros ?%not_elem_of_empty|].
    by intros [?%not_elem_of_empty _].
Qed.

(** X8: The [close] of a joined connection: the socket leaves the set of its
    document and no other set changes; in a keyed store no active
    presence of its user on the document is listed any more; the [left]
    notice goes to the other open subscribers of the document, and to
    nobody else. *)
Theorem close_unregisters_and_announces ws k u d s :
  connections s !! ws = Some k → readyState k ≠ CLOSED →
  userId k = Some u → contractId k = Some d → u ≠ 0 → d ≠ 0 →
  MemStorage.keyed (storage s) →
  let s' := on_close ws s in
  subscribersOf d s' = subscribersOf d s ∖ {[ws]}
  ∧ (∀ d', d' ≠ d → subscribersOf d' s' = subscribersOf d' s)
  ∧ (∀ q, q ∈ MemStorage.getPresenceByContract d (storage s') →
          p_userId q ≠ u)
  ∧ (∀ c, received c s'
          = received c s ++
            if decide (c ∈ subscribersOf d s ∧ c ≠ ws
                       ∧ readyState_of s c = OPEN)
            then [left_update u] else []).
Proof.
  intros Hk Hr Hu Hd Hu0 Hd0 Hkeyed s'. subst s'.
  destruct (on_close_joined ws k u d s Hk Hr Hu Hd Hu0 Hd0)
    as (s1 & -> & Hw & Hc & Hst & Hsub).
  split_and!.
  - rewrite subscribersOf_broadcastToContract, Hsub. by rewrite decide_True.
  - intros d' Hne.
    rewrite subscribersOf_broadcastToContract, Hsub.
    by rewrite decide_False.
  - rewrite storage_broadcastToContract, Hst.
    intros q Hq Hqu.
    pose proof (MemStorageFacts.keyed_removePresence u d _ Hkeyed) as Hk'.
    apply MemStorageFacts.elem_of_getPresenceByContract in Hq
      as [[key Hkey] [Hqc Hact]].
    pose proof (MemStorageFacts.keyed_lookup_about _ _ _ u d Hk' Hkey
                  (conj Hqu Hqc)) as ->.
    unfold MemStorage.removePresence in Hkey.
    destruct (MemStorage.presenceData (storage s)
                !! MemStorage.presence_key u d) as [p|] eqn:Hp;
      simpl in Hkey.
    + rewrite lookup_insert_eq in Hkey. injection Hkey as <-. done.
    + congruence.
  - intros c. rewrite received_broadcastToContract.
    replace (received c s1) with (received c s)
      by (unfold received; by rewrite Hw).
    f_equal. apply decide_ext. rewrite Hsub, decide_True by done.
    unfold readyState_of at 1. rewrite Hc.
    change (from_option readyState CLOSED
              (connections (set_readyState ws CLOSED s) !! c))
      with (readyState_of (set_readyState ws CLOSED s) c).
    rewrite readyState_of_set_readyState, elem_of_difference,
            elem_of_singleton.
    case_decide as Hcw; [subst c; rewrite Hk|];
      intuition congruence.
Qed.

Lemma close_unregisters_and_announces_witness :
  let s := Scenario.three_on_7 in
  let s' := on_close 0%nat s in
  subscribersOf 7 s' = subscribersOf 7 s ∖ {[0%nat]}
  ∧ received 1%nat s' = received 1%nat s ++ [left_update 1].
Proof.
  intros s s'.
  destruct (close_unregisters_and_announces 0%nat
              (mkConnection (Some 1) (Some 7) OPEN) 1 7 s)
    as (H1 & _ & _ & H4).
  - vm_compute. reflexivity.
  - discriminate.
  - reflexivity.
  - reflexivity.
  - lia.
  - lia.
  - apply keyed_run. intros key p. simpl. by rewrite lookup_empty.
  - split; [exact H1|]. etrans; [exact (H4 1%nat)|].
    vm_compute. reflexivity.
Defined.

(** *** What a subscriber sees of another connection *)

(** X9: A subscriber [b] of document [d], with its socket open, watches
    another connection, with nothing pending on the router, join [d],
    move its cursor any number of times and close, in whatever turns
    the frames are handled: once every handler has gone on after its
    [await] and the [close] event has been handled, [b] has been sent
    one [joined], one [cursor_update] per move with the position of the
    move, and one [left], in this order and nothing else. *)
Theorem observer_sees_join_moves_leave env ws b k mj moves u d s evs :
  connections s !! ws = Some k → readyState k ≠ CLOSED →
  pending s = [] →
  b ≠ ws → b ∈ subscribersOf d s → readyState_of s b = OPEN →
  m_type mj = "join" → m_userId mj = Some u → m_contractId mj = Some d →
  u ≠ 0 → d ≠ 0 →
  Forall is_cursor_move moves →
  schedule_of ws (mj :: moves) evs →
  pending (run evs s) = [] →
  received b (run (evs ++ [(env, Close ws)]) s)
  = received b s
    ++ [joined_update u (m_position mj)]
    ++ ((λ m, cursor_update u (m_position m)) <$> moves)
    ++ [left_update u].
Proof.
  intros Hk Hr Hp Hb Hin Hop Ht Hu Hd Hu0 Hd0 Hms Hs Hend.
  destruct (schedule_first ws mj moves evs s Hp Hs)
    as (env1 & evs' & Hs' & Hrun).
  pose proof (Hrun []) as Hrun0. rewrite !app_nil_r in Hrun0.
  rewrite Hrun0 in Hend. rewrite Hrun, run_app. clear Hrun Hrun0.
  destruct (first_join env1 ws k mj u d s Hk Hr Ht Hu Hd Hu0 Hd0)
    as (Hk1 & Hin1 & Hcl1 & Hp1 & Hw1 & Hopen). cbv zeta in *.
  set (s1 := on_message env1 ws (Parsed mj) s) in *.
  assert (Forall (move_or_join u d) moves) as Hmoves.
  { eapply Forall_impl; [exact Hms|]. intros m Hm. by left. }
  assert (Forall (rest_of_move_or_join ws) (pending s1)) as Hf1.
  { rewrite Hp1, Hp. constructor; [|done]. exists mj. by left. }
  assert (open_other ws d b s) as Hob by done.
  assert (open_other ws d b s1) as Hob1 by by apply Hopen.
  destruct (watched_schedule ws u d b evs' Hu0 Hd0 moves s1 _
              Hk1 Hr eq_refl eq_refl Hin1 Hf1 Hmoves Hs')
    as (Hc2 & Hcl2 & Hrc).
  set (s2 := run evs' s1) in *.
  unfold to_come in Hrc. rewrite Hend, Hp1, Hp in Hrc.
  rewrite !(decide_True (P := open_other ws d b s1)) in Hrc by done.
  assert (open_other ws d b s2) as Hob2
    by by apply (open_other_ext ws d b s1 s2 Hcl2 Hc2).
  rewrite (decide_True (P := open_other ws d b s2)) in Hrc by done.
  simpl in Hrc. rewrite app_nil_r in Hrc.
  assert (received b s1 = received b s) as Hr1
    by (unfold received; by rewrite Hw1).
  assert (announcement u <$> moves
          = (λ m, cursor_update u (m_position m)) <$> moves) as Hann.
  { apply Forall_fmap_ext. eapply Forall_impl; [exact Hms|].
    intros m Hm. unfold announcement. unfold is_cursor_move in Hm.
    by rewrite Hm. }
  assert (connections s2 !! ws
          = Some (mkConnection (Some u) (Some d) (readyState k))) as Hk2
    by by rewrite Hc2.
  simpl.
  destruct (on_close_joined ws _ u d s2 Hk2) as (s3 & -> & Hw & Hc & _ & Hsub);
    try done.
  rewrite received_broadcastToContract.
  replace (received b s3) with (received b s2)
    by (unfold received; by rewrite Hw).
  rewrite decide_True.
  - rewrite Hrc, Hr1, Hann, <- !app_assoc. done.
  - destruct Hob2 as (Hin2 & _ & Hop2). split_and!; [|done|].
    + rewrite Hsub, decide_True by done.
      apply elem_of_difference. split; [done|].
      by intros ?%elem_of_singleton.
    + unfold readyState_of. rewrite Hc.
      change (readyState_of (set_readyState ws CLOSED s2) b = OPEN).
      by rewrite readyState_of_set_readyState, decide_False by done.
Qed.

Lemma observer_sees_join_moves_leave_witness :
  let s := step (Scenario.env 7) (Connect 3%nat) Scenario.three_on_7 in
  let evs := [(Scenario.env 8,
               Receive 3%nat (Parsed (Scenario.join_of 4 7 None)));
              (Scenario.env 8,
               Receive 3%nat (Parsed (Scenario.cursor_to 2 5)));
              (Scenario.env 8, Resume); (Scenario.env 8, Resume)] in
  received 1%nat (run (evs ++ [(Scenario.env 9, Close 3%nat)]) s)
  = received 1%nat s
    ++ [joined_update 4 None; cursor_update 4 (Some (mkPosition 2 5));
        left_update 4].
Proof.
  intros s evs.
  apply (observer_sees_join_moves_leave (Scenario.env 9) 3%nat 1%nat
           (mkConnection None None OPEN)
           (Scenario.join_of 4 7 None) [Scenario.cursor_to 2 5] 4 7 s evs).
  - vm_compute. reflexivity.
  - discriminate.
  - vm_compute. reflexivity.
  - lia.
  - refine (bool_decide_unpack _ _). vm_compute. exact I.
  - vm_compute. reflexivity.
  - reflexivity.
  - reflexivity.
  - reflexivity.
  - lia.
  - lia.
  - repeat constructor.
  - simpl. auto.
  - vm_compute. reflexivity.
Defined.

(** *** A connection that keeps to one document leaves no trace *)

Lemma registered_with_closure_step env ev s ws d :
  (∀ m, ev = Receive ws (Parsed m) → m_type m = "join" →
        truthy (m_userId m) = true ∧ m_contractId m = Some d ∧ d ≠ 0) →
  registered_with_closure ws d s →
  registered_with_closure ws d (step env ev s).
Proof.
  intros Hev Hinv d' Hin.
  (* the sender of an accepted [join]: its closure has just been set *)
  assert (∀ m k, ev = Receive ws (Parsed m) → m_type m = "join" →
            connections s !! ws = Some k → readyState k ≠ CLOSED →
            ∃ u, connections (step env ev s) !! ws
                 = Some (mkConnection (Some u) (Some d) (readyState k))
                 ∧ u ≠ 0 ∧ d ≠ 0
                 ∧ ∀ d0, ws ∈ subscribersOf d0 (step env ev s) →
                         ws ∈ subscribersOf d0 s ∨ d0 = d) as Hjoin.
  { intros m k -> Ht Hk Hr. destruct (Hev m eq_refl Ht) as (Hu & Hd & Hd0).
    apply truthy_inv in Hu as (u & Hu & Hu0). exists u. simpl.
    rewrite (on_message_live _ _ k) by done.
    unfold dispatch. rewrite Ht. simpl.
    rewrite (join_accepted _ _ _ _ u d) by done. cbv zeta.
    simpl.
    rewrite lookup_alter_eq, Hk. split_and!; try done.
    intros d0.
    unfold subscribersOf at 1. simpl. rewrite lookup_insert.
    case_decide; [by right|by left]. }
  destruct (decide (event_socket ev = Some ws)) as [Hws|Hne].
  - destruct ev as [c|c data| |c|c]; simpl in Hws; try done;
      injection Hws as ->.
    + (* Connect *)
      simpl in *. destruct (connections s !! ws) eqn:Hk; [by apply Hinv|].
      destruct (Hinv d' Hin) as (_ & k & u & Hk' & _). congruence.
    + (* Receive *)
      destruct (connections s !! ws) as [k|] eqn:Hk;
        [|simpl in *; unfold on_message in *; rewrite Hk in *;
          destruct (Hinv d' Hin) as (_ & k & u & Hk' & _); congruence].
      destruct (decide (readyState k = CLOSED)) as [Hr|Hr].
      { simpl in *. unfold on_message in *. rewrite Hk, Hr in *.
        destruct (Hinv d' Hin) as (_ & k' & u & Hk' & _ & _ & _ & _ & Hr').
        congruence. }
      destruct data as [|m].
      { simpl in *. rewrite (on_message_live _ _ k) in * by done.
        simpl in *. by apply Hinv. }
      destruct (decide (m_type m = "join")) as [Ht|Ht].
      * destruct (Hjoin m k eq_refl Ht eq_refl Hr)
          as (u & Hk' & Hu0 & Hd0 & Hsub).
        assert (d' = d) as ->.
        { destruct (Hsub d' Hin) as [Hold|?]; [|done].
          by destruct (Hinv d' Hold). }
        split; [done|]. eexists _, u. split_and!; try done.
      * simpl in *. rewrite (on_message_live _ _ k) in * by done.
        assert (String.eqb (m_type m) "join" = false) as Hj
          by by apply String.eqb_neq.
        assert (connections (dispatch env ws k (Parsed m) s) = connections s
                ∧ clients (dispatch env ws k (Parsed m) s) = clients s)
          as [Hc Hcl].
        { unfold dispatch. rewrite Hj.
          destruct (String.eqb (m_type m) "cursor_move").
          { destruct (truthy (userId k) && truthy (contractId k)) eqn:Hg.
            - apply andb_true_iff in Hg as [Hu Hd].
              apply truthy_inv in Hu as (u & Hu & Hu0).
              apply truthy_inv in Hd as (d0 & Hd & Hd0).
              by rewrite (cursor_move_accepted _ _ _ _ _ u d0) by done.
            - by rewrite cursor_move_rejected. }
          destruct (String.eqb (m_type m) "content_change"); [|done].
          destruct (truthy (contractId k)) eqn:Hg.
          - apply truthy_inv in Hg as (d0 & Hd & Hd0).
            by rewrite (content_change_accepted _ _ _ _ _ d0) by done.
          - by rewrite content_change_rejected. }
        unfold subscribersOf in Hin. rewrite Hcl in Hin.
        rewrite Hc. by apply Hinv.
    + (* Closing *)
      simpl in *. unfold readyState_of in *.
      destruct (connections s !! ws) as [k|] eqn:Hk; simpl in *;
        [|by apply Hinv].
      destruct (readyState k) eqn:Hr; try by apply Hinv.
      destruct (Hinv d' Hin) as (-> & k' & u & Hk' & Hu & Hu0 & Hd & Hd0 & _).
      split; [done|]. simpl. rewrite lookup_alter_eq, Hk. simpl.
      assert (k' = k) as -> by congruence.
      eexists _, u. split_and!; try done.
    + (* Close *)
      exfalso.
      destruct (subscribersOf_step env (Close ws) s ws d' Hin) as [Hold|?];
        [|done].
      destruct (Hinv d' Hold) as (-> & k & u & Hk & Hu & Hu0 & Hd & Hd0 & Hr).
      simpl in Hin.
      destruct (on_close_joined ws k u d s Hk Hr Hu Hd Hu0 Hd0)
        as (s1 & Heq & _ & _ & _ & Hsub).
      rewrite Heq, subscribersOf_broadcastToContract, Hsub in Hin.
      rewrite decide_True in Hin by done.
      apply elem_of_difference in Hin as [_ Hin]. apply Hin.
      by apply elem_of_singleton.
  - destruct (subscribersOf_step env ev s ws d' Hin) as [Hold|Ht].
    + destruct (Hinv d' Hold) as (-> & k & u & Hk & Hrest).
      split; [done|]. exists k, u.
      by rewrite connections_step_other.
    + exfalso. destruct ev as [c|c [|m]| |c|c]; simpl in *; try done.
      destruct (bool_decide (c = ws)) eqn:Hb; [|done].
      apply bool_decide_eq_true in Hb. congruence.
Qed.

(** X10: A socket that, whenever it sends a [join], sends it with a user and
    for one and the same document, is registered under no document once
    its [close] event has been handled, whatever else happened on the
    server in between. *)
Theorem single_document_connection_leaves_no_trace evs env st ws d :
  joins_only ws d evs →
  ∀ d', ws ∉ subscribersOf d' (run (evs ++ [(env, Close ws)]) (init st)).
Proof.
  intros Hj d' Hin. rewrite run_app in Hin.
  assert (∀ evs s, joins_only ws d evs →
            registered_with_closure ws d s →
            registered_with_closure ws d (run evs s)) as Hrun.
  { clear. induction evs as [|[env ev] evs IH]; intros s Hj Hs; [done|].
    simpl. apply IH.
    - intros env' m Hm. apply (Hj env' m). by right.
    - apply registered_with_closure_step; [|done].
      intros m -> Ht. apply (Hj env m); [by left|done]. }
  assert (registered_with_closure ws d (init st)) as H0.
  { intros d0 H. unfold subscribersOf in H. simpl in H.
    rewrite lookup_empty in H. by apply not_elem_of_empty in H. }
  pose proof (Hrun evs (init st) Hj H0) as Hinv.
  assert (registered_with_closure ws d
            (step env (Close ws) (run evs (init st)))) as Hinv'.
  { apply registered_with_closure_step; [|done]. by intros m [=]. }
  destruct (Hinv' d' Hin) as (_ & k & u & Hk & _ & _ & _ & _ & Hr).
  simpl in Hk. apply Hr.
  destruct (connections_on_close ws (run evs (init st)))
    as [Hc|(k0 & Hk0 & Hr0 & Hc)]; rewrite Hc in Hk.
  - destruct (subscribersOf_step env (Close ws) _ ws d' Hin) as [Hold|?];
      [|done].
    destruct (Hinv d' Hold) as (-> & k1 & u1 & Hk1 & Hu & Hu0 & Hd & Hd0 & Hr1).
    simpl in Hin.
    destruct (on_close_joined ws k1 u1 d _ Hk1 Hr1 Hu Hd Hu0 Hd0)
      as (s1 & Heq & _ & _ & _ & Hsub).
    rewrite Heq, subscribersOf_broadcastToContract, Hsub in Hin.
    rewrite decide_True in Hin by done.
    apply elem_of_difference in Hin as [_ Hin]. exfalso. apply Hin.
    by apply elem_of_singleton.
  - simpl in Hk. rewrite lookup_alter_eq, Hk0 in Hk. simpl in Hk.
    by injection Hk as <-.
Qed.

Lemma single_document_connection_leaves_no_trace_witness :
  0%nat ∉ subscribersOf 7
    (run (Scenario.join_join_close ++ [(Scenario.env 9, Close 0%nat)])
         (init Scenario.store7)).
Proof.
  apply (single_document_connection_leaves_no_trace
           Scenario.join_join_close (Scenario.env 9) Scenario.store7
           0%nat 7).
  intros env m Hin Ht.
  unfold Scenario.join_join_close in Hin.
  repeat (apply elem_of_cons in Hin as [Hin|Hin];
          [first [discriminate Hin
                 |injection Hin as -> ->;
                  split_and!; [reflexivity|reflexivity|lia]] |]).
  by apply elem_of_nil in Hin.
Defined.

(** *** Frames that do not parse *)



End RouterMore.

(** ** More on the channel manager *)

Module ClientMore.
Import Client Channel ClientFacts.
Local Open Scope nat_scope.

(** *** Bounds that hold whatever happens *)

Ltac unfold_handlers :=
  unfold disconnect, socket_close, send, on, off, onopen, onclose,
         onmessage, emit, connect, set_ws, set_reconnectAttempts,
         set_listeners, set_manager, set_readyState.

Lemma manager_constants_attemptReconnect u c w :
  maxReconnectAttempts (manager (attemptReconnect u c w))
  = maxReconnectAttempts (manager w)
  ∧ reconnectDelay (manager (attemptReconnect u c w))
    = reconnectDelay (manager w).
Proof. unfold attemptReconnect. by case_match. Qed.

Lemma manager_constants_step ev w :
  maxReconnectAttempts (manager (step ev w))
  = maxReconnectAttempts (manager w)
  ∧ reconnectDelay (manager (step ev w)) = reconnectDelay (manager w).
Proof.
  destruct ev as [u c| |m|e cb|e cb|s|s|s data|s|i]; simpl;
    try (unfold_handlers; simpl; repeat (case_match; simpl); done).
  - destruct (sockets w !! s) as [k|]; [|done].
    destruct (readyState k); try done.
    unfold onopen, send. simpl. by repeat case_match.
  - destruct (sockets w !! s) as [k|]; [|done].
    destruct (readyState k); try done;
      apply (manager_constants_attemptReconnect _ _
               (set_readyState s CLOSED w)).
Qed.

Lemma attempts_timers_step ev w :
  reconnectAttempts (manager w) ≤ maxReconnectAttempts (manager w) →
  Forall (λ t0, scheduled_delay (reconnectDelay (manager w))
                  (maxReconnectAttempts (manager w)) (delay t0))
         (timers w) →
  reconnectAttempts (manager (step ev w)) ≤ maxReconnectAttempts (manager w)
  ∧ Forall (λ t0, scheduled_delay (reconnectDelay (manager w))
                    (maxReconnectAttempts (manager w)) (delay t0))
           (timers (step ev w)).
Proof.
  intros Hle Hts.
  assert (∀ u c w0,
            manager w0 = manager w → timers w0 = timers w →
            reconnectAttempts (manager (attemptReconnect u c w0))
            ≤ maxReconnectAttempts (manager w)
            ∧ Forall (λ t0, scheduled_delay (reconnectDelay (manager w))
                              (maxReconnectAttempts (manager w)) (delay t0))
                     (timers (attemptReconnect u c w0))) as Hatt.
  { intros u c w0 Hm Ht. unfold attemptReconnect. rewrite Hm.
    destruct (Nat.ltb_spec (reconnectAttempts (manager w))
                           (maxReconnectAttempts (manager w))) as [Hlt|Hge];
      simpl; rewrite ?Hm, ?Ht; [|done].
    split; [lia|]. apply Forall_app. split; [done|].
    apply Forall_singleton. simpl.
    exists (S (reconnectAttempts (manager w))). split; [lia|done]. }
  destruct ev as [u c| |m|e cb|e cb|s|s|s data|s|i]; simpl;
    try (unfold_handlers; simpl; repeat (case_match; simpl);
         (done || (split; [lia|done]))).
  - destruct (sockets w !! s) as [k|]; [|done].
    destruct (readyState k); try done.
    unfold onopen, send. simpl. repeat case_match; simpl; split; (lia || done).
  - destruct (sockets w !! s) as [k|]; [|done].
    destruct (readyState k); try done; by apply Hatt.
  - destruct (timers w !! i) as [k|] eqn:Hk; [|done].
    destruct (fired k); [done|]. simpl. split; [done|].
    apply Forall_insert; [done|]. simpl.
    by apply (Forall_lookup_1 _ _ _ _ Hts Hk).
Qed.

(** X12: Whatever is called on a new manager and whatever its sockets and
    timers do, the attempt counter never passes 5, and every timer ever
    set waits 1000, 2000, 3000, 4000 or 5000 ms. *)
Theorem attempts_and_delays_bounded evs :
  let w := run evs init in
  maxReconnectAttempts (manager w) = 5
  ∧ reconnectDelay (manager w) = 1000
  ∧ reconnectAttempts (manager w) ≤ 5
  ∧ Forall (λ t0, scheduled_delay 1000 5 (delay t0)) (timers w).
Proof.
  assert (∀ evs w,
            maxReconnectAttempts (manager w) = 5 →
            reconnectDelay (manager w) = 1000 →
            reconnectAttempts (manager w) ≤ 5 →
            Forall (λ t0, scheduled_delay 1000 5 (delay t0)) (timers w) →
            maxReconnectAttempts (manager (run evs w)) = 5
            ∧ reconnectDelay (manager (run evs w)) = 1000
            ∧ reconnectAttempts (manager (run evs w)) ≤ 5
            ∧ Forall (λ t0, scheduled_delay 1000 5 (delay t0))
                     (timers (run evs w))) as Hrun.
  { clear. induction evs as [|ev evs IH]; intros w HM Hb Ha Ht; [done|].
    simpl. destruct (manager_constants_step ev w) as [HM' Hb'].
    destruct (attempts_timers_step ev w) as [Ha' Ht'];
      rewrite ?HM, ?Hb; try done.
    rewrite HM, Hb in *. by apply IH; rewrite ?HM', ?Hb'. }
  intros w. apply Hrun; simpl; try done. lia.
Qed.

(** *** Which socket carries the [join] *)

Lemma send_dropped message w :
  (∀ s2, ws (manager w) = Some s2 → readyState_of w s2 ≠ OPEN) →
  send message w = w.
Proof.
  intros Hcur. unfold send. destruct (ws (manager w)) as [s2|]; [|done].
  specialize (Hcur s2 eq_refl). by destruct (readyState_of w s2).
Qed.

(** X13: [onopen] sends through [this.ws].  When a socket opens that is not
    the manager's current one, and the current one is not open, no
    [join] is sent at all: the opened socket stays unjoined, while the
    attempt counter is reset all the same. *)
Theorem superseded_socket_never_joins w s k :
  sockets w !! s = Some k → readyState k = CONNECTING →
  ws (manager w) ≠ Some s →
  (∀ s2, ws (manager w) = Some s2 → readyState_of w s2 ≠ OPEN) →
  let w' := step (Opened s) w in
  wire w' = wire w
  ∧ readyState_of w' s = OPEN
  ∧ reconnectAttempts (manager w') = 0
  ∧ ws (manager w') = ws (manager w).
Proof.
  intros Hk Hr Hne Hcur w'. subst w'.
  rewrite (step_Opened w s k) by done.
  unfold onopen. set (w1 := set_reconnectAttempts 0 (set_readyState s OPEN w)).
  rewrite send_dropped.
  - split_and!; try done.
    apply (readyState_of_set_readyState_eq w s OPEN k Hk).
  - intros s2 Hs2. change (ws (manager w) = Some s2) in Hs2.
    assert (s2 ≠ s) as Hs2' by congruence.
    change (readyState_of (set_readyState s OPEN w) s2 ≠ OPEN).
    unfold readyState_of, set_readyState. cbn [sockets].
    rewrite list_lookup_alter_ne by done. by apply Hcur.
Qed.

Lemma superseded_socket_never_joins_witness :
  let w := run [CallConnect 1 7; CallConnect 2 8] init in
  let w' := step (Opened 0) w in
  wire w' = wire w ∧ readyState_of w' 0 = OPEN.
Proof.
  intros w w'.
  destruct (superseded_socket_never_joins w 0 (mkSock CONNECTING 1 7))
    as (H1 & H2 & _).
  - reflexivity.
  - reflexivity.
  - vm_compute. discriminate.
  - intros s2 Hs2. vm_compute in Hs2. injection Hs2 as <-.
    vm_compute. discriminate.
  - split; [exact H1 | exact H2].
Defined.

(** *** Callbacks *)

Lemma listeners_of_on w e cb e' :
  listeners_of (on e cb w) e'
  = if decide (e = e') then
      if decide (cb ∈ listeners_of w e) then listeners_of w e
      else listeners_of w e ++ [cb]
    else listeners_of w e'.
Proof.
  unfold listeners_of, on. cbn [set_listeners set_manager manager listeners].
  rewrite lookup_insert. by case_decide.
Qed.

Lemma listeners_of_off w e cb e' :
  listeners_of (off e cb w) e'
  = if decide (e = e') then filter (λ f, f ≠ cb) (listeners_of w e)
    else listeners_of w e'.
Proof.
  unfold listeners_of, off.
  destruct (listeners (manager w) !! e) as [l|] eqn:Hl.
  - cbn [set_listeners set_manager manager listeners].
    rewrite lookup_insert. by case_decide.
  - case_decide; [subst e'|done]. by rewrite Hl.
Qed.

(** X14: [on] and [off] treat the callbacks of an event as a set: [on] twice
    is [on] once; after [off] the callback is gone; and [off] after [on]
    of a callback that was not registered gives back the callbacks there
    were, in their order, with the other events untouched. *)
Theorem on_off_round_trip w e cb :
  on e cb (on e cb w) = on e cb w
  ∧ cb ∈ listeners_of (on e cb w) e
  ∧ (cb ∉ listeners_of (off e cb w) e)
  ∧ (cb ∉ listeners_of w e →
     ∀ e', listeners_of (off e cb (on e cb w)) e' = listeners_of w e').
Proof.
  assert (cb ∈ listeners_of (on e cb w) e) as Hin.
  { rewrite listeners_of_on, (decide_True (P := e = e)) by done.
    case_decide; [done|]. apply elem_of_app. right. by left. }
  split_and!.
  - unfold on at 1. cbn [set_listeners set_manager manager listeners].
    change (default [] (listeners (manager (on e cb w)) !! e))
      with (listeners_of (on e cb w) e).
    rewrite (decide_True (P := cb ∈ listeners_of (on e cb w) e)) by done.
    unfold listeners_of, on.
    cbn [set_listeners set_manager manager listeners].
    rewrite lookup_insert_eq. cbn [default from_option].
    by rewrite insert_insert_eq.
  - done.
  - rewrite listeners_of_off, (decide_True (P := e = e)) by done.
    by intros [? _]%list_elem_of_filter.
  - intros Hnot e'. rewrite listeners_of_off, !listeners_of_on.
    rewrite (decide_True (P := e = e)) by done.
    rewrite (decide_False (P := cb ∈ listeners_of w e)) by done.
    case_decide; [subst e'|done].
    rewrite filter_app, filter_cons_False by (by intros ?).
    rewrite filter_nil, app_nil_r.
    clear -Hnot. induction (listeners_of w e) as [|x l IH]; [done|].
    apply not_elem_of_cons in Hnot as [Hx Hl].
    rewrite filter_cons_True by done. f_equal. by apply IH.
Qed.

Lemma listeners_NoDup_step ev w :
  listeners_NoDup w → listeners_NoDup (step ev w).
Proof.
  intros Hnd.
  assert (∀ w0, listeners (manager w0) = listeners (manager w) →
                listeners_NoDup w0) as Hsame.
  { intros w0 H e l. rewrite H. apply Hnd. }
  destruct ev as [u c| |m|e cb|e cb|s|s|s data|s|i]; simpl.
  - by apply Hsame.
  - apply Hsame. unfold_handlers. by repeat (case_match; simpl).
  - apply Hsame. unfold_handlers. by repeat (case_match; simpl).
  - intros e' l. unfold on.
    cbn [set_listeners set_manager manager listeners].
    rewrite lookup_insert. case_decide; [|apply Hnd].
    intros [= <-].
    assert (NoDup (default [] (listeners (manager w) !! e))) as Hl.
    { destruct (listeners (manager w) !! e) eqn:He; simpl;
        [by eapply Hnd | constructor]. }
    case_decide; [done|].
    apply NoDup_app. split_and!; [done| |apply NoDup_singleton].
    intros x Hx ->%list_elem_of_singleton. done.
  - intros e' l. unfold off.
    destruct (listeners (manager w) !! e) as [l0|] eqn:He; [|apply Hnd].
    cbn [set_listeners set_manager manager listeners].
    rewrite lookup_insert. case_decide; [|apply Hnd].
    intros [= <-]. apply NoDup_filter. by eapply Hnd.
  - apply Hsame. destruct (sockets w !! s) as [k|]; [|done].
    destruct (readyState k); try done.
    unfold onopen, send. simpl. by repeat case_match.
  - apply Hsame. destruct (sockets w !! s) as [k|]; [|done].
    destruct (readyState k); try done;
      unfold onclose, attemptReconnect; by case_match.
  - apply Hsame. destruct (readyState_of w s); try done.
    unfold onmessage, emit. by repeat case_match.
  - by apply Hsame.
  - apply Hsame. destruct (timers w !! i) as [k|]; [|done].
    by destruct (fired k).
Qed.

Lemma step_Received_open w s data :
  readyState_of w s = OPEN →
  step (Received s data) w
  = mk (manager w) (sockets w) (timers w) (wire w)
       (delivered w ++ fan_out w data).
Proof.
  intros Hr. simpl. rewrite Hr. destruct w as [m so ti wi de].
  destruct data as [|message]; simpl.
  - by rewrite app_nil_r.
  - unfold emit, fan_out, listeners_of. simpl.
    destruct (listeners m !! m_type message); simpl; [done|].
    by rewrite app_nil_r.
Qed.

(** X15: Frames arriving on an open socket are handed to the callbacks in
    the order of receipt: each frame goes to the callbacks registered
    for its kind, a frame that does not parse goes to nobody, and
    nothing else of the manager changes. *)
Theorem frames_fan_out_in_order w s frames :
  readyState_of w s = OPEN →
  run (Received s <$> frames) w
  = mk (manager w) (sockets w) (timers w) (wire w)
       (delivered w ++ (frames ≫= fan_out w)).
Proof.
  intros Hr. revert w Hr.
  induction frames as [|data frames IH]; intros w Hr.
  - simpl. destruct w. simpl. by rewrite app_nil_r.
  - cbn [fmap list_fmap run]. rewrite step_Received_open by done.
    rewrite IH by done. cbn [manager sockets timers wire delivered].
    rewrite <- app_assoc. done.
Qed.

Lemma frames_fan_out_in_order_witness :
  let w := run [CallOn "cursor_update" 4; CallOn "presence_update" 9;
                CallConnect 1 7; Opened 0] init in
  let m1 := cursor_update 2 (Some (mkPosition 1 1)) in
  let m2 := left_update 2 in
  delivered (run (Received 0 <$> [Parsed m1; Malformed; Parsed m2]) w)
  = [(4, m1); (9, m2)].
Proof.
  intros w m1 m2.
  rewrite (frames_fan_out_in_order w 0 [Parsed m1; Malformed; Parsed m2]).
  - vm_compute. reflexivity.
  - vm_compute. reflexivity.
Defined.

(** X16: From a new manager, whatever has been called and has happened
    since, a frame that arrives on an open socket invokes every callback
    registered for its kind once, with the frame, and invokes no other
    callback: no callback is ever registered twice for an event. *)
Theorem each_callback_once evs s message :
  let w := run evs init in
  readyState_of w s = OPEN →
  ∃ l, delivered (step (Received s (Parsed message)) w) = delivered w ++ l
       ∧ NoDup l
       ∧ ∀ cb m, (cb, m) ∈ l
                 ↔ m = message ∧ cb ∈ listeners_of w (m_type message).
Proof.
  intros w Hr.
  assert (listeners_NoDup w) as Hnd.
  { subst w. assert (listeners_NoDup init) as H0.
    { intros e l. simpl. by rewrite lookup_empty. }
    revert H0. clear Hr. generalize init.
    induction evs as [|ev evs IH]; intros w0 H0; [done|].
    simpl. by apply IH, listeners_NoDup_step. }
  exists (fan_out w (Parsed message)).
  rewrite step_Received_open by done. split_and!; [done| |].
  - simpl. apply NoDup_fmap_2.
    + by intros x y [= ->].
    + unfold listeners_of.
      destruct (listeners (manager w) !! m_type message) eqn:He; simpl;
        [by eapply Hnd | constructor].
  - intros cb m. simpl. rewrite list_elem_of_fmap. split.
    + by intros (cb' & [= -> ->] & Hin).
    + intros [-> Hin]. by exists cb.
Qed.

Lemma each_callback_once_witness :
  let w := run [CallOn "cursor_update" 4; CallOn "cursor_update" 4;
                CallOff "cursor_update" 9; CallConnect 1 7; Opened 0]
               init in
  let m := cursor_update 2 (Some (mkPosition 1 1)) in
  ∃ l, delivered (step (Received 0 (Parsed m)) w) = delivered w ++ l
       ∧ NoDup l
       ∧ ∀ cb m', (cb, m') ∈ l
                  ↔ m' = m ∧ cb ∈ listeners_of w (m_type m).
Proof.
  intros w m.
  apply (each_callback_once
           [CallOn "cursor_update" 4; CallOn "cursor_update" 4;
            CallOff "cursor_update" 9; CallConnect 1 7; Opened 0] 0 m).
  vm_compute. reflexivity.
Defined.

(** X17: Only [on] and [off] touch the callbacks: connecting, disconnecting,
    drops, retries and traffic leave every registration in place. *)
Theorem listeners_survive evs w :
  Forall keeps_listeners evs →
  listeners (manager (run evs w)) = listeners (manager w).
Proof.
  intros Hevs. revert w.
  induction Hevs as [|ev evs Hev _ IH]; intros w; [done|].
  simpl. rewrite IH.
  destruct ev as [u c| |m|e cb|e cb|s|s|s data|s|i]; simpl in *;
    try done.
  - unfold_handlers. by repeat (case_match; simpl).
  - unfold_handlers. by repeat (case_match; simpl).
  - destruct (sockets w !! s) as [k|]; [|done].
    destruct (readyState k); try done.
    unfold onopen, send. simpl. by repeat case_match.
  - destruct (sockets w !! s) as [k|]; [|done].
    destruct (readyState k); try done;
      unfold onclose, attemptReconnect; by case_match.
  - destruct (readyState_of w s); try done.
    unfold onmessage, emit. by repeat case_match.
  - destruct (timers w !! i) as [k|]; [|done]. by destruct (fired k).
Qed.

Lemma listeners_survive_witness :
  let w := run [CallOn "cursor_update" 4; CallConnect 1 7; Opened 0] init in
  listeners (manager (run [CallDisconnect; Closed 0; Timeout 0; Opened 1] w))
  = listeners (manager w).
Proof.
  intros w. apply listeners_survive. repeat constructor.
Defined.

(** *** Whom the manager connects for *)

Lemma asked_for_step P ev w :
  Forall (λ k, (s_userId k, s_contractId k) ∈ P) (sockets w) →
  Forall (λ t0, (t_userId t0, t_contractId t0) ∈ P) (timers w) →
  Forall (λ k, (s_userId k, s_contractId k) ∈ P ++ requested [ev])
         (sockets (step ev w))
  ∧ Forall (λ t0, (t_userId t0, t_contractId t0) ∈ P ++ requested [ev])
           (timers (step ev w)).
Proof.
  intros Hs Ht.
  assert (Forall (λ k, (s_userId k, s_contractId k) ∈ P ++ requested [ev])
                 (sockets w)) as Hs'.
  { eapply Forall_impl; [exact Hs|]. intros k Hk. apply elem_of_app. by left. }
  assert (Forall (λ t0, (t_userId t0, t_contractId t0) ∈ P ++ requested [ev])
                 (timers w)) as Ht'.
  { eapply Forall_impl; [exact Ht|]. intros k Hk. apply elem_of_app. by left. }
  assert (∀ s r,
            Forall (λ k, (s_userId k, s_contractId k) ∈ P ++ requested [ev])
                   (sockets (set_readyState s r w))) as Hset.
  { intros s r. unfold set_readyState. cbn [sockets].
    apply Forall_alter; [done|]. by intros k _ Hk. }
  destruct ev as [u c| |m|e cb|e cb|s|s|s data|s|i]; simpl.
  - split; [|done]. apply Forall_app. split; [done|].
    apply Forall_singleton. simpl. apply elem_of_app. right. by left.
  - unfold disconnect. destruct (ws (manager w)) as [s|]; [|done].
    unfold socket_close. destruct (readyState_of w s); simpl; try done;
      split; try done; apply Hset.
  - unfold send. by repeat case_match.
  - done.
  - unfold off. by case_match.
  - destruct (sockets w !! s) as [k|]; [|done].
    destruct (readyState k); try done.
    unfold onopen, send. simpl.
    repeat case_match; simpl; split; try done; apply Hset.
  - destruct (sockets w !! s) as [k|] eqn:Hk; [|done].
    assert ((s_userId k, s_contractId k) ∈ P ++ requested [Closed s]) as Hin.
    { apply (Forall_lookup_1 _ _ _ _ Hs' Hk). }
    destruct (readyState k); try done;
      unfold onclose, attemptReconnect; simpl; case_match; simpl;
      (split; [apply Hset|]); try done;
      (apply Forall_app; split; [done|]; by apply Forall_singleton).
  - destruct (readyState_of w s); try done.
    unfold onmessage, emit. by repeat case_match.
  - done.
  - destruct (timers w !! i) as [k|] eqn:Hk; [|done].
    assert ((t_userId k, t_contractId k) ∈ P ++ requested [Timeout i]) as Hin.
    { apply (Forall_lookup_1 _ _ _ _ Ht' Hk). }
    destruct (fired k); [done|]. simpl. split.
    + apply Forall_app. split; [done|]. by apply Forall_singleton.
    + by apply Forall_insert.
Qed.

(** X18: From a new manager, every socket made and every timer set is for a
    pair (userId, contractId) that [connect] has been called with: the
    retries never connect for anybody else. *)
Theorem connects_only_as_requested evs :
  let w := run evs init in
  Forall (λ k, (s_userId k, s_contractId k) ∈ requested evs) (sockets w)
  ∧ Forall (λ t0, (t_userId t0, t_contractId t0) ∈ requested evs)
           (timers w).
Proof.
  assert (∀ evs P w,
            Forall (λ k, (s_userId k, s_contractId k) ∈ P) (sockets w) →
            Forall (λ t0, (t_userId t0, t_contractId t0) ∈ P) (timers w) →
            Forall (λ k, (s_userId k, s_contractId k) ∈ P ++ requested evs)
                   (sockets (run evs w))
            ∧ Forall (λ t0, (t_userId t0, t_contractId t0)
                            ∈ P ++ requested evs)
                     (timers (run evs w))) as Hrun.
  { clear. induction evs as [|ev evs IH]; intros P w Hs Ht.
    - simpl. by rewrite app_nil_r.
    - change (run (ev :: evs) w) with (run evs (step ev w)).
      destruct (asked_for_step P ev w Hs Ht) as [Hs' Ht'].
      destruct (IH _ _ Hs' Ht') as [Hs2 Ht2].
      replace (P ++ requested (ev :: evs))
        with ((P ++ requested [ev]) ++ requested evs); [done|].
      rewrite <- app_assoc. f_equal. unfold requested. simpl.
      by destruct ev. }
  intros w. apply (Hrun evs [] init); constructor.
Qed.

(** *** Switching documents *)

(** X19: The channel is open for (userId, contractId); the page switches to
    another pair by [disconnect()] then [connect], as the cleanup and
    the effect of the hook do.  The new socket opens and joins; but the
    [close] event of the old socket still sets its timer, and when the
    timer fires and its socket opens, the manager holds a socket of the
    old pair again: what is sent next goes to the old document. *)
Theorem switch_ends_on_old_document w s k u' c' :
  ws (manager w) = Some s → sockets w !! s = Some k →
  readyState k = OPEN →
  reconnectAttempts (manager w) < maxReconnectAttempts (manager w) →
  let s1 := length (sockets w) in
  let s2 := S (length (sockets w)) in
  let w' := run [CallDisconnect; CallConnect u' c'; Opened s1;
                 Closed s; Timeout (length (timers w)); Opened s2] w in
  wire w' = wire w ++ [(s1, join_message u' c');
                       (s2, join_message (s_userId k) (s_contractId k))]
  ∧ ws (manager w') = Some s2
  ∧ sockets w' !! s2 = Some (mkSock OPEN (s_userId k) (s_contractId k))
  ∧ sockets w' !! s1 = Some (mkSock OPEN u' c').
Proof.
  intros Hws Hk Hr Hlt s1 s2 w'.
  (* disconnect, connect *)
  set (wa := connect u' c' (disconnect w)).
  assert (wa = mk (mkManager (Some s1) (reconnectAttempts (manager w))
                     (maxReconnectAttempts (manager w))
                     (reconnectDelay (manager w)) (listeners (manager w)))
                  (sockets (set_readyState s CLOSING w)
                     ++ [mkSock CONNECTING u' c'])
                  (timers w) (wire w) (delivered w)) as Hwa.
  { subst wa. unfold disconnect, socket_close, readyState_of.
    rewrite Hws, Hk. simpl. rewrite Hr. unfold connect, set_ws. simpl.
    by rewrite length_alter. }
  assert (length (sockets (set_readyState s CLOSING w))
          = length (sockets w)) as Hlen
    by (unfold set_readyState; cbn [sockets]; apply length_alter).
  assert (s < length (sockets w)) as Hs by by eapply lookup_lt_Some.
  (* the new socket opens *)
  set (wb := step (Opened s1) wa).
  assert (wb = mk (mkManager (Some s1) 0
                     (maxReconnectAttempts (manager w))
                     (reconnectDelay (manager w)) (listeners (manager w)))
                  (sockets (set_readyState s1 OPEN wa))
                  (timers w)
                  (wire w ++ [(s1, join_message u' c')])
                  (delivered w)) as Hwb.
  { subst wb. rewrite (open_current wa s1 (mkSock CONNECTING u' c')).
    - by rewrite Hwa.
    - by rewrite Hwa.
    - rewrite Hwa. cbn [sockets]. by apply list_lookup_middle.
    - done. }
  assert (sockets wb !! s = Some (mkSock CLOSING (s_userId k) (s_contractId k)))
    as Hkb.
  { rewrite Hwb. cbn [sockets]. unfold set_readyState at 1. cbn [sockets].
    rewrite list_lookup_alter_ne by (subst s1; lia).
    rewrite Hwa. cbn [sockets]. rewrite lookup_app_l by lia.
    unfold set_readyState. cbn [sockets].
    by rewrite list_lookup_alter_eq, Hk. }
  assert (length (sockets wb) = S (length (sockets w))) as Hlenb.
  { rewrite Hwb. cbn [sockets]. unfold set_readyState at 1. cbn [sockets].
    rewrite length_alter, Hwa. cbn [sockets].
    rewrite length_app, Hlen. simpl. lia. }
  assert (sockets wb !! s1 = Some (mkSock OPEN u' c')) as Hs1b.
  { rewrite Hwb. cbn [sockets]. unfold set_readyState at 1. cbn [sockets].
    rewrite list_lookup_alter_eq, Hwa. cbn [sockets].
    by rewrite list_lookup_middle. }
  (* the old socket closes and its timer fires *)
  set (wc := run [Closed s; Timeout (length (timers w))] wb).
  assert (timers wb = timers w) as Htb by by rewrite Hwb.
  assert (wc = mk (mkManager (Some s2) 1
                     (maxReconnectAttempts (manager w))
                     (reconnectDelay (manager w)) (listeners (manager w)))
                  (sockets (set_readyState s CLOSED wb)
                     ++ [mkSock CONNECTING (s_userId k) (s_contractId k)])
                  (timers w
                     ++ [mkTimer (reconnectDelay (manager w) * 1)
                                 (s_userId k) (s_contractId k) true])
                  (wire w ++ [(s1, join_message u' c')])
                  (delivered w)) as Hwc.
  { subst wc. rewrite <- Htb.
    rewrite (reconnect_cycle wb s _ Hkb); [|done|rewrite Hwb; simpl; lia].
    cbv zeta. cbn [s_userId s_contractId]. rewrite Hlenb, Htb.
    by rewrite Hwb. }
  assert (length (sockets (set_readyState s CLOSED wb))
          = S (length (sockets w))) as Hlenc.
  { unfold set_readyState. cbn [sockets]. by rewrite length_alter. }
  (* its socket opens *)
  assert (w' = step (Opened s2) wc) as -> by reflexivity.
  rewrite (open_current wc s2
             (mkSock CONNECTING (s_userId k) (s_contractId k)));
    [|by rewrite Hwc|rewrite Hwc; cbn [sockets];
      by apply list_lookup_middle|done].
  cbv zeta. cbn [s_userId s_contractId manager ws wire sockets].
  split_and!.
  - rewrite Hwc. cbn [wire]. by rewrite <- app_assoc.
  - done.
  - unfold set_readyState. cbn [sockets].
    rewrite list_lookup_alter_eq, Hwc. cbn [sockets].
    by rewrite list_lookup_middle.
  - unfold set_readyState at 1. cbn [sockets].
    rewrite list_lookup_alter_ne by (subst s1 s2; lia).
    rewrite Hwc. cbn [sockets]. rewrite lookup_app_l by (subst s1; lia).
    unfold set_readyState at 1. cbn [sockets].
    rewrite list_lookup_alter_ne by (subst s1; lia). done.
Qed.

Lemma switch_ends_on_old_document_witness :
  let w := run [CallConnect 1 7; Opened 0] init in
  let w' := run [CallDisconnect; CallConnect 2 8; Opened 1;
                 Closed 0; Timeout 0; Opened 2] w in
  ws (manager w') = Some 2
  ∧ sockets w' !! 2 = Some (mkSock OPEN 1 7).
Proof.
  intros w w'.
  destruct (switch_ends_on_old_document w 0 (mkSock OPEN 1 7) 2 8)
    as (_ & H2 & H3 & _).
  - reflexivity.
  - reflexivity.
  - reflexivity.
  - vm_compute. lia.
  - split; [exact H2 | exact H3].
Defined.

End ClientMore.

(** ** The presence view *)

Module PresenceViewFacts.
Import PresenceView.

Lemma filter_not_elem {A B} `{EqDecision B} (f : A → B) (b : B)
    (l : list A) :
  b ∉ f <$> l → filter (λ x, f x ≠ b) l = l.
Proof.
  induction l as [|x l IH]; [done|]. rewrite fmap_cons.
  intros [Hx Hl]%not_elem_of_cons.
  rewrite filter_cons_True by done. f_equal. by apply IH.
Qed.

Lemma not_elem_filter {A B} `{EqDecision B} (f : A → B) (b : B)
    (l : list A) :
  b ∉ f <$> filter (λ x, f x ≠ b) l.
Proof.
  intros (x & -> & [Hx _]%list_elem_of_filter)%list_elem_of_fmap. done.
Qed.

Lemma NoDup_fmap_filter {A B} (f : A → B) (P : A → Prop)
    `{∀ x, Decision (P x)} (l : list A) :
  NoDup (f <$> l) → NoDup (f <$> filter P l).
Proof.
  induction l as [|x l IH]; [done|]. rewrite fmap_cons.
  intros [Hx Hl]%NoDup_cons. rewrite filter_cons. case_decide; [|by apply IH].
  rewrite fmap_cons. apply NoDup_cons. split; [|by apply IH].
  intros (y & Hy & [_ Hin]%list_elem_of_filter)%list_elem_of_fmap.
  apply Hx, list_elem_of_fmap. eauto.
Qed.

Lemma NoDup_replace {A B} `{EqDecision B} (f : A → B) (x : A)
    (l : list A) :
  NoDup (f <$> l) → NoDup (f <$> (filter (λ y, f y ≠ f x) l ++ [x])).
Proof.
  intros Hl. rewrite fmap_app. apply NoDup_app. split_and!.
  - by apply NoDup_fmap_filter.
  - intros b Hb ->%list_elem_of_singleton.
    by apply (not_elem_filter f (f x) l).
  - apply NoDup_singleton.
Qed.

Lemma distinct_on_frame now data st :
  distinct st → distinct (on_frame now data st).
Proof.
  intros [Hu Hc]. unfold on_frame, on_presence_update, on_cursor_update.
  repeat case_match; try done; split; simpl; try done.
  - apply (NoDup_replace pu_id
             (mkPresenceUser (m_userId data) "Unknown User" None
                             (m_position data) true now) _ Hu).
  - by apply NoDup_fmap_filter.
  - by apply NoDup_fmap_filter.
  - apply (NoDup_replace cp_userId
             (mkCursorPosition (m_userId data) (m_position data)
                               "Unknown User" None) _ Hc).
Qed.

(** X20: Whatever frames arrive, the view never shows a user twice, neither
    among the active users nor among the cursors. *)
Theorem view_never_duplicates frames :
  distinct (on_frames frames init).
Proof.
  assert (distinct init) as H0 by (split; constructor).
  revert H0. generalize init.
  induction frames as [|[now data] frames IH]; intros st Hst; [done|].
  simpl. by apply IH, distinct_on_frame.
Qed.

Lemma on_frame_cursor_updates u (moves : list (Date * option Position)) st :
  on_frames ((λ m, (m.1, cursor_update u m.2)) <$> moves) st
  = fold_left (λ st p, on_cursor_update (cursor_update u p) st)
              (moves.*2) st.
Proof.
  revert st. induction moves as [|[t p] moves IH]; intros st; [done|].
  csimpl. by rewrite IH.
Qed.

Lemma cursor_updates_view u moves st :
  Some u ∉ cp_userId <$> cursors st →
  let st' := fold_left (λ st p, on_cursor_update (cursor_update u p) st)
                       moves st in
  activeUsers st' = activeUsers st
  ∧ filter (λ cursor, cp_userId cursor ≠ Some u) (cursors st') = cursors st.
Proof.
  intros Hu. simpl.
  assert (∀ st0,
            activeUsers st0 = activeUsers st →
            filter (λ cursor, cp_userId cursor ≠ Some u) (cursors st0)
            = cursors st →
            activeUsers (fold_left
                           (λ st p, on_cursor_update (cursor_update u p) st)
                           moves st0) = activeUsers st
            ∧ filter (λ cursor, cp_userId cursor ≠ Some u)
                (cursors (fold_left
                            (λ st p, on_cursor_update (cursor_update u p) st)
                            moves st0)) = cursors st) as Hgen.
  { induction moves as [|p moves IH]; intros st0 Ha Hc; [done|].
    simpl. apply IH; [done|]. simpl.
    rewrite filter_app, list_filter_filter.
    rewrite filter_cons_False by (by intros ?). rewrite app_nil_r.
    rewrite <- Hc. apply list_filter_iff. tauto. }
  apply Hgen; [done|]. by apply (filter_not_elem cp_userId).
Qed.

(** X21: A user the view does not show joins, moves the cursor any number of
    times and leaves: after the [joined], the [cursor_update]s and the
    [left] the view is exactly what it was. *)
Theorem join_moves_leave_restores_view now now' u pos
    (moves : list (Date * option Position)) st :
  absent (Some u) st →
  on_frames
    ([(now, joined_update u pos)]
     ++ ((λ m, (m.1, cursor_update u m.2)) <$> moves)
     ++ [(now', left_update u)]) st
  = st.
Proof.
  intros [Ha Hc].
  assert (∀ fs1 fs2 st0,
            on_frames (fs1 ++ fs2) st0
            = on_frames fs2 (on_frames fs1 st0)) as Happ.
  { induction fs1 as [|[t f] fs1 IH]; intros fs2 st0; [done|].
    simpl. apply IH. }
  rewrite !Happ, on_frame_cursor_updates.
  change (on_frames [(now, joined_update u pos)] st)
    with (mk (filter (λ user, pu_id user ≠ Some u) (activeUsers st)
              ++ [mkPresenceUser (Some u) "Unknown User" None pos true now])
             (cursors st)).
  rewrite (filter_not_elem pu_id) by done.
  set (st1 := mk _ _).
  destruct (cursor_updates_view u (moves.*2) st1 Hc) as [Hu' Hc'].
  set (st2 := fold_left _ (moves.*2) st1) in *.
  change (on_frames [(now', left_update u)] st2)
    with (mk (filter (λ user, pu_id user ≠ Some u) (activeUsers st2))
             (filter (λ cursor, cp_userId cursor ≠ Some u) (cursors st2))).
  rewrite Hc', Hu'. subst st1. simpl.
  rewrite filter_app, filter_cons_False by (by intros ?).
  rewrite (filter_not_elem pu_id) by done.
  rewrite app_nil_r. by destruct st.
Qed.

Lemma join_moves_leave_restores_view_witness :
  let st := on_frames [(5, joined_update 3 None);
                       (6, cursor_update 3 (Some (mkPosition 1 1)))] init in
  on_frames
    ([(7, joined_update 4 None)]
     ++ ((λ m, (m.1, cursor_update 4 m.2))
           <$> [(8, Some (mkPosition 2 5)); (9, None)])
     ++ [(10, left_update 4)]) st
  = st.
Proof.
  intros st. apply join_moves_leave_restores_view.
  split; vm_compute; intros H;
    repeat (apply elem_of_cons in H as [H|H]; [discriminate|]);
    by apply elem_of_nil in H.
Defined.

End PresenceViewFacts.

(** ** The tables of users, projects and contract versions *)

Module TablesFacts.
Import Tables.

Lemma Forall_filter_keep {A} (Q P : A → Prop) `{∀ x, Decision (P x)} l :
  Forall Q l → Forall Q (filter P l).
Proof.
  rewrite !Forall_forall. intros HQ x [_ Hx]%list_elem_of_filter. auto.
Qed.

Section jsmap.
Context {V : Type}.
Implicit Types (m : JsMap V) (k : Z) (v : V).

Lemma jm_get_set_eq k v m : jm_get k (jm_set k v m) = Some v.
Proof.
  induction m as [|[k' v'] m IH]; simpl.
  - by rewrite decide_True.
  - destruct (decide (k' = k)) as [->|Hne]; simpl.
    + by rewrite decide_True.
    + by rewrite decide_False.
Qed.

Lemma jm_get_set_ne k k' v m :
  k ≠ k' → jm_get k' (jm_set k v m) = jm_get k' m.
Proof.
  intros Hne. induction m as [|[k0 v0] m IH]; simpl.
  - by rewrite decide_False.
  - destruct (decide (k0 = k)) as [->|Hne0]; simpl.
    + by rewrite !decide_False.
    + by rewrite IH.
Qed.

Lemma jm_get_below c k m : below c m → c ≤ k → jm_get k m = None.
Proof.
  intros Hb Hle. induction Hb as [|[k' v'] m Hk Hb IH]; simpl; [done|].
  simpl in Hk. rewrite decide_False by lia. done.
Qed.

Lemma jm_set_fresh k v m : jm_get k m = None → jm_set k v m = m ++ [(k, v)].
Proof.
  induction m as [|[k' v'] m IH]; simpl; [done|].
  destruct (decide (k' = k)); [done|]. intros H. by rewrite IH.
Qed.

Lemma jm_set_keys k v m :
  is_Some (jm_get k m) → (jm_set k v m).*1 = m.*1.
Proof.
  induction m as [|[k' v'] m IH]; csimpl.
  - by intros [? ?].
  - destruct (decide (k' = k)) as [->|Hne]; csimpl; [done|].
    intros H. f_equal. by apply IH.
Qed.

Lemma below_set c c' k v m :
  below c m → c ≤ c' → k < c' → below c' (jm_set k v m).
Proof.
  intros Hb Hle Hk. induction Hb as [|[k' v'] m Hk' Hb IH]; simpl.
  - by repeat constructor.
  - simpl in Hk'. destruct (decide (k' = k)); constructor; simpl;
      try lia; try done.
    eapply Forall_impl; [exact Hb|]. simpl. intros. lia.
Qed.

Lemma below_filter c (P : Z * V → Prop) `{∀ p, Decision (P p)} m :
  below c m → below c (filter P m).
Proof. apply Forall_filter_keep. Qed.

Lemma jm_get_filter_eq k m : jm_get k (filter (λ p, p.1 ≠ k) m) = None.
Proof.
  induction m as [|[k' v'] m IH]; [done|].
  rewrite filter_cons. simpl. destruct (decide (k' ≠ k)) as [Hne|Heq]; simpl.
  - by rewrite decide_False.
  - done.
Qed.

Lemma jm_get_filter_ne k k' m :
  k ≠ k' → jm_get k' (filter (λ p, p.1 ≠ k) m) = jm_get k' m.
Proof.
  intros Hne. induction m as [|[k0 v0] m IH]; [done|].
  rewrite filter_cons. simpl. destruct (decide (k0 ≠ k)) as [Hne0|Heq]; simpl.
  - by rewrite IH.
  - apply dec_stable in Heq as ->. by rewrite decide_False.
Qed.

Lemma filter_absent k m :
  jm_get k m = None → filter (λ p, p.1 ≠ k) m = m.
Proof.
  induction m as [|[k' v'] m IH]; [done|]. simpl.
  destruct (decide (k' = k)) as [->|Hne]; [done|].
  intros H. rewrite filter_cons. simpl. rewrite decide_True by done.
  by rewrite IH.
Qed.

End jsmap.

(** The counters never go down, and the keys stay below them. *)
Lemma ids_below_counters_call c st :
  ids_below_counters st → ids_below_counters (call c st).
Proof.
  intros (Hu & Hp & Hv). destruct c; simpl.
  - split_and!; simpl; [|done|done].
    eapply below_set; [exact Hu|lia|lia].
  - unfold updateUser. destruct (jm_get id (users st)) eqn:Hget; simpl;
      [|done].
    split_and!; simpl; [|done|done].
    destruct (decide (id < userIdCounter st)).
    + eapply below_set; [exact Hu|lia|done].
    + rewrite (jm_get_below (userIdCounter st)) in Hget; [done|done|lia].
  - split_and!; simpl; [done| |done].
    eapply below_set; [exact Hp|lia|lia].
  - unfold updateProject. destruct (jm_get id (projects st)) eqn:Hget; simpl;
      [|done].
    split_and!; simpl; [done| |done].
    destruct (decide (id < projectIdCounter st)).
    + eapply below_set; [exact Hp|lia|done].
    + rewrite (jm_get_below (projectIdCounter st)) in Hget; [done|done|lia].
  - split_and!; simpl; [done| |done]. by apply below_filter.
  - split_and!; simpl; [done|done|].
    eapply below_set; [exact Hv|lia|lia].
Qed.

Lemma counters_call c st :
  userIdCounter st ≤ userIdCounter (call c st)
  ∧ projectIdCounter st ≤ projectIdCounter (call c st)
  ∧ versionIdCounter st ≤ versionIdCounter (call c st).
Proof.
  destruct c; simpl; try lia.
  - unfold updateUser. destruct (jm_get _ _); simpl; lia.
  - unfold updateProject. destruct (jm_get _ _); simpl; lia.
Qed.

Lemma ids_below_counters_calls cs st :
  ids_below_counters st → ids_below_counters (calls cs st).
Proof.
  revert st. induction cs as [|c cs IH]; intros st H; [done|].
  apply IH. by apply ids_below_counters_call.
Qed.

Lemma counters_calls cs st :
  userIdCounter st ≤ userIdCounter (calls cs st)
  ∧ projectIdCounter st ≤ projectIdCounter (calls cs st)
  ∧ versionIdCounter st ≤ versionIdCounter (calls cs st).
Proof.
  revert st. induction cs as [|c cs IH]; intros st; [simpl; lia|].
  change (calls (c :: cs) st) with (calls cs (call c st)).
  specialize (IH (call c st)). pose proof (counters_call c st). lia.
Qed.

Lemma ids_below_counters_initial t0 t1 t2 :
  ids_below_counters (initializeSampleData t0 t1 t2).
Proof. split_and!; repeat constructor. Qed.

Lemma find_app_Some {A} (P : A → bool) l l' x :
  find P l = Some x → find P (l ++ l') = Some x.
Proof.
  unfold find. rewrite filter_app.
  destruct (filter _ l); [done|]. done.
Qed.

Lemma find_app_None {A} (P : A → bool) l l' :
  find P l = None → find P (l ++ l') = find P l'.
Proof.
  unfold find. rewrite filter_app.
  destruct (filter _ l); [done|]. done.
Qed.

(** *** Sorting *)

Lemma insert_newest_first_Permutation x l :
  insert_newest_first x l ≡ₚ x :: l.
Proof.
  induction l as [|y l IH]; simpl; [done|].
  destruct (decide _); [|done]. rewrite IH. apply Permutation_swap.
Qed.

Lemma sort_newest_first_Permutation l : sort_newest_first l ≡ₚ l.
Proof.
  induction l as [|x l IH]; simpl; [done|].
  rewrite insert_newest_first_Permutation. by rewrite IH.
Qed.

Lemma insert_newest_first_Sorted x l :
  StronglySorted not_older l →
  StronglySorted not_older (insert_newest_first x l).
Proof.
  induction 1 as [|y l Hs IH Hall]; simpl.
  - by repeat constructor.
  - destruct (decide _) as [Hlt|Hge].
    + constructor; [done|].
      rewrite insert_newest_first_Permutation. constructor; [|done].
      unfold not_older. lia.
    + constructor; [by constructor|].
      constructor; [unfold not_older; lia|].
      eapply Forall_impl; [exact Hall|]. unfold not_older. intros. lia.
Qed.

Lemma sort_newest_first_Sorted l :
  StronglySorted not_older (sort_newest_first l).
Proof.
  induction l; simpl; [constructor|]. by apply insert_newest_first_Sorted.
Qed.

Lemma insert_newest_first_same_time t x l :
  filter (λ v, cv_createdAt v = t) (insert_newest_first x l)
  = filter (λ v, cv_createdAt v = t) (x :: l).
Proof.
  induction l as [|y l IH]; simpl; [done|].
  destruct (decide (cv_createdAt x < cv_createdAt y)) as [Hlt|Hge]; [|done].
  rewrite (filter_cons _ y), IH, !filter_cons.
  destruct (decide (cv_createdAt y = t)), (decide (cv_createdAt x = t));
    try done. lia.
Qed.

Lemma sort_newest_first_same_time t l :
  filter (λ v, cv_createdAt v = t) (sort_newest_first l)
  = filter (λ v, cv_createdAt v = t) l.
Proof.
  induction l as [|x l IH]; simpl; [done|].
  rewrite insert_newest_first_same_time, !filter_cons, IH. done.
Qed.

Lemma sort_newest_first_snoc x l :
  Forall (λ y, cv_createdAt y < cv_createdAt x) l →
  sort_newest_first (l ++ [x]) = x :: sort_newest_first l.
Proof.
  induction 1 as [|y l Hy Hall IH]; simpl; [done|].
  fold (sort_newest_first (l ++ [x])). rewrite IH. simpl.
  by rewrite decide_True.
Qed.

(** X22: [createUser] gives the new user the next id, one that no call
    before it has used, stores the user under it, and leaves the other
    users as they are; this holds after any calls on the store the
    constructor made. *)
Theorem createUser_fresh_id t0 t1 t2 cs insertUser now :
  let st := calls cs (initializeSampleData t0 t1 t2) in
  let r := createUser insertUser now st in
  getUser (us_id r.2) st = None
  ∧ getUser (us_id r.2) r.1 = Some r.2
  ∧ (∀ id, id ≠ us_id r.2 → getUser id r.1 = getUser id st)
  ∧ userIdCounter r.1 = us_id r.2 + 1.
Proof.
  intros st r.
  assert (ids_below_counters st) as (Hu & _).
  { apply ids_below_counters_calls, ids_below_counters_initial. }
  unfold getUser. simpl. split_and!.
  - eapply jm_get_below; [exact Hu|lia].
  - apply jm_get_set_eq.
  - intros id Hne. by apply jm_get_set_ne.
  - done.
Qed.

(** X23: an id that a project has had is never given to a project
    created later, whatever is updated, created or deleted in
    between. *)
Theorem project_ids_never_reused st cs insertProject now now' id :
  ids_below_counters st →
  is_Some (getProject id st) →
  pj_id (createProject insertProject now now' (calls cs st)).2 ≠ id.
Proof.
  intros (_ & Hp & _) [p Hget]. simpl.
  pose proof (counters_calls cs st) as (_ & Hle & _).
  intros Heq. unfold getProject in Hget.
  rewrite (jm_get_below (projectIdCounter st)) in Hget; [done|done|lia].
Qed.

Lemma project_ids_never_reused_witness :
  pj_id (createProject (mkInsertProject "again" None 1) 5 5
           (calls [DeleteProject 1] (initializeSampleData 0 0 0))).2 ≠ 1.
Proof.
  apply project_ids_never_reused.
  - split_and!; repeat constructor.
  - by eexists.
Defined.

(** X24: [getUserByUsername] answers with the user who took the name
    first: a later [createUser] with the same name is accepted, but the
    lookup keeps answering with the earlier user. *)
Theorem first_user_keeps_the_name st insertUser now username user :
  ids_below_counters st →
  getUserByUsername username st = Some user →
  getUserByUsername username (createUser insertUser now st).1 = Some user.
Proof.
  intros (Hu & _) Hfind. unfold getUserByUsername, jm_values. simpl.
  rewrite jm_set_fresh by (eapply jm_get_below; [exact Hu|lia]).
  rewrite fmap_app. by apply find_app_Some.
Qed.

Lemma first_user_keeps_the_name_witness :
  getUserByUsername "john.smith"
    (createUser (mkInsertUser "john.smith" "j@example.com" "pw" "J" None None)
       9 (initializeSampleData 0 0 0)).1
  = Some (sampleUser 0).
Proof.
  apply first_user_keeps_the_name.
  - split_and!; repeat constructor.
  - reflexivity.
Defined.

(** X25: [updateProject] on an id that is not stored answers [undefined]
    and changes nothing; on a stored id it answers the merged project,
    stamped with the time of the call, stores it under the same key at
    the same place in the map, and leaves every other project alone. *)
Theorem updateProject_round_trip id updates now st :
  let r := updateProject id updates now st in
  match getProject id st with
  | None => r = (st, None)
  | Some project =>
      r.2 = Some (spread_project project updates now)
      ∧ getProject id r.1 = r.2
      ∧ (∀ p, r.2 = Some p → pj_updatedAt p = now)
      ∧ (∀ id', id' ≠ id → getProject id' r.1 = getProject id' st)
      ∧ (projects r.1).*1 = (projects st).*1
  end.
Proof.
  intros r. subst r. unfold getProject, updateProject.
  destruct (jm_get id (projects st)) as [project|] eqn:Hget; [|done].
  simpl. split_and!.
  - done.
  - apply jm_get_set_eq.
  - by intros p [= <-].
  - intros id' Hne. by apply jm_get_set_ne.
  - by apply jm_set_keys.
Qed.

(** X26: [deleteProject] answers whether the project was stored; after
    it the id is not found, the other projects are as before, and a
    second delete answers [false] and changes nothing. *)
Theorem deleteProject_once id st :
  let r := deleteProject id st in
  (r.2 = true ↔ is_Some (getProject id st))
  ∧ getProject id r.1 = None
  ∧ (∀ id', id' ≠ id → getProject id' r.1 = getProject id' st)
  ∧ deleteProject id r.1 = (r.1, false).
Proof.
  intros r. subst r. unfold getProject, deleteProject. simpl. split_and!.
  - apply bool_decide_eq_true.
  - apply jm_get_filter_eq.
  - intros id' Hne. by apply jm_get_filter_ne.
  - unfold jm_delete. simpl. rewrite jm_get_filter_eq.
    rewrite filter_absent by apply jm_get_filter_eq. done.
Qed.

(** X27: [getProjectsByUser] lists a user's projects in the order they
    were created: a new project goes to the end of its owner's list
    and into nobody else's. *)
Theorem new_project_listed_last st insertProject now now' userId :
  ids_below_counters st →
  let r := createProject insertProject now now' st in
  getProjectsByUser userId r.1
  = getProjectsByUser userId st
    ++ (if decide (np_ownerId insertProject = userId) then [r.2] else []).
Proof.
  intros (_ & Hp & _) r. subst r. unfold getProjectsByUser, jm_values. simpl.
  rewrite jm_set_fresh by (eapply jm_get_below; [exact Hp|lia]).
  rewrite fmap_app, filter_app. f_equal.
Qed.

Lemma new_project_listed_last_witness :
  getProjectsByUser 1
    (createProject (mkInsertProject "second" None 1) 3 4
       (initializeSampleData 0 1 2)).1
  = [sampleProject 1 2; mkProject 2 "second" None 1 3 4].
Proof.
  etrans.
  - apply new_project_listed_last. split_and!; repeat constructor.
  - reflexivity.
Defined.

(** X28: [getContractVersionsByContract] answers exactly the stored
    versions of the document, newest first, and versions made in the
    same millisecond in the order they were created. *)
Theorem versions_newest_first contractId st :
  let l := getContractVersionsByContract contractId st in
  StronglySorted not_older l
  ∧ l ≡ₚ filter (λ version, cv_contractId version = contractId)
           (jm_values (contractVersions st))
  ∧ ∀ t, filter (λ v, cv_createdAt v = t) l
         = filter (λ v, cv_createdAt v = t)
             (filter (λ version, cv_contractId version = contractId)
                (jm_values (contractVersions st))).
Proof.
  intros l. subst l. unfold getContractVersionsByContract. split_and!.
  - apply sort_newest_first_Sorted.
  - apply sort_newest_first_Permutation.
  - intros t. apply sort_newest_first_same_time.
Qed.

(** X29: a version created after all the stored versions of its document
    heads the document's history, and the histories of the other
    documents do not change. *)
Theorem new_version_heads_history st insertVersion now contractId :
  ids_below_counters st →
  older_than now (nv_contractId insertVersion) st →
  let r := createContractVersion insertVersion now st in
  getContractVersionsByContract contractId r.1
  = if decide (nv_contractId insertVersion = contractId)
    then r.2 :: getContractVersionsByContract contractId st
    else getContractVersionsByContract contractId st.
Proof.
  intros (_ & _ & Hv) Hold r. subst r.
  unfold getContractVersionsByContract, jm_values. simpl.
  rewrite jm_set_fresh by (eapply jm_get_below; [exact Hv|lia]).
  rewrite fmap_app, filter_app. simpl. rewrite filter_cons, filter_nil. simpl.
  destruct (decide (nv_contractId insertVersion = contractId)) as [<-|Hne].
  - rewrite sort_newest_first_snoc; [done|].
    apply Forall_forall. intros v [Hc Hv']%list_elem_of_filter.
    unfold older_than, jm_values in Hold. rewrite Forall_forall in Hold.
    simpl. by apply Hold.
  - by rewrite app_nil_r.
Qed.

Lemma new_version_heads_history_witness :
  let st0 := Tables.mk [] [] [] 1 1 1 in
  let st1 := (createContractVersion (mkInsertContractVersion 7 "1.0" "a" None 1)
                10 st0).1 in
  getContractVersionsByContract 7
    (createContractVersion (mkInsertContractVersion 7 "1.1" "b" None 1)
       20 st1).1
  = [mkContractVersion 2 7 "1.1" "b" None 1 20;
     mkContractVersion 1 7 "1.0" "a" None 1 10].
Proof.
  intros st0 st1. etrans.
  - apply new_version_heads_history.
    + split_and!; repeat constructor.
    + repeat constructor.
  - reflexivity.
Defined.

End TablesFacts.
